(** * django-actions: check-migrations and dump-database

    A shallow embedding of the two GitHub Actions scripts of the repository
    ([check-migrations/index.js], [dump-database/index.js] and the second
    dump script) together with the properties their description states.

    The scripts are sequences of subprocess invocations and GitHub REST
    calls.  Everything outside the scripts (the processes, the GitHub
    API, the action inputs, the clock) is a [World] that answers each call
    as a function of the history of the run; the scripts are computations
    in a trace-and-exception monad over that world. *)

From Stdlib Require Import String Ascii NArith ZArith Bool Lia DecimalString
  DecimalNat List.
Import ListNotations.

Set Implicit Arguments.

(** ** JavaScript strings *)

Module Js.

(** A JavaScript string is a sequence of UTF-16 code units. *)
Definition jsstring := list N.

Definition js (s : string) : jsstring :=
  List.map N_of_ascii (list_ascii_of_string s).

(** [a === b] on strings *)
Fixpoint js_eqb (a b : jsstring) : bool :=
  match a, b with
  | [], [] => true
  | x :: a', y :: b' => (x =? y)%N && js_eqb a' b'
  | _, _ => false
  end.

(** [WhiteSpace] and [LineTerminator] code points of ECMAScript: what
    [String.prototype.trim] strips and what [\s] matches. *)
Definition is_space (c : N) : bool :=
  ((9 <=? c) && (c <=? 13) || (c =? 32) || (c =? 160) || (c =? 5760)
   || (8192 <=? c) && (c <=? 8202) || (c =? 8232) || (c =? 8233)
   || (c =? 8239) || (c =? 8287) || (c =? 12288) || (c =? 65279))%N.

(** [\w] without the [u] and [i] flags: [A-Za-z0-9_]. *)
Definition is_word (c : N) : bool :=
  ((65 <=? c) && (c <=? 90) || (97 <=? c) && (c <=? 122)
   || (48 <=? c) && (c <=? 57) || (c =? 95))%N.

Fixpoint drop_while (p : N -> bool) (s : jsstring) : jsstring :=
  match s with
  | [] => []
  | c :: s' => if p c then drop_while p s' else s
  end.

(** [s.trim()] *)
Definition trim (s : jsstring) : jsstring :=
  rev (drop_while is_space (rev (drop_while is_space s))).

(** [s.split(sep)] for a separator of one code unit: always at least one
    piece. *)
Fixpoint split (sep : N) (s : jsstring) : list jsstring :=
  match s with
  | [] => [[]]
  | c :: s' =>
      if (c =? sep)%N then [] :: split sep s'
      else match split sep s' with
           | piece :: pieces => (c :: piece) :: pieces
           | [] => [[c]]
           end
  end.

(** [pieces.join(sep)] *)
Fixpoint join (sep : jsstring) (pieces : list jsstring) : jsstring :=
  match pieces with
  | [] => []
  | [p] => p
  | p :: rest => p ++ sep ++ join sep rest
  end.

(** Template literal interpolation of a number that is a length. *)
Definition of_nat (n : nat) : jsstring :=
  js (NilZero.string_of_uint (Nat.to_uint n)).

Definition newline : N := 10%N.

(** The longest prefix of [s] whose code units satisfy [p], and the rest. *)
Fixpoint span (p : N -> bool) (s : jsstring) : jsstring * jsstring :=
  match s with
  | [] => ([], [])
  | c :: s' =>
      if p c then let '(a, b) := span p s' in (c :: a, b) else ([], s)
  end.

End Js.
Import Js.

(** ** Regular expressions *)

Module Regex.

(** The fragment of the regular-expression syntax the scripts use.  A
    pattern anchored by [^] and [$] (without the [m] flag) matches the
    whole subject string. *)
Inductive regex : Type :=
| Lit (c : N)                          (* an escaped or plain character *)
| Class (p : N -> bool)                (* [...], \s, \w *)
| Cat (r1 r2 : regex)
| Plus (r : regex)                     (* r+ *)
| Group (name : string) (r : regex).   (* (?<name>r) *)

Definition captures := list (string * jsstring).

(** [matches r s g]: the whole of [s] matches [r], the named groups
    capturing [g]. *)
Inductive matches : regex -> jsstring -> captures -> Prop :=
| m_lit c : matches (Lit c) [c] []
| m_class p c : p c = true -> matches (Class p) [c] []
| m_cat r1 r2 s1 s2 g1 g2 :
    matches r1 s1 g1 -> matches r2 s2 g2 ->
    matches (Cat r1 r2) (s1 ++ s2) (g1 ++ g2)
| m_plus_last r s g : matches r s g -> matches (Plus r) s g
| m_plus_more r s1 s2 g1 g2 :
    matches r s1 g1 -> matches (Plus r) s2 g2 ->
    matches (Plus r) (s1 ++ s2) g2
| m_group name r s g :
    matches r s g -> matches (Group name r) s ((name, s) :: g).

Definition one_of (cs : jsstring) (c : N) : bool :=
  existsb (N.eqb c) cs.

(** [/^\[(?<applied>[X ])\]\s+(?<appLabel>\w+)\.(?<migrationName>\w+)$/] *)
Definition migration_regex : regex :=
  Cat (Lit 91)
   (Cat (Group "applied" (Class (one_of (js "X "))))
    (Cat (Lit 93)
     (Cat (Plus (Class is_space))
      (Cat (Group "appLabel" (Plus (Class is_word)))
       (Cat (Lit 46)
            (Group "migrationName" (Plus (Class is_word)))))))).

(** [match.groups] of a successful match of [migration_regex]. *)
Record groups : Type := {
  applied : jsstring;
  appLabel : jsstring;
  migrationName : jsstring
}.

Definition captures_of (g : groups) : captures :=
  [("applied"%string, applied g); ("appLabel"%string, appLabel g);
   ("migrationName"%string, migrationName g)].

(** [line.match(regex)] for [migration_regex]: [None] is JavaScript's
    [null].  The character classes that follow each other in the pattern
    are disjoint, so each repetition takes the longest run and there is
    nothing to backtrack into. *)
Definition match_migration (line : jsstring) : option groups :=
  match line with
  | 91%N :: c :: 93%N :: rest =>
      if one_of (js "X ") c then
        match span is_space rest with
        | (_ :: _, rest1) =>
            match span is_word rest1 with
            | ((_ :: _) as app, 46%N :: rest2) =>
                match span is_word rest2 with
                | ((_ :: _) as name, []) =>
                    Some {| applied := [c]; appLabel := app;
                            migrationName := name |}
                | _ => None
                end
            | _ => None
            end
        | _ => None
        end
      else None
  | _ => None
  end.

End Regex.


(** ** Values, errors and the outside world *)

Inductive JsError : Type :=
| Error (msg : jsstring)
| TypeError (msg : jsstring)
| ReferenceError (msg : jsstring).

(** [error.message] *)
Definition message (e : JsError) : jsstring :=
  match e with
  | Error m | TypeError m | ReferenceError m => m
  end.

(** The values that flow through the GitHub client calls.  A promise
    carries how it settles. *)
#[warnings="-register-all"]
Inductive JsVal : Type :=
| VUndefined
| VNumber (n : Z)
| VString (s : jsstring)
| VArray (items : list JsVal)
| VObject (props : list (string * JsVal))
| VPromise (settled : JsError + JsVal).

(** [github.context.repo] *)
Record Repo : Type := { owner : jsstring; repo : jsstring }.

(** A call of [exec.exec(tool, args, options)]; the listeners of the
    options are the caller's and are applied by the caller below. *)
Record ExecCall : Type := {
  tool : jsstring;
  args : list jsstring;
  ignoreReturnCode : bool;
  silent : bool
}.

(** What a subprocess does: it exits with a code after writing [chunks]
    to its stdout (each as handed to a [stdout] listener, decoded) which
    the runner also cuts into [lines] for a [stdline] listener; or it
    cannot be run at all. *)
Inductive ProcOutcome : Type :=
| Exited (code : Z) (chunks : list jsstring) (lines : list jsstring)
| NotRun (e : JsError).

Record ChecksCreate : Type := {
  cc_repo : Repo;
  cc_name : jsstring;
  cc_head_sha : jsstring;
  cc_status : jsstring
}.

Record CheckOutput : Type := {
  title : jsstring;
  summary : jsstring;
  text : option jsstring
}.

Record ChecksUpdate : Type := {
  cu_repo : Repo;
  check_run_id : JsVal;
  completed_at : jsstring;
  conclusion : jsstring;
  output : CheckOutput
}.

Record FileRequest : Type := {
  f_repo : Repo;
  path : jsstring;
  f_message : jsstring;
  content : jsstring;
  sha : option jsstring            (* [None] is [undefined] *)
}.

Record PullsList : Type := {
  pl_repo : Repo;
  state : jsstring;
  pl_head : jsstring
}.

Record PullsCreate : Type := {
  pc_repo : Repo;
  pc_title : jsstring;
  pc_head : jsstring;
  base : jsstring
}.

(** What a run does to the outside, in order, each call with its answer. *)
Inductive Event : Type :=
| EExec (c : ExecCall) (o : ProcOutcome)
| ELog (label : jsstring)
| ESetFailed (msg : jsstring)
| EChecksCreate (r : ChecksCreate) (a : JsError + Z)
| EChecksUpdate (r : ChecksUpdate) (a : JsError + unit)
| ECreateOrUpdateFile (r : FileRequest) (a : JsError + unit)
| EPullsList (r : PullsList) (a : JsError + list JsVal)
| EPullsCreate (r : PullsCreate) (a : JsError + unit).

Definition Trace := list Event.

(** The collaborators of the scripts.  Every answer may depend on all that
    happened before in the run. *)
Record World : Type := {
  input : jsstring -> jsstring;          (* action inputs, empty when absent *)
  client_error : jsstring -> option JsError;
                                  (* what [new github.GitHub(token)] throws *)
  context_repo : Repo;
  context_sha : jsstring;
  process : Trace -> ExecCall -> ProcOutcome;
  exit_code_error : ExecCall -> Z -> JsError;
  checks_create : Trace -> ChecksCreate -> JsError + Z;
  checks_update : Trace -> ChecksUpdate -> JsError + unit;
  create_or_update_file : Trace -> FileRequest -> JsError + unit;
  pulls_list : Trace -> PullsList -> JsError + list JsVal;
  pulls_create : Trace -> PullsCreate -> JsError + unit;
  now_iso : Trace -> jsstring;            (* new Date().toISOString() *)
  schedule : Trace -> list ExecCall -> nat
                 (* which of the processes that run side by side ends next *)
}.

(** ** The monad of the scripts: a trace and exceptions *)

Inductive Outcome (A : Type) : Type :=
| Returned (a : A)
| Thrown (e : JsError).
Arguments Thrown {A} e.

Definition M (A : Type) : Type := Trace -> Outcome A * Trace.

Definition ret {A} (a : A) : M A := fun h => (Returned a, h).

Definition throw {A} (e : JsError) : M A := fun h => (Thrown e, h).

Definition bind {A B} (m : M A) (k : A -> M B) : M B :=
  fun h =>
    match m h with
    | (Returned a, h') => k a h'
    | (Thrown e, h') => (Thrown e, h')
    end.

Definition try_catch {A} (body : M A) (handler : JsError -> M A) : M A :=
  fun h =>
    match body h with
    | (Returned a, h') => (Returned a, h')
    | (Thrown e, h') => handler e h'
    end.

Definition emit (e : Event) : M unit := fun h => (Returned tt, h ++ [e]).

Declare Scope js_scope.
Delimit Scope js_scope with js.
Notation "x <- m ;; k" := (bind m (fun x => k))
  (at level 61, m at next level, right associativity) : js_scope.
Notation "' p <- m ;; k" := (bind m (fun x => let 'p := x in k))
  (at level 61, p pattern, m at next level, right associativity) : js_scope.
Notation "m ;; k" := (bind m (fun _ => k))
  (at level 61, right associativity) : js_scope.
Open Scope js_scope.

(** [array.map(f)] for a synchronous [f] that may throw: the results in
    order, or the first throw. *)
Fixpoint mapM {A B} (f : A -> M B) (l : list A) : M (list B) :=
  match l with
  | [] => ret []
  | a :: l' => b <- f a ;; bs <- mapM f l' ;; ret (b :: bs)
  end.

(** [v.name]: reading a property of [undefined] throws (with the message
    of the Node 12 runtime of the actions); a promise has no property
    [data], [id] or [length]. *)
Definition member (v : JsVal) (name : string) : M JsVal :=
  match v with
  | VUndefined =>
      throw (TypeError (js "Cannot read property '" ++ js name
                          ++ js "' of undefined"))
  | VObject props =>
      ret (match find (fun kv => String.eqb (fst kv) name) props with
           | Some kv => snd kv
           | None => VUndefined
           end)
  | VArray items =>
      ret (if String.eqb name "length"
           then VNumber (Z.of_nat (List.length items)) else VUndefined)
  | VString s =>
      ret (if String.eqb name "length"
           then VNumber (Z.of_nat (List.length s)) else VUndefined)
  | VNumber _ => ret VUndefined
  | VPromise _ => ret VUndefined
  end.

(** [await v] *)
Definition await (v : JsVal) : M JsVal :=
  match v with
  | VPromise (inl e) => throw e
  | VPromise (inr x) => ret x
  | _ => ret v
  end.

(** [v === 0] *)
Definition is_zero (v : JsVal) : bool :=
  match v with
  | VNumber n => (n =? 0)%Z
  | _ => false
  end.

(** Evaluating an identifier: the value bound to it among the declarations
    in scope, a [ReferenceError] when there is none. *)
Definition identifier {A} (scope : list (string * A)) (name : string) : M A :=
  match find (fun b => String.eqb (fst b) name) scope with
  | Some b => ret (snd b)
  | None => throw (ReferenceError (js name ++ js " is not defined"))
  end.

(** A [stdout] listener [data => { stdout += data.toString() }] fed with
    the chunks of a process. *)
Definition listen (stdout : jsstring) (chunks : list jsstring) : jsstring :=
  fold_left (fun acc data => acc ++ data) chunks stdout.

Record Finished : Type := {
  code : Z;
  chunks : list jsstring;
  stdlines : list jsstring
}.

(** ** Async functions that run side by side

    An async function whose awaits are all of [exec.exec], seen between
    two awaits: it has returned, it has thrown, or it waits for a process
    and knows how to go on with the result. *)
Inductive Async (A : Type) : Type :=
| Resolved (a : A)
| Rejected (e : JsError)
| Awaiting (c : ExecCall) (k : Finished -> Async A).
Arguments Rejected {A} e.

(** The processes the calls wait for, in the order of the calls. *)
Definition pending {A} (tasks : list (Async A)) : list ExecCall :=
  flat_map (fun t => match t with Awaiting c _ => [c] | _ => [] end) tasks.

Fixpoint first_rejected {A} (tasks : list (Async A)) : option JsError :=
  match tasks with
  | [] => None
  | Rejected e :: _ => Some e
  | _ :: rest => first_rejected rest
  end.

Definition resolved {A} (tasks : list (Async A)) : list A :=
  flat_map (fun t => match t with Resolved a => [a] | _ => [] end) tasks.

Section Actions.

Variable W : World.

(** [new github.GitHub(token)] *)
Definition new_GitHub (token : jsstring) : M unit :=
  match client_error W token with
  | Some e => throw e
  | None => ret tt
  end.

(** How a call that awaits [exec.exec(c)] goes on when the process ends
    with [o]: as [exec] below, it rejects when the process cannot be run,
    and on a non-zero exit code unless [ignoreReturnCode]. *)
Definition resume {A} (c : ExecCall) (k : Finished -> Async A)
    (o : ProcOutcome) : Async A :=
  match o with
  | NotRun e => Rejected e
  | Exited n out ls =>
      if (n =? 0)%Z || ignoreReturnCode c
      then k {| code := n; chunks := out; stdlines := ls |}
      else Rejected (exit_code_error W c n)
  end.

(** The [i]-th of the waiting calls goes on with [o]. *)
Fixpoint resume_nth {A} (i : nat) (o : ProcOutcome) (tasks : list (Async A))
  : list (Async A) :=
  match tasks with
  | [] => []
  | Awaiting c k :: rest =>
      match i with
      | O => resume c k o :: rest
      | S i' => Awaiting c k :: resume_nth i' o rest
      end
  | t :: rest => t :: resume_nth i o rest
  end.

(** One of the processes the calls wait for ends, the one the world
    schedules, and its call goes on to its next await or settles. *)
Definition step {A} (tasks : list (Async A)) (h : Trace)
  : list (Async A) * Trace :=
  let calls := pending tasks in
  let chosen := schedule W h calls in
  let i := if (chosen <? length calls)%nat then chosen else O in
  match nth_error calls i with
  | Some c =>
      let o := process W h c in
      (resume_nth i o tasks, h ++ [EExec c o])
  | None => (tasks, h)
  end.

(** [await Promise.all(tasks)] over calls that are all started: it
    rejects as soon as one call has thrown, with the calls that are
    still running left to themselves, and resolves with the results in
    the order of the calls when all have returned.  [awaits] bounds the
    awaits the calls have left altogether. *)
Fixpoint Promise_all {A} (awaits : nat) (tasks : list (Async A)) (h : Trace)
  : (Outcome (list A) * Trace) * list (Async A) :=
  match first_rejected tasks with
  | Some e => ((Thrown e, h), tasks)
  | None =>
      match awaits, pending tasks with
      | S awaits', _ :: _ =>
          let '(tasks', h') := step tasks h in
          Promise_all awaits' tasks' h'
      | _, _ => ((Returned (resolved tasks), h), [])
      end
  end.

(** The calls a rejected [Promise.all] left running run to their end:
    nobody awaits them, and what they return or throw is lost. *)
Fixpoint drain {A} (awaits : nat) (tasks : list (Async A)) (h : Trace)
  : Trace :=
  match awaits, pending tasks with
  | S awaits', _ :: _ =>
      let '(tasks', h') := step tasks h in
      drain awaits' tasks' h'
  | _, _ => h
  end.

(** [exec.exec]: resolves with the exit code; rejects when the process
    cannot be run, and on a non-zero exit code unless [ignoreReturnCode]. *)
Definition exec (c : ExecCall) : M Finished :=
  fun h =>
    let o := process W h c in
    let h' := h ++ [EExec c o] in
    match o with
    | NotRun e => (Thrown e, h')
    | Exited n out ls =>
        if (n =? 0)%Z || ignoreReturnCode c
        then (Returned {| code := n; chunks := out; stdlines := ls |}, h')
        else (Thrown (exit_code_error W c n), h')
    end.

(** [core.getInput(name, { required })] *)
Definition getInput (name : jsstring) (required : bool) : M jsstring :=
  let val := input W name in
  if required && match val with [] => true | _ => false end
  then throw (Error (js "Input required and not supplied: " ++ name))
  else ret (trim val).

(** [core.setFailed(message)] *)
Definition setFailed (msg : jsstring) : M unit := emit (ESetFailed msg).

(** [console.log(label, value)] *)
Definition console_log (label : jsstring) : M unit := emit (ELog label).

(** [new Date().toISOString()] *)
Definition toISOString : M jsstring := fun h => (Returned (now_iso W h), h).

Definition promise_of {A} (wrap : A -> JsVal) (a : JsError + A) : JsVal :=
  VPromise match a with
           | inl e => inl e
           | inr x => inr (wrap x)
           end.

(** The client methods send their request when called and return a
    promise of the response. *)
Definition octokit_checks_create (r : ChecksCreate) : M JsVal :=
  fun h =>
    let a := checks_create W h r in
    (Returned (promise_of
                 (fun id => VObject [("data"%string,
                                      VObject [("id"%string, VNumber id)])]) a),
     h ++ [EChecksCreate r a]).

Definition octokit_checks_update (r : ChecksUpdate) : M JsVal :=
  fun h =>
    let a := checks_update W h r in
    (Returned (promise_of (fun _ => VObject [("data"%string, VObject [])]) a),
     h ++ [EChecksUpdate r a]).

Definition octokit_repos_createOrUpdateFile (r : FileRequest) : M JsVal :=
  fun h =>
    let a := create_or_update_file W h r in
    (Returned (promise_of (fun _ => VObject [("data"%string, VObject [])]) a),
     h ++ [ECreateOrUpdateFile r a]).

Definition octokit_pulls_list (r : PullsList) : M JsVal :=
  fun h =>
    let a := pulls_list W h r in
    (Returned (promise_of
                 (fun items => VObject [("data"%string, VArray items)]) a),
     h ++ [EPullsList r a]).

Definition octokit_pulls_create (r : PullsCreate) : M JsVal :=
  fun h =>
    let a := pulls_create W h r in
    (Returned (promise_of (fun _ => VObject [("data"%string, VObject [])]) a),
     h ++ [EPullsCreate r a]).

End Actions.

(** ** check-migrations/index.js *)

Module CheckMigrations.

(** The object [getMigrationOutput] returns; [locks] is [null] when
    [None]. *)
Record MigrationOutput : Type := {
  appLabel : jsstring;
  migrationName : jsstring;
  sql : jsstring;
  locks : option jsstring
}.

(** [renderDetails(title, content)] *)
Definition renderDetails (title content : jsstring) : jsstring :=
  js "<details><summary>" ++ title ++ js "</summary>" ++ [newline; newline]
    ++ content ++ [newline; newline] ++ js "</details>".

(** The truthiness test [locks ? ... : ...]. *)
Definition truthy (locks : option jsstring) : bool :=
  match locks with
  | Some (_ :: _) => true
  | _ => false
  end.

Definition renderMigration (m : MigrationOutput) : jsstring :=
  join [newline]
    [js "#### " ++ appLabel m ++ js "." ++ migrationName m;
     renderDetails (js "SQL") (join [newline] [js "```sql"; sql m; js "```"]);
     if truthy (locks m)
     then renderDetails (js "Locks")
            (join [newline]
               [js "```"; match locks m with Some l => l | None => [] end;
                js "```"])
     else js ""].

(** [array.filter(l => l !== null)] *)
Definition non_null {A} (l : list (option A)) : list A :=
  flat_map (fun x => match x with Some a => [a] | None => [] end) l.

(** [renderDetailsMarkdown] *)
Definition renderDetailsMarkdown (isMissingMigrations : bool)
    (makeMigrationsOutput : jsstring) (hasUnappliedMigrations : bool)
    (unappliedMigrations : list MigrationOutput) : jsstring :=
  let unappliedMigrationSummaries := map renderMigration unappliedMigrations in
  join [newline]
    (non_null
       [if isMissingMigrations then Some (js "## Missing migrations") else None;
        if isMissingMigrations then Some (js "```") else None;
        if isMissingMigrations then Some makeMigrationsOutput else None;
        if isMissingMigrations then Some (js "```") else None;
        if hasUnappliedMigrations then Some (js "## New migrations") else None;
        if hasUnappliedMigrations then Some (js "") else None;
        if hasUnappliedMigrations
        then Some (join [newline] unappliedMigrationSummaries) else None]).

Section Script.

Variable W : World.

(** [python -W ignore manage.py ...] under the [options] of the three
    functions: [ignoreReturnCode: true, silent: true] and a [stdout]
    listener. *)
Definition manage (arguments : list jsstring) : ExecCall :=
  {| tool := js "python";
     args := [js "-W"; js "ignore"; js "manage.py"] ++ arguments;
     ignoreReturnCode := true;
     silent := true |}.

(** [checkMissingMigrations] *)
Definition checkMissingMigrations : M (bool * jsstring) :=
  let stdout := js "" in
  result <- exec W (manage [js "makemigrations"; js "--dry-run"; js "--check"]) ;;
  let stdout := listen stdout (chunks result) in
  ret (negb (code result =? 0)%Z, trim stdout).

(** The function mapped over the lines in [getUnappliedMigrations]. *)
Definition classify (line : jsstring) : M (option (jsstring * jsstring)) :=
  match Regex.match_migration line with
  | None => throw (Error (js "Line " ++ line ++ js " did not match regex"))
  | Some groups =>
      ret (if js_eqb (Regex.applied groups) (js " ")
           then Some (Regex.appLabel groups, Regex.migrationName groups)
           else None)
  end.

(** [getUnappliedMigrations] *)
Definition getUnappliedMigrations : M (bool * list (jsstring * jsstring)) :=
  let stdout := js "" in
  result <- exec W (manage [js "showmigrations"; js "--plan"]) ;;
  let stdout := listen stdout (chunks result) in
  if negb (code result =? 0)%Z
  then throw (Error (js "Failed to run " ++ [34%N]
                       ++ js "showmigrations --plan" ++ [34%N]))
  else
    classified <- mapM classify (split newline (trim stdout)) ;;
    let unappliedMigrations := non_null classified in
    ret ((0 <? length unappliedMigrations)%nat, unappliedMigrations).

(** [getMigrationOutput({ migrationLocksCommand }, [appLabel, migrationName])] *)
Definition getMigrationOutput (migrationLocksCommand : jsstring)
    (migration : jsstring * jsstring) : M MigrationOutput :=
  let '(appLabel, migrationName) := migration in
  let stdout := js "" in
  result <- exec W (manage [js "sqlmigrate"; appLabel; migrationName]) ;;
  let stdout := listen stdout (chunks result) in
  if negb (code result =? 0)%Z
  then throw (Error (js "Failed to run sqlmigrate"))
  else
    let sql := stdout in
    let stdout := js "" in
    result <- exec W (manage [migrationLocksCommand; appLabel; migrationName]) ;;
    let stdout := listen stdout (chunks result) in
    let locks := if (code result =? 0)%Z then Some stdout else None in
    ret {| appLabel := appLabel; migrationName := migrationName;
           sql := sql; locks := locks |}.

(** [getMigrationOutput] as the call that [Promise.all] runs beside the
    others: the same function, between its two awaits. *)
Definition getMigrationOutputCall (migrationLocksCommand : jsstring)
    (migration : jsstring * jsstring) : Async MigrationOutput :=
  let '(appLabel, migrationName) := migration in
  let stdout := js "" in
  Awaiting (manage [js "sqlmigrate"; appLabel; migrationName]) (fun result =>
    let stdout := listen stdout (chunks result) in
    if negb (code result =? 0)%Z
    then Rejected (Error (js "Failed to run sqlmigrate"))
    else
      let sql := stdout in
      let stdout := js "" in
      Awaiting (manage [migrationLocksCommand; appLabel; migrationName])
        (fun result =>
           let stdout := listen stdout (chunks result) in
           let locks := if (code result =? 0)%Z then Some stdout else None in
           Resolved {| appLabel := appLabel; migrationName := migrationName;
                       sql := sql; locks := locks |})).

(** The end of the second [try] block of [run], from the rendering of
    the details on. *)
Definition report (checkRun : JsVal) (isMissingMigrations : bool)
    (makeMigrationsOutput : jsstring) (hasUnappliedMigrations : bool)
    (unappliedMigrations : list (jsstring * jsstring))
    (unappliedMigrationDetails : list MigrationOutput) : M unit :=
  let detailsMarkdown :=
    renderDetailsMarkdown isMissingMigrations makeMigrationsOutput
      hasUnappliedMigrations unappliedMigrationDetails in
  let summary :=
    if isMissingMigrations && hasUnappliedMigrations
    then js "Missing migrations and " ++ of_nat (length unappliedMigrations)
           ++ js " new migrations"
    else if isMissingMigrations
    then js "Missing migrations"
    else of_nat (length unappliedMigrations) ++ js " new migrations" in
  data <- member checkRun "data" ;;
  id <- member data "id" ;;
  now <- toISOString W ;;
  updateResult <- (response <- octokit_checks_update W
      {| cu_repo := context_repo W;
         check_run_id := id;
         completed_at := now;
         conclusion := if isMissingMigrations then js "failure" else js "success";
         output := {| title := js "Migrations check";
                      summary := summary;
                      text := Some detailsMarkdown |} |} ;; await response) ;;
  console_log (js "Update result").

(** The body of the second [try] block of [run]: how it ends, and the
    calls of [getMigrationOutput] that are still running when it throws.
    [unappliedMigrations.map(...)] starts one call for each unapplied
    migration, each with two awaits. *)
Definition check (migrationLocksCommand : jsstring) (checkRun : JsVal)
    (h : Trace)
  : (Outcome unit * Trace) * list (Async MigrationOutput) :=
  match checkMissingMigrations h with
  | (Thrown e, h1) => ((Thrown e, h1), [])
  | (Returned (isMissingMigrations, makeMigrationsOutput), h1) =>
  match getUnappliedMigrations h1 with
  | (Thrown e, h2) => ((Thrown e, h2), [])
  | (Returned (hasUnappliedMigrations, unappliedMigrations), h2) =>
  match Promise_all W (2 * length unappliedMigrations)
          (map (getMigrationOutputCall migrationLocksCommand)
             unappliedMigrations) h2 with
  | ((Thrown e, h3), running) => ((Thrown e, h3), running)
  | ((Returned unappliedMigrationDetails, h3), _) =>
      (report checkRun isMissingMigrations makeMigrationsOutput
         hasUnappliedMigrations unappliedMigrations
         unappliedMigrationDetails h3, [])
  end end end.

(** The [catch] block of the second [try] of [run]. *)
Definition check_failed (checkRun : JsVal) (error : JsError) : M unit :=
  console_log (js "Something went wrong") ;;
  setFailed (message error) ;;
  data <- member checkRun "data" ;;
  id <- member data "id" ;;
  now <- toISOString W ;;
  updateResult <- (response <- octokit_checks_update W
      {| cu_repo := context_repo W;
         check_run_id := id;
         completed_at := now;
         conclusion := js "failure";
         output := {| title := js "Migrations check";
                      summary := js "Failed to check migrations.";
                      text := None |} |} ;; await response) ;;
  ret tt.

(** [run] *)
Definition run : M unit :=
  githubToken <- getInput W (js "github-token") true ;;
  octokit <- new_GitHub W githubToken ;;
  lockInput <- getInput W (js "migrations-lock-command") false ;;
  let migrationLocksCommand :=
    match lockInput with
    | [] => js "migrationlocks"
    | _ => lockInput
    end in
  checkRun <- try_catch
    (checkRun <- (response <- octokit_checks_create W
         {| cc_repo := context_repo W;
            cc_name := js "Migrations check";
            cc_head_sha := context_sha W;
            cc_status := js "in_progress" |} ;; await response) ;;
     console_log (js "Check run") ;;
     ret (Some checkRun))
    (fun error => setFailed (message error) ;; ret None) ;;
  match checkRun with
  | None => ret tt
  | Some checkRun =>
      fun h =>
        match check migrationLocksCommand checkRun h with
        | ((Returned done, h1), _) => (Returned done, h1)
        | ((Thrown error, h1), running) =>
            let '(outcome, h2) := check_failed checkRun error h1 in
            (outcome, drain W (2 * length running) running h2)
        end
  end.

End Script.

End CheckMigrations.

(** ** dump-database/index.js *)

(** A [stdline] listener [line => lines.push(line)] fed with the lines of
    a process. *)
Definition push_lines (lines : list jsstring) (printed : list jsstring)
  : list jsstring :=
  fold_left (fun acc line => acc ++ [line]) printed lines.

(** [exec.exec(tool, args, options)] without [ignoreReturnCode] and
    [silent]. *)
Definition command (name : string) (arguments : list jsstring) : ExecCall :=
  {| tool := js name; args := arguments;
     ignoreReturnCode := false; silent := false |}.

(** [lines.includes(outputPath)] *)
Definition includes (lines : list jsstring) (x : jsstring) : bool :=
  existsb (js_eqb x) lines.

Module DumpDatabase.

(** The argument of [dumpDatabase]. *)
Record DumpConfig : Type := {
  dbName : jsstring;
  dbHost : jsstring;
  dbPort : jsstring;
  dbUser : jsstring;
  dbPass : jsstring;
  dockerImage : jsstring;
  outputPath : jsstring
}.

(** The names bound at the top level of the file. *)
Definition declared : list string :=
  ["path"; "core"; "github"; "exec"; "applyMigrations"; "dumpDatabase";
   "commitFile"; "makePullRequest"; "run"]%string.

Section Script.

Variable W : World.

(** [applyMigrations] *)
Definition applyMigrations : M jsstring :=
  let stdout := js "" in
  result <- exec W (command "python" [js "manage.py"; js "migrate"]) ;;
  let stdout := listen stdout (chunks result) in
  ret (trim stdout).

(** [dumpDatabase]; [path.normalize(".")] is ["."]. *)
Definition dumpDatabase (cfg : DumpConfig) : M bool :=
  let currentDir := js "." in
  exec W (command "docker"
    [js "run"; js "-v"; currentDir ++ js ":/github/workspace";
     js "--workdir"; js "/github/workspace";
     js "-e"; js "PGPASSWORD=" ++ dbPass cfg;
     js "--entrypoint"; js "pg_dump"; dockerImage cfg;
     js "-h"; dbHost cfg; js "-p"; dbPort cfg; js "-d"; dbName cfg;
     js "-U"; dbUser cfg; js "--no-owner"; js "-f"; outputPath cfg]) ;;
  let lines := [] in
  result <- exec W (command "git" [js "ls-files"; js "-mo"; outputPath cfg]) ;;
  let lines := push_lines lines (stdlines result) in
  ret (includes lines (outputPath cfg)).

(** [commitFile({ outputPath, octokit, branch })] *)
Definition commitFile (outputPath branch : jsstring) : M unit :=
  exec W (command "git" [js "stash"; js "--"; outputPath]) ;;
  result <- exec W {| tool := js "test"; args := [js "-f"; outputPath];
                      ignoreReturnCode := true; silent := false |} ;;
  sha <- (if (code result =? 0)%Z
          then
            let lines := [] in
            hashed <- exec W (command "git" [js "hash-object"; outputPath]) ;;
            let lines := push_lines lines (stdlines hashed) in
            ret (nth_error lines 0)
          else ret None) ;;
  exec W (command "git" [js "stash"; js "pop"]) ;;
  let content := js "" in
  encoded <- exec W (command "base64" [js "-i"; outputPath]) ;;
  let content := listen content (chunks encoded) in
  response <- octokit_repos_createOrUpdateFile W
    {| f_repo := context_repo W;
       path := outputPath;
       f_message := js "Update database template";
       content := trim content;
       sha := sha |} ;;
  await response ;;
  ret tt.

(** [makePullRequest({ octokit, branch })]: neither client call is
    awaited. *)
Definition makePullRequest (branch : jsstring) : M unit :=
  console_log (js "Creating pull request") ;;
  pulls <- octokit_pulls_list W
    {| pl_repo := context_repo W;
       state := js "open";
       pl_head := owner (context_repo W) ++ js ":" ++ branch |} ;;
  data <- member pulls "data" ;;
  len <- member data "length" ;;
  if is_zero len
  then
    octokit_pulls_create W
      {| pc_repo := context_repo W;
         pc_title := js "Update database template";
         pc_head := branch;
         base := js "master" |} ;;
    ret tt
  else ret tt.

(** The functions of the file that take [{ octokit, branch }], by name:
    what a call [name({ octokit, branch })] can resolve to. *)
Definition branch_functions : list (string * (jsstring -> M unit)) :=
  [("makePullRequest"%string, makePullRequest)].

(** The body of the [try] block of [run]. *)
Definition attempt (cfg : DumpConfig) (branch : jsstring) : M unit :=
  appliedMigrations <- applyMigrations ;;
  hasChanged <- dumpDatabase cfg ;;
  commitFile (outputPath cfg) branch ;;
  if hasChanged : bool
  then
    createPullRequest <- identifier branch_functions "createPullRequest" ;;
    createPullRequest branch
  else ret tt.

(** The [catch] block of [run]. *)
Definition failed (error : JsError) : M unit :=
  console_log (js "Something went wrong") ;;
  setFailed (message error).

(** [run] *)
Definition run : M unit :=
  githubToken <- getInput W (js "github-token") true ;;
  octokit <- new_GitHub W githubToken ;;
  outputPath <- getInput W (js "output-path") true ;;
  branch <- getInput W (js "branch") true ;;
  dockerImage <- getInput W (js "docker-image") true ;;
  dbName <- getInput W (js "db-name") true ;;
  dbUser <- getInput W (js "db-user") true ;;
  dbHost <- getInput W (js "db-host") true ;;
  dbPass <- getInput W (js "db-pass") true ;;
  dbPort <- getInput W (js "db-port") true ;;
  try_catch
    (attempt
       {| dbName := dbName; dbHost := dbHost; dbPort := dbPort;
          dbUser := dbUser; dbPass := dbPass; dockerImage := dockerImage;
          outputPath := outputPath |} branch)
    failed.

End Script.

End DumpDatabase.

(** ** The second dump script (its file name is not known)

    It starts from a dump that is already written: it has no
    [applyMigrations] and no [dumpDatabase], and [commitFile] and
    [makePullRequest] are those of [dump-database/index.js], word for
    word. *)

Module DumpCheck.

(** The names bound at the top level of the file. *)
Definition declared : list string :=
  ["core"; "github"; "exec"; "dbDumpHasChanged"; "commitFile";
   "makePullRequest"; "run"]%string.

Section Script.

Variable W : World.

(** [dbDumpHasChanged({ outputPath })] *)
Definition dbDumpHasChanged (outputPath : jsstring) : M bool :=
  let lines := [] in
  result <- exec W (command "git" [js "ls-files"; js "-mo"; outputPath]) ;;
  let lines := push_lines lines (stdlines result) in
  ret (includes lines outputPath).

Definition commitFile : jsstring -> jsstring -> M unit :=
  DumpDatabase.commitFile W.

Definition makePullRequest : jsstring -> M unit :=
  DumpDatabase.makePullRequest W.

(** The functions of the file that take no argument and return a string:
    there is none. *)
Definition string_functions : list (string * M jsstring) := [].

Definition branch_functions : list (string * (jsstring -> M unit)) :=
  [("makePullRequest"%string, makePullRequest)].

(** The body of the [try] block of [run]. *)
Definition attempt (outputPath branch : jsstring) : M unit :=
  applyMigrations <- identifier string_functions "applyMigrations" ;;
  appliedMigrations <- applyMigrations ;;
  hasChanged <- dbDumpHasChanged outputPath ;;
  commitFile outputPath branch ;;
  if hasChanged : bool
  then
    createPullRequest <- identifier branch_functions "createPullRequest" ;;
    createPullRequest branch
  else ret tt.

(** The [catch] block of [run]. *)
Definition failed (error : JsError) : M unit :=
  console_log (js "Something went wrong") ;;
  setFailed (message error).

(** [run] *)
Definition run : M unit :=
  githubToken <- getInput W (js "github-token") true ;;
  octokit <- new_GitHub W githubToken ;;
  outputPath <- getInput W (js "output-path") true ;;
  branch <- getInput W (js "branch") true ;;
  try_catch (attempt outputPath branch) failed.

End Script.

End DumpCheck.

(** ** Vocabulary of the properties *)

(** The text a process wrote to its stdout. *)
Definition stdout_of (chunks : list jsstring) : jsstring := concat chunks.

(** The (app label, migration name) pairs of the lines that match
    [migration_regex] with a space in the bracket, in the order of the
    lines, when every line matches the regex. *)
Inductive unapplied_of : list jsstring -> list (jsstring * jsstring) -> Prop :=
| unapplied_nil : unapplied_of [] []
| unapplied_new line app name rest pairs :
    Regex.matches Regex.migration_regex line
      [("applied"%string, js " "); ("appLabel"%string, app);
       ("migrationName"%string, name)] ->
    unapplied_of rest pairs ->
    unapplied_of (line :: rest) ((app, name) :: pairs)
| unapplied_done line app name rest pairs :
    Regex.matches Regex.migration_regex line
      [("applied"%string, js "X"); ("appLabel"%string, app);
       ("migrationName"%string, name)] ->
    unapplied_of rest pairs ->
    unapplied_of (line :: rest) pairs.

(** The shape of the lines the regex matches: bracket, run of white
    space, app label, dot, migration name. *)
Definition migration_line (c : N) (ws app name : jsstring) : jsstring :=
  91%N :: c :: 93%N :: ws ++ app ++ 46%N :: name.

(** The error of [getUnappliedMigrations] for a failed command. *)
Definition plan_failed : JsError :=
  Error (js "Failed to run " ++ [34%N] ++ js "showmigrations --plan" ++ [34%N]).

(** No way of matching the line against the regex. *)
Definition no_match (line : jsstring) : Prop :=
  forall g, ~ Regex.matches Regex.migration_regex line g.

(** The first line that does not match: the lines before it do. *)
Definition first_no_match (lines : list jsstring) (line : jsstring) : Prop :=
  exists before after,
    lines = before ++ line :: after /\
    no_match line /\
    Forall (fun l => exists g, Regex.matches Regex.migration_regex l g) before.

Definition showmigrations : ExecCall :=
  CheckMigrations.manage [js "showmigrations"; js "--plan"].

Definition makemigrations : ExecCall :=
  CheckMigrations.manage [js "makemigrations"; js "--dry-run"; js "--check"].

Definition sqlmigrate (app name : jsstring) : ExecCall :=
  CheckMigrations.manage [js "sqlmigrate"; app; name].

Definition lock_analysis (migrationLocksCommand app name : jsstring) : ExecCall :=
  CheckMigrations.manage [migrationLocksCommand; app; name].

Definition ls_files (outputPath : jsstring) : ExecCall :=
  command "git" [js "ls-files"; js "-mo"; outputPath].

Definition pg_dump (cfg : DumpDatabase.DumpConfig) : ExecCall :=
  command "docker"
    [js "run"; js "-v"; js ".:/github/workspace";
     js "--workdir"; js "/github/workspace";
     js "-e"; js "PGPASSWORD=" ++ DumpDatabase.dbPass cfg;
     js "--entrypoint"; js "pg_dump"; DumpDatabase.dockerImage cfg;
     js "-h"; DumpDatabase.dbHost cfg; js "-p"; DumpDatabase.dbPort cfg;
     js "-d"; DumpDatabase.dbName cfg; js "-U"; DumpDatabase.dbUser cfg;
     js "--no-owner"; js "-f"; DumpDatabase.outputPath cfg].

Definition stash (outputPath : jsstring) : ExecCall :=
  command "git" [js "stash"; js "--"; outputPath].

Definition test_f (outputPath : jsstring) : ExecCall :=
  {| tool := js "test"; args := [js "-f"; outputPath];
     ignoreReturnCode := true; silent := false |}.

Definition hash_object (outputPath : jsstring) : ExecCall :=
  command "git" [js "hash-object"; outputPath].

Definition stash_pop : ExecCall := command "git" [js "stash"; js "pop"].

Definition base64 (outputPath : jsstring) : ExecCall :=
  command "base64" [js "-i"; outputPath].

(** *** Concrete worlds *)

(** The command line of a call, to look its outcome up in a script. *)
Definition command_line (c : ExecCall) : jsstring :=
  join (js " ") (tool c :: args c).

Definition lookup {A} (key : jsstring) (table : list (string * A)) : option A :=
  match find (fun kv => js_eqb (js (fst kv)) key) table with
  | Some kv => Some (snd kv)
  | None => None
  end.

(** A world whose inputs and processes follow a table, whose GitHub
    client refuses the empty token only, whose GitHub calls all succeed,
    in which [pulls] are the open pull requests of the branch, and in
    which of the processes that run side by side the first one started
    ends first. *)
Definition scripted (inputs : list (string * string))
    (script : list (string * ProcOutcome)) (pulls : list JsVal) : World :=
  {| input := fun name =>
       match lookup name inputs with Some v => js v | None => [] end;
     client_error := fun token =>
       match token with
       | [] => Some (Error (js "Parameter token or opts.auth is required"))
       | _ :: _ => None
       end;
     context_repo := {| owner := js "ljodal"; repo := js "shop" |};
     context_sha := js "4f2a9c1";
     process := fun _ c =>
       match lookup (command_line c) script with
       | Some o => o
       | None => NotRun (Error (js "Unable to locate executable file"))
       end;
     exit_code_error := fun c n =>
       Error (js "The process '" ++ tool c ++ js "' failed with exit code "
                ++ js (NilZero.string_of_int (Z.to_int n)));
     checks_create := fun _ _ => inr 7%Z;
     checks_update := fun _ _ => inr tt;
     create_or_update_file := fun _ _ => inr tt;
     pulls_list := fun _ _ => inr pulls;
     pulls_create := fun _ _ => inr tt;
     now_iso := fun _ => js "2020-02-01T10:00:00.000Z";
     schedule := fun _ _ => O |}.

(** A process that exits with [code] after printing [text]: one chunk,
    and the [lines] of it. *)
Definition exits (code : Z) (text : string) (lines : list string) : ProcOutcome :=
  Exited code [js text] (map js lines).

Definition nl : string := String (ascii_of_nat 10) EmptyString.

(** A project with a model change that has no migration yet, one applied
    and one new migration, and no lock-analysis command installed. *)
Definition project_world : World :=
  scripted
    [("github-token", "secret")]%string
    [("python -W ignore manage.py makemigrations --dry-run --check",
      exits 1 ("Migrations for 'shop':" ++ nl) ["Migrations for 'shop':"]);
     ("python -W ignore manage.py showmigrations --plan",
      exits 0 ("[X]  shop.0001_initial" ++ nl ++ "[ ]  shop.0002_price" ++ nl)
        ["[X]  shop.0001_initial"; "[ ]  shop.0002_price"]);
     ("python -W ignore manage.py sqlmigrate shop 0002_price",
      exits 0 ("BEGIN;" ++ nl ++ "COMMIT;" ++ nl) ["BEGIN;"; "COMMIT;"]);
     ("python -W ignore manage.py migrationlocks shop 0002_price",
      exits 1 "" [])]%string
    [].

(** The same project when [showmigrations] prints its plan but exits
    with code 1. *)
Definition failing_plan_world : World :=
  scripted
    [("github-token", "secret")]%string
    [("python -W ignore manage.py makemigrations --dry-run --check",
      exits 0 ("No changes detected" ++ nl) ["No changes detected"]);
     ("python -W ignore manage.py showmigrations --plan",
      exits 1 ("[ ]  shop.0002_price" ++ nl) ["[ ]  shop.0002_price"])]%string
    [].

(** A run without the [github-token] input. *)
Definition tokenless_world : World := scripted [] [] [].

Definition dump_inputs : list (string * string) :=
  [("github-token", "secret"); ("output-path", "db.sql");
   ("branch", "update-db"); ("docker-image", "postgres:11");
   ("db-name", "shop"); ("db-user", "postgres"); ("db-host", "localhost");
   ("db-pass", "pw"); ("db-port", "5432")]%string.

(** A dump run in which every command succeeds and [git ls-files] lists
    the dump file as modified; no pull request of the branch is open. *)
Definition changed_dump_world : World :=
  scripted dump_inputs
    [("python manage.py migrate", exits 0 ("Operations to perform:" ++ nl)
                                    ["Operations to perform:"]);
     ("docker run -v .:/github/workspace --workdir /github/workspace -e PGPASSWORD=pw --entrypoint pg_dump postgres:11 -h localhost -p 5432 -d shop -U postgres --no-owner -f db.sql",
      exits 0 "" []);
     ("git ls-files -mo db.sql", exits 0 ("db.sql" ++ nl) ["db.sql"]);
     ("git stash -- db.sql", exits 0 "" []);
     ("test -f db.sql", exits 0 "" []);
     ("git hash-object db.sql",
      exits 0 ("8b137891791fe96927ad78e64b0aad7bded08bdc" ++ nl)
        ["8b137891791fe96927ad78e64b0aad7bded08bdc"]);
     ("git stash pop", exits 0 "" []);
     ("base64 -i db.sql", exits 0 ("LS0gZHVtcAo=" ++ nl) ["LS0gZHVtcAo="])]%string
    [].

Definition dump_cfg : DumpDatabase.DumpConfig :=
  {| DumpDatabase.dbName := js "shop";
     DumpDatabase.dbHost := js "localhost";
     DumpDatabase.dbPort := js "5432";
     DumpDatabase.dbUser := js "postgres";
     DumpDatabase.dbPass := js "pw";
     DumpDatabase.dockerImage := js "postgres:11";
     DumpDatabase.outputPath := js "db.sql" |}.

(** The history after one more subprocess call. *)
Definition after (h : Trace) (c : ExecCall) (o : ProcOutcome) : Trace :=
  h ++ [EExec c o].

(** The request [commitFile] sends for a dump at [outputPath] whose
    base64 text is [encoded]. *)
Definition file_request (W : World) (outputPath encoded : jsstring)
    (blob : option jsstring) : FileRequest :=
  {| f_repo := context_repo W;
     path := outputPath;
     f_message := js "Update database template";
     content := trim encoded;
     sha := blob |}.

(** *** Reading a trace *)

Definition pull_requests_created (t : Trace) : list PullsCreate :=
  flat_map (fun e => match e with EPullsCreate r _ => [r] | _ => [] end) t.

Definition files_committed (t : Trace) : list FileRequest :=
  flat_map (fun e => match e with ECreateOrUpdateFile r _ => [r] | _ => [] end) t.

(** The messages the action was marked failed with. *)
Definition failures (t : Trace) : list jsstring :=
  flat_map (fun e => match e with ESetFailed m => [m] | _ => [] end) t.

(** [core.setFailed] sets the exit code of the process to 1. *)
Definition exit_status (t : Trace) : Z :=
  match failures t with
  | [] => 0
  | _ :: _ => 1
  end.

Definition creations (t : Trace) : list ChecksCreate :=
  flat_map (fun e => match e with EChecksCreate r _ => [r] | _ => [] end) t.

Definition updates (t : Trace) : list ChecksUpdate :=
  flat_map (fun e => match e with EChecksUpdate r _ => [r] | _ => [] end) t.

Definition is_exec (e : Event) : Prop :=
  match e with
  | EExec _ _ => True
  | _ => False
  end.

(** The request [makePullRequest] lists the open pull requests with. *)
Definition list_request (W : World) (branch : jsstring) : PullsList :=
  {| pl_repo := context_repo W;
     state := js "open";
     pl_head := owner (context_repo W) ++ js ":" ++ branch |}.

Definition undefined_length : JsError :=
  TypeError (js "Cannot read property 'length' of undefined").

(** *** The run of check-migrations *)

(** The request [run] creates the check run with. *)
Definition create_request (W : World) : ChecksCreate :=
  {| cc_repo := context_repo W;
     cc_name := js "Migrations check";
     cc_head_sha := context_sha W;
     cc_status := js "in_progress" |}.

(** The response of a check run creation that GitHub numbered [id]. *)
Definition check_run (id : Z) : JsVal :=
  VObject [("data"%string, VObject [("id"%string, VNumber id)])].

(** The history of a run once the check run [id] is created. *)
Definition created (W : World) (id : Z) : Trace :=
  [EChecksCreate (create_request W) (inr id); ELog (js "Check run")].

(** [core.getInput("migrations-lock-command") || "migrationlocks"] *)
Definition locks_command (W : World) : jsstring :=
  match trim (input W (js "migrations-lock-command")) with
  | [] => js "migrationlocks"
  | c :: cs => c :: cs
  end.

(** What the first three steps of the [try] block find out. *)
Record Findings : Type := {
  isMissingMigrations : bool;
  makeMigrationsOutput : jsstring;
  hasUnappliedMigrations : bool;
  unappliedMigrations : list (jsstring * jsstring);
  unappliedMigrationDetails : list CheckMigrations.MigrationOutput
}.

Definition gather (W : World) (migrationLocksCommand : jsstring) (h : Trace)
  : (Outcome Findings * Trace)
    * list (Async CheckMigrations.MigrationOutput) :=
  match CheckMigrations.checkMissingMigrations W h with
  | (Thrown e, h1) => ((Thrown e, h1), [])
  | (Returned missing, h1) =>
  match CheckMigrations.getUnappliedMigrations W h1 with
  | (Thrown e, h2) => ((Thrown e, h2), [])
  | (Returned unapplied, h2) =>
  match Promise_all W (2 * length (snd unapplied))
          (map (CheckMigrations.getMigrationOutputCall migrationLocksCommand)
             (snd unapplied)) h2 with
  | ((Thrown e, h3), running) => ((Thrown e, h3), running)
  | ((Returned details, h3), _) =>
      ((Returned {| isMissingMigrations := fst missing;
                    makeMigrationsOutput := snd missing;
                    hasUnappliedMigrations := fst unapplied;
                    unappliedMigrations := snd unapplied;
                    unappliedMigrationDetails := details |}, h3), [])
  end end end.

Definition summary_of (f : Findings) : jsstring :=
  if isMissingMigrations f && hasUnappliedMigrations f
  then js "Missing migrations and " ++ of_nat (length (unappliedMigrations f))
         ++ js " new migrations"
  else if isMissingMigrations f
  then js "Missing migrations"
  else of_nat (length (unappliedMigrations f)) ++ js " new migrations".

(** The update the [try] block sends for the findings [f] at history [h]. *)
Definition result_update (W : World) (h : Trace) (id : Z) (f : Findings)
  : ChecksUpdate :=
  {| cu_repo := context_repo W;
     check_run_id := VNumber id;
     completed_at := now_iso W h;
     conclusion := if isMissingMigrations f then js "failure" else js "success";
     output :=
       {| title := js "Migrations check";
          summary := summary_of f;
          text := Some (CheckMigrations.renderDetailsMarkdown
                          (isMissingMigrations f) (makeMigrationsOutput f)
                          (hasUnappliedMigrations f)
                          (unappliedMigrationDetails f)) |} |}.

(** The update the [catch] block sends at history [h]. *)
Definition failure_update (W : World) (h : Trace) (id : Z) : ChecksUpdate :=
  {| cu_repo := context_repo W;
     check_run_id := VNumber id;
     completed_at := now_iso W h;
     conclusion := js "failure";
     output := {| title := js "Migrations check";
                  summary := js "Failed to check migrations.";
                  text := None |} |}.

(** How an awaited request ends. *)
Definition settle (a : JsError + unit) : Outcome unit :=
  match a with
  | inl e => Thrown e
  | inr _ => Returned tt
  end.

(** The history when the [catch] block has marked the action failed. *)
Definition caught (h : Trace) (e : JsError) : Trace :=
  h ++ [ELog (js "Something went wrong"); ESetFailed (message e)].

(** The GitHub client can be constructed with the token read. *)
Definition token_accepted (W : World) : Prop :=
  client_error W (trim (input W (js "github-token"))) = None.

(** The runs of check-migrations: the input is missing; the client
    cannot be constructed; the check run cannot be created; the findings
    are reported; the [try] block throws before its update, with calls
    of [getMigrationOutput] still running maybe, or with its update. *)
Inductive run_shape (W : World) : Outcome unit -> Trace -> Prop :=
| shape_no_token :
    input W (js "github-token") = [] ->
    run_shape W
      (Thrown (Error (js "Input required and not supplied: "
                        ++ js "github-token"))) []
| shape_no_client e :
    input W (js "github-token") <> [] ->
    client_error W (trim (input W (js "github-token"))) = Some e ->
    run_shape W (Thrown e) []
| shape_not_created e :
    input W (js "github-token") <> [] ->
    token_accepted W ->
    run_shape W (Returned tt)
      [EChecksCreate (create_request W) (inl e); ESetFailed (message e)]
| shape_reported id f h running :
    input W (js "github-token") <> [] ->
    token_accepted W ->
    gather W (locks_command W) (created W id) = ((Returned f, h), running) ->
    run_shape W (Returned tt)
      (h ++ [EChecksUpdate (result_update W h id f) (inr tt);
             ELog (js "Update result")])
| shape_failed id e h running :
    input W (js "github-token") <> [] ->
    token_accepted W ->
    gather W (locks_command W) (created W id) = ((Thrown e, h), running) ->
    let u := failure_update W (caught h e) id in
    let a := checks_update W (caught h e) u in
    run_shape W (settle a)
      (drain W (2 * length running) running
         (caught h e ++ [EChecksUpdate u a]))
| shape_update_failed id f h running e :
    input W (js "github-token") <> [] ->
    token_accepted W ->
    gather W (locks_command W) (created W id) = ((Returned f, h), running) ->
    let h1 := h ++ [EChecksUpdate (result_update W h id f) (inl e)] in
    let u := failure_update W (caught h1 e) id in
    let a := checks_update W (caught h1 e) u in
    run_shape W (settle a) (caught h1 e ++ [EChecksUpdate u a]).

(** *** The life of a check run *)

Inductive CheckState : Type :=
| Absent
| InProgress
| Completed (conclusion : jsstring).

(** The state machine [in_progress -> success | failure] of a check run,
    driven by the requests GitHub accepts; a request it answers with an
    error leaves the check run as it is.  [None]: a step the machine does
    not have (a second creation, another status, an update of no check
    run or of a completed one, another conclusion). *)
Definition check_step (s : CheckState) (e : Event) : option CheckState :=
  match e with
  | EChecksCreate r (inr _) =>
      match s with
      | Absent =>
          if js_eqb (cc_status r) (js "in_progress") then Some InProgress
          else None
      | _ => None
      end
  | EChecksUpdate u (inr _) =>
      match s with
      | InProgress =>
          if js_eqb (conclusion u) (js "success")
             || js_eqb (conclusion u) (js "failure")
          then Some (Completed (conclusion u))
          else None
      | _ => None
      end
  | _ => Some s
  end.

Fixpoint replay (s : CheckState) (t : Trace) : option CheckState :=
  match t with
  | [] => Some s
  | e :: t' =>
      match check_step s e with
      | Some s' => replay s' t'
      | None => None
      end
  end.

(** *** What a computation adds to the history *)

Definition appends {A} (P : Event -> Prop) (m : M A) : Prop :=
  forall h o h', m h = (o, h') -> exists d, h' = h ++ d /\ Forall P d.

Definition no_pull_request (e : Event) : Prop :=
  match e with
  | EPullsCreate _ _ => False
  | _ => True
  end.

(** *** The runs of the dump scripts *)

Definition dump_input_names : list string :=
  ["github-token"; "output-path"; "branch"; "docker-image"; "db-name";
   "db-user"; "db-host"; "db-pass"; "db-port"]%string.

Definition supplied (W : World) (names : list string) : Prop :=
  Forall (fun name => input W (js name) <> []) names.

Definition read (W : World) (name : string) : jsstring :=
  trim (input W (js name)).

(** The configuration [run] reads from the inputs. *)
Definition dump_config (W : World) : DumpDatabase.DumpConfig :=
  {| DumpDatabase.dbName := read W "db-name";
     DumpDatabase.dbHost := read W "db-host";
     DumpDatabase.dbPort := read W "db-port";
     DumpDatabase.dbUser := read W "db-user";
     DumpDatabase.dbPass := read W "db-pass";
     DumpDatabase.dockerImage := read W "docker-image";
     DumpDatabase.outputPath := read W "output-path" |}.

(** A project whose models and database are up to date. *)
Definition settled_world : World :=
  scripted
    [("github-token", "secret")]%string
    [("python -W ignore manage.py makemigrations --dry-run --check",
      exits 0 ("No changes detected" ++ nl) ["No changes detected"]);
     ("python -W ignore manage.py showmigrations --plan",
      exits 0 ("[X]  shop.0001_initial" ++ nl ++ "[X]  shop.0002_price" ++ nl)
        ["[X]  shop.0001_initial"; "[X]  shop.0002_price"])]%string
    [].

(** *** More worlds and trace readers *)

Definition migrate : ExecCall :=
  command "python" [js "manage.py"; js "migrate"].

(** The first of the inputs [names] that is not supplied. *)
Definition first_missing (W : World) (names : list string) : option string :=
  find (fun name => match input W (js name) with [] => true | _ => false end)
    names.

Definition pull_requests_listed (t : Trace) : list PullsList :=
  flat_map (fun e => match e with EPullsList r _ => [r] | _ => [] end) t.

Definition commands (t : Trace) : list ExecCall :=
  flat_map (fun e => match e with EExec c _ => [c] | _ => [] end) t.

Definition no_pulls_call (e : Event) : Prop :=
  match e with
  | EPullsList _ _ | EPullsCreate _ _ => False
  | _ => True
  end.

Definition word (s : jsstring) : Prop :=
  s <> [] /\ forallb is_word s = true.

(** The world of [project_world] with a GitHub token that is refused. *)
Definition unauthorized_world : World :=
  {| input := input project_world;
     client_error := client_error project_world;
     context_repo := context_repo project_world;
     context_sha := context_sha project_world;
     process := process project_world;
     exit_code_error := exit_code_error project_world;
     checks_create := fun _ _ => inl (Error (js "Bad credentials"));
     checks_update := fun _ _ => inl (Error (js "Bad credentials"));
     create_or_update_file := create_or_update_file project_world;
     pulls_list := pulls_list project_world;
     pulls_create := pulls_create project_world;
     now_iso := now_iso project_world;
     schedule := schedule project_world |}.

Definition cr : string := String (ascii_of_nat 13) EmptyString.

(** A project whose [showmigrations] prints carriage returns before the
    newlines. *)
Definition windows_world : World :=
  scripted [("github-token", "secret")]%string
    [("python -W ignore manage.py showmigrations --plan",
      exits 0 ("[X]  shop.0001_initial" ++ cr ++ nl
               ++ "[ ]  shop.0002_price" ++ cr ++ nl) [])]%string
    [].

(** A dump run whose [migrate] exits with code 1. *)
Definition broken_migrate_world : World :=
  scripted dump_inputs
    [("python manage.py migrate",
      exits 1 ("django.db.utils.OperationalError" ++ nl)
        ["django.db.utils.OperationalError"])]%string
    [].

(** A dump run in which [git hash-object] fails after the stash. *)
Definition unhashable_world : World :=
  scripted dump_inputs
    [("git stash -- db.sql", exits 0 "" []);
     ("test -f db.sql", exits 0 "" []);
     ("git hash-object db.sql", exits 128 "" []);
     ("git stash pop", exits 0 "" []);
     ("base64 -i db.sql", exits 0 ("LS0gZHVtcAo=" ++ nl) ["LS0gZHVtcAo="])]%string
    [].

(** A project without any migration: [showmigrations] prints an empty
    line only. *)
Definition blank_plan_world : World :=
  scripted [("github-token", "secret")]%string
    [("python -W ignore manage.py showmigrations --plan", exits 0 nl [])]%string
    [].

(** The world of [project_world] in which GitHub creates the check run
    and then refuses every update of it. *)
Definition flaky_world : World :=
  {| input := input project_world;
     client_error := client_error project_world;
     context_repo := context_repo project_world;
     context_sha := context_sha project_world;
     process := process project_world;
     exit_code_error := exit_code_error project_world;
     checks_create := checks_create project_world;
     checks_update := fun _ _ => inl (Error (js "Server Error"));
     create_or_update_file := create_or_update_file project_world;
     pulls_list := pulls_list project_world;
     pulls_create := pulls_create project_world;
     now_iso := now_iso project_world;
     schedule := schedule project_world |}.

(** A dump run with every input but [db-port]. *)
Definition portless_world : World :=
  scripted (removelast dump_inputs) [] [].

Definition createPullRequest_undefined : JsError :=
  ReferenceError (js "createPullRequest is not defined").

Definition applyMigrations_undefined : JsError :=
  ReferenceError (js "applyMigrations is not defined").

(** A dump run whose [pg_dump] container fails. *)
Definition broken_dump_world : World :=
  scripted dump_inputs
    [("python manage.py migrate", exits 0 "" []);
     ("docker run -v .:/github/workspace --workdir /github/workspace -e PGPASSWORD=pw --entrypoint pg_dump postgres:11 -h localhost -p 5432 -d shop -U postgres --no-owner -f db.sql",
      exits 1 "" []);
     ("git ls-files -mo db.sql", exits 0 ("db.sql" ++ nl) ["db.sql"])]%string
    [].

(** *** Reading a summary and a trimmed text *)

(** The number a string of decimal digits writes. *)
Definition digit_value (c : N) : option nat :=
  if ((48 <=? c) && (c <=? 57))%N then Some (N.to_nat (c - 48)) else None.

Fixpoint decimal_from (acc : nat) (s : jsstring) : option nat :=
  match s with
  | [] => Some acc
  | c :: s' =>
      match digit_value c with
      | Some d => decimal_from (10 * acc + d) s'
      | None => None
      end
  end.

Definition decimal_value (s : jsstring) : option nat :=
  match s with
  | [] => None
  | _ :: _ => decimal_from 0 s
  end.

(** [t] is [s] without the white space at its two ends. *)
Definition trimmed_of (s t : jsstring) : Prop :=
  exists before behind,
    s = before ++ t ++ behind /\
    forallb is_space before = true /\
    forallb is_space behind = true /\
    match t with [] => True | c :: _ => is_space c = false end /\
    match rev t with [] => True | c :: _ => is_space c = false end.

(** A project with two new migrations and nothing missing. *)
Definition two_new_world : World :=
  scripted
    [("github-token", "secret")]%string
    [("python -W ignore manage.py makemigrations --dry-run --check",
      exits 0 ("No changes detected" ++ nl) ["No changes detected"]);
     ("python -W ignore manage.py showmigrations --plan",
      exits 0 ("[X]  shop.0001_initial" ++ nl ++ "[ ]  shop.0002_price" ++ nl
               ++ "[ ]  shop.0003_stock" ++ nl)
        ["[X]  shop.0001_initial"; "[ ]  shop.0002_price";
         "[ ]  shop.0003_stock"]);
     ("python -W ignore manage.py sqlmigrate shop 0002_price",
      exits 0 ("BEGIN;" ++ nl ++ "COMMIT;" ++ nl) ["BEGIN;"; "COMMIT;"]);
     ("python -W ignore manage.py migrationlocks shop 0002_price",
      exits 1 "" []);
     ("python -W ignore manage.py sqlmigrate shop 0003_stock",
      exits 0 ("BEGIN;" ++ nl ++ "COMMIT;" ++ nl) ["BEGIN;"; "COMMIT;"]);
     ("python -W ignore manage.py migrationlocks shop 0003_stock",
      exits 1 "" [])]%string
    [].

(** The same project when [sqlmigrate] fails for the second new
    migration, and of the processes that run side by side the one
    started last ends first. *)
Definition racing_world : World :=
  let W :=
    scripted
      [("github-token", "secret")]%string
      [("python -W ignore manage.py makemigrations --dry-run --check",
        exits 0 ("No changes detected" ++ nl) ["No changes detected"]);
       ("python -W ignore manage.py showmigrations --plan",
        exits 0 ("[ ]  shop.0002_price" ++ nl ++ "[ ]  shop.0003_stock" ++ nl)
          ["[ ]  shop.0002_price"; "[ ]  shop.0003_stock"]);
       ("python -W ignore manage.py sqlmigrate shop 0002_price",
        exits 0 ("BEGIN;" ++ nl ++ "COMMIT;" ++ nl) ["BEGIN;"; "COMMIT;"]);
       ("python -W ignore manage.py migrationlocks shop 0002_price",
        exits 1 "" []);
       ("python -W ignore manage.py sqlmigrate shop 0003_stock",
        exits 1 "" [])]%string
      [] in
  {| input := input W;
     client_error := client_error W;
     context_repo := context_repo W;
     context_sha := context_sha W;
     process := process W;
     exit_code_error := exit_code_error W;
     checks_create := checks_create W;
     checks_update := checks_update W;
     create_or_update_file := create_or_update_file W;
     pulls_list := pulls_list W;
     pulls_create := pulls_create W;
     now_iso := now_iso W;
     schedule := fun _ calls => pred (length calls) |}.

(** A run with a token of white space only: the input is supplied, and
    the client refuses the empty token it is trimmed to. *)
Definition blank_token_world : World :=
  scripted [("github-token", " ")]%string [] [].

(** A first dump run: after the stash there is no dump file. *)
Definition new_dump_world : World :=
  scripted dump_inputs
    [("git stash -- db.sql", exits 0 "" []);
     ("test -f db.sql", exits 1 "" []);
     ("git stash pop", exits 0 "" []);
     ("base64 -i db.sql", exits 0 ("  LS0gZHVtcAo=" ++ nl) ["  LS0gZHVtcAo="])]%string
    [].

(** *** Calls that run side by side *)

(** The call [t] has at most [n] awaits left on every path, and resolves
    with a result that satisfies [P], if it resolves. *)
Inductive within {A} (P : A -> Prop) : nat -> Async A -> Prop :=
| within_resolved n a : P a -> within P n (Resolved a)
| within_rejected n e : within P n (Rejected e)
| within_awaiting n c k :
    (forall result, within P n (k result)) -> within P (S n) (Awaiting c k).

(** The calls [tasks], one for each of [xs], have at most [n] awaits
    left altogether, and the call for [x] resolves within [P x]. *)
Inductive budget {A B} (P : B -> A -> Prop)
  : nat -> list B -> list (Async A) -> Prop :=
| budget_nil n : budget P n [] []
| budget_cons a n x xs t ts :
    within (P x) a t -> budget P n xs ts ->
    budget P (a + n) (x :: xs) (t :: ts).

(** The result [d] is the one for the migration [m]. *)
Definition details_of (m : jsstring * jsstring)
    (d : CheckMigrations.MigrationOutput) : Prop :=
  (CheckMigrations.appLabel d, CheckMigrations.migrationName d) = m.

(** * Properties *)

Unset Implicit Arguments.

(** ** Strings and the regular expression *)

Example trim_strips_both_ends :
  trim (js ("  [X]  a.b" ++ nl ++ " ")) = js "[X]  a.b".
Proof. reflexivity. Qed.

Example split_keeps_empty_pieces :
  split newline (js ("a" ++ nl ++ nl ++ "b")) = [js "a"; js ""; js "b"] /\
  split newline (js "") = [js ""].
Proof. split; reflexivity. Qed.

Example new_migration_line :
  Regex.match_migration (js "[ ]  auth.0001_initial") =
  Some {| Regex.applied := js " "; Regex.appLabel := js "auth";
          Regex.migrationName := js "0001_initial" |}.
Proof. reflexivity. Qed.

(** The stdout is trimmed as a whole, not line by line: white space at
    the end of an inner line, a carriage return for one, is part of the
    line the regex sees. *)
Example inner_lines_are_not_trimmed :
  Regex.match_migration (js "[X] auth.0001_initial ") = None /\
  split newline (trim (js ("[X] a.b " ++ nl ++ "[ ] c.d" ++ nl)))
  = [js "[X] a.b "; js "[ ] c.d"].
Proof. split; reflexivity. Qed.

Example number_in_summary : of_nat 0 = js "0" /\ of_nat 12 = js "12".
Proof. split; reflexivity. Qed.

Lemma listen_concat (chunks : list jsstring) (acc : jsstring) :
  listen acc chunks = acc ++ stdout_of chunks.
Proof.
  unfold listen, stdout_of. revert acc.
  induction chunks as [|d ds IH]; intro acc; simpl.
  - now rewrite app_nil_r.
  - rewrite IH. now rewrite <- app_assoc.
Qed.

Lemma push_lines_app (printed lines : list jsstring) :
  push_lines lines printed = lines ++ printed.
Proof.
  unfold push_lines. revert lines.
  induction printed as [|l ls IH]; intro lines; simpl.
  - now rewrite app_nil_r.
  - rewrite IH. now rewrite <- app_assoc.
Qed.

Lemma js_eqb_eq (a b : jsstring) : js_eqb a b = true <-> a = b.
Proof.
  revert b. induction a as [|x a IH]; intros [|y b]; simpl;
    try (split; congruence).
  rewrite andb_true_iff, N.eqb_eq, IH. split.
  - now intros [-> ->].
  - intros [= -> ->]. auto.
Qed.

Lemma includes_In (lines : list jsstring) (x : jsstring) :
  includes lines x = true <-> In x lines.
Proof.
  unfold includes. rewrite existsb_exists. split.
  - intros (y & Hy & E). apply js_eqb_eq in E. now subst.
  - intro H. exists x. split; [assumption | now apply js_eqb_eq].
Qed.

Lemma span_spec (p : N -> bool) (s a b : jsstring) :
  span p s = (a, b) ->
  s = a ++ b /\ forallb p a = true /\
  match b with [] => True | c :: _ => p c = false end.
Proof.
  revert a b. induction s as [|c s IH]; intros a b; simpl.
  - intros [= <- <-]. auto.
  - destruct (p c) eqn:Pc.
    + destruct (span p s) as [a' b'] eqn:E. intros [= <- <-].
      destruct (IH _ _ eq_refl) as (-> & Ha & Hb).
      simpl. rewrite Pc. auto.
    + intros [= <- <-]. simpl. auto.
Qed.

Lemma span_app (p : N -> bool) (a b : jsstring) :
  forallb p a = true ->
  match b with [] => True | c :: _ => p c = false end ->
  span p (a ++ b) = (a, b).
Proof.
  intros Ha Hb. induction a as [|c a IH]; simpl in *.
  - destruct b as [|c b]; simpl; [reflexivity | now rewrite Hb].
  - apply andb_true_iff in Ha as [Pc Ha]. rewrite Pc, (IH Ha). reflexivity.
Qed.

Lemma space_not_word (c : N) : is_space c = true -> is_word c = false.
Proof.
  unfold is_space, is_word. intro H.
  apply not_true_is_false. intro K.
  repeat rewrite ?orb_true_iff, ?andb_true_iff, ?N.leb_le, ?N.eqb_eq in H.
  repeat rewrite ?orb_true_iff, ?andb_true_iff, ?N.leb_le, ?N.eqb_eq in K.
  lia.
Qed.

Lemma word_not_space (c : N) : is_word c = true -> is_space c = false.
Proof.
  intro H. destruct (is_space c) eqn:E; [|reflexivity].
  apply space_not_word in E. congruence.
Qed.

Module RegexFacts.
Import Regex.

Lemma lit_inv c s g : matches (Lit c) s g -> s = [c] /\ g = [].
Proof. inversion 1; auto. Qed.

Lemma class_inv p s g :
  matches (Class p) s g -> exists c, s = [c] /\ p c = true /\ g = [].
Proof. inversion 1; subst; eauto. Qed.

Lemma cat_inv r1 r2 s g :
  matches (Cat r1 r2) s g ->
  exists s1 s2 g1 g2,
    s = s1 ++ s2 /\ g = g1 ++ g2 /\ matches r1 s1 g1 /\ matches r2 s2 g2.
Proof. inversion 1; subst. repeat eexists; eauto. Qed.

Lemma group_inv name r s g :
  matches (Group name r) s g -> exists g', g = (name, s) :: g' /\ matches r s g'.
Proof. inversion 1; subst; eauto. Qed.

(** One or more characters of a class: a non-empty run of the class. *)
Lemma plus_class_inv p s g :
  matches (Plus (Class p)) s g -> s <> [] /\ forallb p s = true /\ g = [].
Proof.
  intro H. remember (Plus (Class p)) as r eqn:Er.
  induction H; try discriminate; injection Er as ->.
  - apply class_inv in H as (c & -> & Pc & ->). simpl. rewrite Pc.
    repeat split; congruence.
  - apply class_inv in H as (c & -> & Pc & ->).
    destruct (IHmatches2 eq_refl) as (_ & Hs & ->).
    simpl. rewrite Pc, Hs. repeat split; congruence.
Qed.

Lemma plus_class_intro p s :
  s <> [] -> forallb p s = true -> matches (Plus (Class p)) s [].
Proof.
  induction s as [|c s IH]; [congruence|]. intros _ H. simpl in H.
  apply andb_true_iff in H as [Pc Hs].
  destruct s as [|d s].
  - apply m_plus_last. now apply m_class.
  - change (c :: d :: s) with ([c] ++ d :: s).
    eapply m_plus_more; [now apply m_class | apply IH; [congruence | assumption]].
Qed.

Lemma migration_regex_inv line g :
  matches migration_regex line g ->
  exists c ws app name,
    line = migration_line c ws app name /\
    g = captures_of {| applied := [c]; appLabel := app; migrationName := name |} /\
    one_of (js "X ") c = true /\
    ws <> [] /\ forallb is_space ws = true /\
    app <> [] /\ forallb is_word app = true /\
    name <> [] /\ forallb is_word name = true.
Proof.
  unfold migration_regex. intro H.
  apply cat_inv in H as (s1 & t1 & g1 & h1 & -> & -> & H1 & H).
  apply lit_inv in H1 as [-> ->].
  apply cat_inv in H as (s2 & t2 & g2 & h2 & -> & -> & H2 & H).
  apply group_inv in H2 as (g2' & -> & H2).
  apply class_inv in H2 as (c & -> & Hc & ->).
  apply cat_inv in H as (s3 & t3 & g3 & h3 & -> & -> & H3 & H).
  apply lit_inv in H3 as [-> ->].
  apply cat_inv in H as (ws & t4 & g4 & h4 & -> & -> & H4 & H).
  apply plus_class_inv in H4 as (Hws & Fws & ->).
  apply cat_inv in H as (app & t5 & g5 & h5 & -> & -> & H5 & H).
  apply group_inv in H5 as (g5' & -> & H5).
  apply plus_class_inv in H5 as (Happ & Fapp & ->).
  apply cat_inv in H as (s6 & name & g6 & h6 & -> & -> & H6 & H).
  apply lit_inv in H6 as [-> ->].
  apply group_inv in H as (g7 & -> & H).
  apply plus_class_inv in H as (Hname & Fname & ->).
  exists c, ws, app, name. repeat split; assumption.
Qed.

Lemma migration_regex_intro c ws app name :
  one_of (js "X ") c = true ->
  ws <> [] -> forallb is_space ws = true ->
  app <> [] -> forallb is_word app = true ->
  name <> [] -> forallb is_word name = true ->
  matches migration_regex (migration_line c ws app name)
    (captures_of {| applied := [c]; appLabel := app; migrationName := name |}).
Proof.
  intros Hc Hws Fws Happ Fapp Hname Fname.
  unfold migration_regex, migration_line, captures_of. simpl.
  apply (m_cat (s1 := [91%N]) (g1 := [])); [constructor|].
  apply (m_cat (s1 := [c]) (g1 := [("applied"%string, [c])]));
    [apply m_group; now apply m_class|].
  apply (m_cat (s1 := [93%N]) (g1 := [])); [constructor|].
  apply (m_cat (g1 := [])); [now apply plus_class_intro|].
  apply (m_cat (g1 := [("appLabel"%string, app)]));
    [apply m_group; now apply plus_class_intro|].
  apply (m_cat (s1 := [46%N]) (g1 := [])); [constructor|].
  apply m_group. now apply plus_class_intro.
Qed.

Lemma match_migration_line c ws app name :
  one_of (js "X ") c = true ->
  ws <> [] -> forallb is_space ws = true ->
  app <> [] -> forallb is_word app = true ->
  name <> [] -> forallb is_word name = true ->
  match_migration (migration_line c ws app name) =
  Some {| applied := [c]; appLabel := app; migrationName := name |}.
Proof.
  intros Hc Hws Fws Happ Fapp Hname Fname.
  unfold migration_line, match_migration. rewrite Hc.
  rewrite (span_app is_space ws (app ++ 46%N :: name) Fws).
  2:{ destruct app as [|a app]; [congruence|]. simpl in *.
      apply andb_true_iff in Fapp as [Fa _]. now apply word_not_space. }
  destruct ws as [|w ws]; [congruence|].
  rewrite (span_app is_word app (46%N :: name) Fapp eq_refl).
  destruct app as [|a app]; [congruence|].
  rewrite <- (app_nil_r name) at 1.
  rewrite (span_app is_word name [] Fname I).
  destruct name as [|n name]; [congruence|]. reflexivity.
Qed.

Lemma match_migration_shape line g :
  match_migration line = Some g ->
  exists c ws,
    line = migration_line c ws (appLabel g) (migrationName g) /\
    applied g = [c] /\
    one_of (js "X ") c = true /\
    ws <> [] /\ forallb is_space ws = true /\
    appLabel g <> [] /\ forallb is_word (appLabel g) = true /\
    migrationName g <> [] /\ forallb is_word (migrationName g) = true.
Proof.
  unfold match_migration. intro H.
  destruct line as [|b0 line]; [discriminate|].
  destruct b0 as [|b0]; [discriminate|].
  destruct (Pos.eq_dec b0 91) as [->|Nb0].
  2:{ exfalso. do 7 (destruct b0 as [b0|b0|]; try discriminate); congruence. }
  destruct line as [|c line]; [discriminate|].
  destruct line as [|b1 line]; [discriminate|].
  destruct b1 as [|b1]; [discriminate|].
  destruct (Pos.eq_dec b1 93) as [->|Nb1].
  2:{ exfalso. do 7 (destruct b1 as [b1|b1|]; try discriminate); congruence. }
  destruct (one_of (js "X ") c) eqn:Hc; [|discriminate].
  destruct (span is_space line) as [ws rest1] eqn:E1.
  destruct ws as [|w ws]; [discriminate|].
  destruct (span is_word rest1) as [app rest2'] eqn:E2.
  destruct app as [|a app]; [discriminate|].
  destruct rest2' as [|d rest2]; [discriminate|].
  destruct d as [|d]; [discriminate|].
  destruct (Pos.eq_dec d 46) as [->|Nd].
  2:{ exfalso. do 6 (destruct d as [d|d|]; try discriminate); congruence. }
  destruct (span is_word rest2) as [name rest3] eqn:E3.
  destruct name as [|n name]; [discriminate|].
  destruct rest3; [|discriminate].
  injection H as <-. simpl.
  apply span_spec in E1 as (-> & F1 & _).
  apply span_spec in E2 as (-> & F2 & _).
  apply span_spec in E3 as (-> & F3 & _).
  exists c, (w :: ws). unfold migration_line.
  rewrite app_nil_r.
  repeat split; try assumption; congruence.
Qed.

(** The matcher the script's regex compiles to agrees with the meaning of
    the regex: it finds a match exactly when there is one, and the groups
    are the only ones possible. *)
Theorem match_migration_correct line g :
  match_migration line = Some g <-> matches migration_regex line (captures_of g).
Proof.
  split.
  - intro H. apply match_migration_shape in H
      as (c & ws & -> & Ec & Hc & Hws & Fws & Happ & Fapp & Hname & Fname).
    destruct g as [ap al mn]. simpl in *. subst ap.
    now apply migration_regex_intro.
  - intro H. apply migration_regex_inv in H
      as (c & ws & app & name & -> & Eg & Hc & Hws & Fws & Happ & Fapp & Hname & Fname).
    destruct g as [ap al mn]. unfold captures_of in Eg. simpl in Eg.
    injection Eg as -> -> ->. now apply match_migration_line.
Qed.

Lemma match_migration_complete line caps :
  matches migration_regex line caps ->
  exists g, caps = captures_of g /\ match_migration line = Some g.
Proof.
  intro H. pose proof H as H0. apply migration_regex_inv in H
    as (c & ws & app & name & -> & -> & _).
  eexists. split; [reflexivity|]. now apply match_migration_correct.
Qed.

Lemma match_migration_none line :
  match_migration line = None <-> no_match line.
Proof.
  split.
  - intros E caps H. apply match_migration_complete in H as (g & _ & K). congruence.
  - intro H. destruct (match_migration line) as [g|] eqn:E; [|reflexivity].
    apply match_migration_correct in E. now apply H in E.
Qed.

Lemma applied_X_or_space line g :
  match_migration line = Some g -> applied g = js "X" \/ applied g = js " ".
Proof.
  intro H. apply match_migration_shape in H as (c & ws & _ & -> & Hc & _).
  unfold one_of in Hc. simpl in Hc.
  repeat rewrite ?orb_true_iff, ?N.eqb_eq in Hc.
  destruct Hc as [->|[->|F]]; auto; discriminate.
Qed.

End RegexFacts.

(** ** Running the monad *)

Arguments js : simpl never.

Lemma bind_returned {A B} (m : M A) (k : A -> M B) h b h' :
  bind m k h = (Returned b, h') ->
  exists a h1, m h = (Returned a, h1) /\ k a h1 = (Returned b, h').
Proof.
  unfold bind. destruct (m h) as [[a|e] h1]; [eauto | discriminate].
Qed.

Lemma bind_thrown {A B} (m : M A) (k : A -> M B) h e h' :
  bind m k h = (Thrown e, h') ->
  m h = (Thrown e, h') \/
  exists a h1, m h = (Returned a, h1) /\ k a h1 = (Thrown e, h').
Proof.
  unfold bind. destruct (m h) as [[a|e0] h1]; [eauto|].
  intros [= -> ->]. now left.
Qed.

Lemma bind_step {A B} {m : M A} (k : A -> M B) {h a h1} :
  m h = (Returned a, h1) -> bind m k h = k a h1.
Proof. unfold bind. now intros ->. Qed.

Lemma bind_fail {A B} {m : M A} (k : A -> M B) {h e h1} :
  m h = (Thrown e, h1) -> bind m k h = (Thrown e, h1).
Proof. unfold bind. now intros ->. Qed.

Lemma exec_exited W c h n out ls :
  process W h c = Exited n out ls ->
  exec W c h =
  (if (n =? 0)%Z || ignoreReturnCode c
   then Returned {| code := n; chunks := out; stdlines := ls |}
   else Thrown (exit_code_error W c n),
   h ++ [EExec c (Exited n out ls)]).
Proof.
  unfold exec. intros ->.
  now destruct ((n =? 0)%Z || ignoreReturnCode c).
Qed.

Lemma exec_inv W c h o h' :
  exec W c h = (o, h') ->
  h' = h ++ [EExec c (process W h c)] /\
  match o with
  | Returned r =>
      process W h c = Exited (code r) (chunks r) (stdlines r) /\
      ((code r = 0)%Z \/ ignoreReturnCode c = true)
  | Thrown e =>
      process W h c = NotRun e \/
      exists n out ls, process W h c = Exited n out ls /\ n <> 0%Z /\
                       ignoreReturnCode c = false /\ e = exit_code_error W c n
  end.
Proof.
  unfold exec. destruct (process W h c) as [n out ls|e].
  - destruct (n =? 0)%Z eqn:En; simpl.
    + intros [= <- <-]. apply Z.eqb_eq in En. simpl. auto.
    + destruct (ignoreReturnCode c) eqn:Ei; intros [= <- <-]; simpl.
      * auto.
      * split; [reflexivity|]. right. exists n, out, ls.
        apply Z.eqb_neq in En. auto.
  - intros [= <- <-]. auto.
Qed.

(** ** The line parser of [getUnappliedMigrations] *)

Section Parser.

Import CheckMigrations.

Lemma classify_matched line g h :
  Regex.match_migration line = Some g ->
  classify line h =
  (Returned (if js_eqb (Regex.applied g) (js " ")
             then Some (Regex.appLabel g, Regex.migrationName g) else None), h).
Proof. unfold classify. now intros ->. Qed.

Lemma classify_unmatched line h :
  Regex.match_migration line = None ->
  classify line h =
  (Thrown (Error (js "Line " ++ line ++ js " did not match regex")), h).
Proof. unfold classify. now intros ->. Qed.

Lemma mapM_classify_all lines pairs h :
  unapplied_of lines pairs ->
  exists classified,
    mapM classify lines h = (Returned classified, h) /\
    non_null classified = pairs.
Proof.
  induction 1 as [|line app name rest pairs Hm _ IH|line app name rest pairs Hm _ IH].
  - exists []. auto.
  - destruct IH as (cl & Ecl & Enn).
    apply RegexFacts.match_migration_complete in Hm as (g & Eg & Em).
    destruct g as [ap al mn]. injection Eg as <- <- <-.
    exists (Some (app, name) :: cl). split.
    + simpl. rewrite (bind_step _ (classify_matched _ _ h Em)).
      rewrite (bind_step _ Ecl). reflexivity.
    + simpl. now rewrite Enn.
  - destruct IH as (cl & Ecl & Enn).
    apply RegexFacts.match_migration_complete in Hm as (g & Eg & Em).
    destruct g as [ap al mn]. injection Eg as <- <- <-.
    exists (None :: cl). split.
    + simpl. rewrite (bind_step _ (classify_matched _ _ h Em)).
      rewrite (bind_step _ Ecl). reflexivity.
    + simpl. now rewrite Enn.
Qed.

Lemma mapM_classify_stops lines line h :
  first_no_match lines line ->
  mapM classify lines h =
  (Thrown (Error (js "Line " ++ line ++ js " did not match regex")), h).
Proof.
  intros (before & after & -> & Hno & Hall).
  induction Hall as [|l before [caps Hl] _ IH]; simpl.
  - apply bind_fail, classify_unmatched.
    now apply RegexFacts.match_migration_none.
  - apply RegexFacts.match_migration_complete in Hl as (g & _ & Em).
    rewrite (bind_step _ (classify_matched _ _ h Em)).
    now rewrite (bind_fail _ IH).
Qed.

(** Every output either classifies completely or has a first line that
    does not match. *)
Lemma lines_classified_or_not (lines : list jsstring) :
  (exists pairs, unapplied_of lines pairs) \/
  (exists line, first_no_match lines line).
Proof.
  induction lines as [|l lines IH].
  - left. exists []. constructor.
  - destruct (Regex.match_migration l) as [g|] eqn:Em.
    + pose proof (RegexFacts.applied_X_or_space _ _ Em) as Ha.
      apply RegexFacts.match_migration_correct in Em.
      destruct g as [ap al mn]. unfold Regex.captures_of in Em. simpl in *.
      destruct IH as [[pairs Hp]|[line (before & after & -> & Hno & Hall)]].
      * left. destruct Ha as [->| ->].
        -- exists pairs. eapply unapplied_done; eauto.
        -- exists ((al, mn) :: pairs). eapply unapplied_new; eauto.
      * right. exists line, (l :: before), after. repeat split; eauto.
    + right. exists l, [], lines. repeat split; auto.
      now apply RegexFacts.match_migration_none.
Qed.

(** The two cases exclude each other. *)
Lemma classified_has_no_mismatch lines pairs line :
  unapplied_of lines pairs -> first_no_match lines line -> False.
Proof.
  intros Hu Hf.
  destruct (mapM_classify_all _ _ [] Hu) as (cl & E1 & _).
  rewrite (mapM_classify_stops _ _ [] Hf) in E1. discriminate.
Qed.

End Parser.

Lemma exec_ignoring W c h n out ls :
  ignoreReturnCode c = true ->
  process W h c = Exited n out ls ->
  exec W c h = (Returned {| code := n; chunks := out; stdlines := ls |},
                after h c (Exited n out ls)).
Proof.
  intros Hi Hp. rewrite (exec_exited _ _ _ _ _ _ Hp), Hi.
  now rewrite orb_true_r.
Qed.

Lemma exec_ok W c h out ls :
  process W h c = Exited 0 out ls ->
  exec W c h = (Returned {| code := 0; chunks := out; stdlines := ls |},
                after h c (Exited 0 out ls)).
Proof. intro Hp. now rewrite (exec_exited _ _ _ _ _ _ Hp). Qed.

(** ** The functions of check-migrations *)

Section CheckMigrationsFunctions.

Import CheckMigrations.

Lemma getUnappliedMigrations_exited W h n out ls :
  process W h showmigrations = Exited n out ls ->
  getUnappliedMigrations W h =
  let h1 := after h showmigrations (Exited n out ls) in
  if (n =? 0)%Z
  then
    match mapM classify (split newline (trim (stdout_of out))) h1 with
    | (Returned classified, h2) =>
        (Returned ((0 <? length (non_null classified))%nat,
                   non_null classified), h2)
    | (Thrown e, h2) => (Thrown e, h2)
    end
  else (Thrown plan_failed, h1).
Proof.
  intro Hp. unfold getUnappliedMigrations.
  rewrite (bind_step _ (exec_ignoring W showmigrations h n out ls eq_refl Hp)).
  cbn [code chunks]. rewrite listen_concat. cbn [app].
  destruct (n =? 0)%Z; reflexivity.
Qed.

(** C2 (amended).  When [showmigrations --plan] exits with code 0,
    [getUnappliedMigrations] classifies each line of its trimmed stdout
    with the regex [^\[([X ])\]\s+(\w+)\.(\w+)$]: if every line matches it
    returns exactly the (app label, migration name) pairs of the lines
    whose bracket holds a space, in the order of the lines, the lines with
    an [X] left out; if some line does not match it throws, naming the
    first such line; and one of the two is always the case.  When the
    command exits with another code the function throws whatever the
    stdout. *)
Theorem getUnappliedMigrations_parses W h n out ls :
  process W h showmigrations = Exited n out ls ->
  let lines := split newline (trim (stdout_of out)) in
  let result := fst (getUnappliedMigrations W h) in
  (n <> 0%Z -> result = Thrown plan_failed) /\
  (n = 0%Z ->
   (forall pairs, unapplied_of lines pairs ->
      exists flag, result = Returned (flag, pairs)) /\
   (forall line, first_no_match lines line ->
      result =
      Thrown (Error (js "Line " ++ line ++ js " did not match regex"))) /\
   ((exists pairs, unapplied_of lines pairs) \/
    (exists line, first_no_match lines line))).
Proof.
  intros Hp lines result. subst result.
  rewrite (getUnappliedMigrations_exited W h n out ls Hp). cbv zeta.
  fold lines. split.
  - intro Hn. apply Z.eqb_neq in Hn. now rewrite Hn.
  - intros ->. rewrite Z.eqb_refl. repeat split.
    + intros pairs Hu.
      destruct (mapM_classify_all lines pairs
                  (after h showmigrations (Exited 0 out ls)) Hu)
        as (cl & -> & <-).
      eexists. reflexivity.
    + intros line Hf. now rewrite (mapM_classify_stops lines line _ Hf).
    + apply lines_classified_or_not.
Qed.

Lemma price_line_matches :
  Regex.matches Regex.migration_regex (js "[ ]  shop.0002_price")
    [("applied"%string, js " "); ("appLabel"%string, js "shop");
     ("migrationName"%string, js "0002_price")].
Proof.
  apply (RegexFacts.match_migration_correct _
           {| Regex.applied := js " "; Regex.appLabel := js "shop";
              Regex.migrationName := js "0002_price" |}).
  reflexivity.
Defined.

Lemma initial_line_matches :
  Regex.matches Regex.migration_regex (js "[X]  shop.0001_initial")
    [("applied"%string, js "X"); ("appLabel"%string, js "shop");
     ("migrationName"%string, js "0001_initial")].
Proof.
  apply (RegexFacts.match_migration_correct _
           {| Regex.applied := js "X"; Regex.appLabel := js "shop";
              Regex.migrationName := js "0001_initial" |}).
  reflexivity.
Defined.

Lemma getUnappliedMigrations_parses_witness :
  exists flag,
    fst (getUnappliedMigrations project_world []) =
    Returned (flag, [(js "shop", js "0002_price")]).
Proof.
  refine (proj1 (proj2 (getUnappliedMigrations_parses project_world [] 0 _ _
                          eq_refl) eq_refl) _ _).
  change (unapplied_of [js "[X]  shop.0001_initial"; js "[ ]  shop.0002_price"]
            [(js "shop", js "0002_price")]).
  eapply unapplied_done; [exact initial_line_matches|].
  eapply unapplied_new; [exact price_line_matches|].
  constructor.
Defined.

(** C2 as stated fails: [showmigrations] prints a plan whose only line
    matches the regex with a space in the bracket, and exits with code 1;
    the pairs of the claim are [("shop", "0002_price")], and the function
    throws instead of returning them. *)
Lemma getUnappliedMigrations_throws_on_exit_code :
  let out := [js ("[ ]  shop.0002_price" ++ nl)] in
  let lines := split newline (trim (stdout_of out)) in
  process failing_plan_world [] showmigrations
    = Exited 1 out [js "[ ]  shop.0002_price"] /\
  unapplied_of lines [(js "shop", js "0002_price")] /\
  fst (getUnappliedMigrations failing_plan_world []) = Thrown plan_failed /\
  ~ (exists flag, fst (getUnappliedMigrations failing_plan_world [])
                  = Returned (flag, [(js "shop", js "0002_price")])).
Proof.
  cbv zeta. split; [reflexivity|]. split; [|split].
  - change (unapplied_of [js "[ ]  shop.0002_price"] [(js "shop", js "0002_price")]).
    eapply unapplied_new; [exact price_line_matches | constructor].
  - reflexivity.
  - intros [flag H]. vm_compute in H. discriminate.
Qed.

(** C9.  Whenever [getUnappliedMigrations] returns, its first component
    is [true] exactly when the list in its second component is not empty;
    and whatever the exit code of [makemigrations --dry-run --check],
    [checkMissingMigrations] returns (it does not throw), its first
    component being [true] exactly when that exit code is not 0. *)
Theorem flags_reflect_results W h :
  (forall flag pairs h',
     getUnappliedMigrations W h = (Returned (flag, pairs), h') ->
     (flag = true <-> pairs <> [])) /\
  (forall n out ls,
     process W h makemigrations = Exited n out ls ->
     exists flag,
       fst (checkMissingMigrations W h) = Returned (flag, trim (stdout_of out)) /\
       (flag = true <-> n <> 0%Z)).
Proof.
  split.
  - intros flag pairs h'. unfold getUnappliedMigrations, bind.
    destruct (exec W _ h) as [[r|e] h1]; [|discriminate].
    destruct (negb (code r =? 0)%Z); [discriminate|].
    destruct (mapM classify _ h1) as [[cl|e] h2]; [|discriminate].
    unfold ret. intros [= <- <- <-].
    destruct (non_null cl); simpl; split; intro; try congruence; try discriminate.
    reflexivity.
  - intros n out ls Hp. unfold checkMissingMigrations.
    rewrite (bind_step _ (exec_ignoring W makemigrations h n out ls eq_refl Hp)).
    cbn [code chunks]. rewrite listen_concat. cbn [app fst ret].
    eexists. split; [reflexivity|].
    rewrite negb_true_iff. apply Z.eqb_neq.
Qed.

Lemma flags_reflect_results_witness :
  (true = true <-> [(js "shop", js "0002_price")] <> []) /\
  exists flag,
    fst (checkMissingMigrations project_world []) =
    Returned (flag, js "Migrations for 'shop':") /\
    (flag = true <-> 1%Z <> 0%Z).
Proof.
  split.
  - exact (proj1 (flags_reflect_results project_world [])
             true [(js "shop", js "0002_price")] _ eq_refl).
  - exact (proj2 (flags_reflect_results project_world []) 1%Z _ _ eq_refl).
Defined.

(** C4.  For a migration (appLabel, migrationName), [getMigrationOutput]
    throws when [sqlmigrate appLabel migrationName] exits with a non-zero
    code; when it exits with 0 the function returns the record of that
    migration reference, the stdout of [sqlmigrate] as [sql], and as
    [locks] the stdout of the lock-analysis command when that one exits
    with 0, [null] when it exits with another code. *)
Theorem getMigrationOutput_record W h cmd app name n1 out1 ls1 :
  process W h (sqlmigrate app name) = Exited n1 out1 ls1 ->
  let h1 := after h (sqlmigrate app name) (Exited n1 out1 ls1) in
  let result := fst (getMigrationOutput W cmd (app, name) h) in
  (n1 <> 0%Z -> result = Thrown (Error (js "Failed to run sqlmigrate"))) /\
  (n1 = 0%Z ->
   forall n2 out2 ls2,
     process W h1 (lock_analysis cmd app name) = Exited n2 out2 ls2 ->
     result =
     Returned {| appLabel := app; migrationName := name;
                 sql := stdout_of out1;
                 locks := if (n2 =? 0)%Z then Some (stdout_of out2)
                          else None |}).
Proof.
  intros Hp h1 result. subst result. unfold getMigrationOutput.
  fold (sqlmigrate app name).
  rewrite (bind_step _ (exec_ignoring W (sqlmigrate app name) h n1 out1 ls1 eq_refl Hp)).
  cbn [code chunks]. split.
  - intro Hn. apply Z.eqb_neq in Hn. now rewrite Hn.
  - intros -> n2 out2 ls2 Hq. rewrite Z.eqb_refl. cbn [negb].
    fold (lock_analysis cmd app name). fold h1.
    rewrite (bind_step _ (exec_ignoring W (lock_analysis cmd app name) h1 n2 out2 ls2 eq_refl Hq)).
    cbn [code chunks fst ret]. now rewrite !listen_concat.
Qed.

Lemma getMigrationOutput_record_witness :
  fst (getMigrationOutput project_world (js "migrationlocks")
         (js "shop", js "0002_price") []) =
  Returned {| appLabel := js "shop"; migrationName := js "0002_price";
              sql := js ("BEGIN;" ++ nl ++ "COMMIT;" ++ nl);
              locks := None |}.
Proof.
  exact (proj2 (getMigrationOutput_record project_world []
                  (js "migrationlocks") (js "shop") (js "0002_price")
                  0%Z _ _ eq_refl)
           eq_refl 1%Z _ _ eq_refl).
Defined.

End CheckMigrationsFunctions.

(** ** The functions of the dump scripts *)

Section DumpFunctions.

Lemma dbDumpHasChanged_listed W h p out ls :
  process W h (ls_files p) = Exited 0 out ls ->
  DumpCheck.dbDumpHasChanged W p h =
  (Returned (includes ls p), after h (ls_files p) (Exited 0 out ls)).
Proof.
  intro Hp. unfold DumpCheck.dbDumpHasChanged. fold (ls_files p).
  rewrite (bind_step _ (exec_ok W (ls_files p) h out ls Hp)).
  cbn [stdlines]. now rewrite push_lines_app.
Qed.

Lemma dumpDatabase_listed W h cfg out0 ls0 out ls :
  process W h (pg_dump cfg) = Exited 0 out0 ls0 ->
  let h1 := after h (pg_dump cfg) (Exited 0 out0 ls0) in
  process W h1 (ls_files (DumpDatabase.outputPath cfg)) = Exited 0 out ls ->
  DumpDatabase.dumpDatabase W cfg h =
  (Returned (includes ls (DumpDatabase.outputPath cfg)),
   after h1 (ls_files (DumpDatabase.outputPath cfg)) (Exited 0 out ls)).
Proof.
  intros Hd h1 Hp. unfold DumpDatabase.dumpDatabase.
  change (command "docker" _) with (pg_dump cfg).
  rewrite (bind_step _ (exec_ok W (pg_dump cfg) h out0 ls0 Hd)).
  fold (ls_files (DumpDatabase.outputPath cfg)).
  rewrite (bind_step _ (exec_ok W _ _ out ls Hp)).
  cbn [stdlines]. now rewrite push_lines_app.
Qed.

(** C5.  When [git ls-files -mo <outputPath>] succeeds, the dump-changed
    detection (of both dump scripts; in [dumpDatabase] after a successful
    [pg_dump]) returns [true] if and only if the output path is one of the
    lines that command printed, and so [false] when it printed none. *)
Theorem dump_changed_iff_listed W h :
  (forall p out ls,
     process W h (ls_files p) = Exited 0 out ls ->
     exists changed,
       fst (DumpCheck.dbDumpHasChanged W p h) = Returned changed /\
       (changed = true <-> In p ls) /\
       (ls = [] -> changed = false)) /\
  (forall cfg out0 ls0 out ls,
     process W h (pg_dump cfg) = Exited 0 out0 ls0 ->
     process W (after h (pg_dump cfg) (Exited 0 out0 ls0))
       (ls_files (DumpDatabase.outputPath cfg)) = Exited 0 out ls ->
     exists changed,
       fst (DumpDatabase.dumpDatabase W cfg h) = Returned changed /\
       (changed = true <-> In (DumpDatabase.outputPath cfg) ls) /\
       (ls = [] -> changed = false)).
Proof.
  split.
  - intros p out ls Hp. rewrite (dbDumpHasChanged_listed W h p out ls Hp).
    eexists. split; [reflexivity|]. split; [apply includes_In|].
    now intros ->.
  - intros cfg out0 ls0 out ls Hd Hp.
    rewrite (dumpDatabase_listed W h cfg out0 ls0 out ls Hd Hp).
    eexists. split; [reflexivity|]. split; [apply includes_In|].
    now intros ->.
Qed.

Lemma dump_changed_iff_listed_witness :
  (exists changed,
     fst (DumpCheck.dbDumpHasChanged changed_dump_world (js "db.sql") [])
       = Returned changed /\
     (changed = true <-> In (js "db.sql") [js "db.sql"]) /\
     ([js "db.sql"] = [] -> changed = false)) /\
  (exists changed,
     fst (DumpDatabase.dumpDatabase changed_dump_world dump_cfg [])
       = Returned changed /\
     (changed = true <-> In (js "db.sql") [js "db.sql"]) /\
     ([js "db.sql"] = [] -> changed = false)).
Proof.
  split.
  - exact (proj1 (dump_changed_iff_listed changed_dump_world [])
             (js "db.sql") _ _ eq_refl).
  - exact (proj2 (dump_changed_iff_listed changed_dump_world [])
             dump_cfg _ _ _ _ eq_refl eq_refl).
Defined.

(** [trim] removes the white space at the two ends and nothing else. *)
Lemma drop_while_spec p s :
  exists before,
    s = before ++ drop_while p s /\ forallb p before = true /\
    match drop_while p s with [] => True | c :: _ => p c = false end.
Proof.
  induction s as [|c s (before & E & F & H)]; simpl.
  - exists []. auto.
  - destruct (p c) eqn:Ec.
    + exists (c :: before). simpl. rewrite Ec, F. repeat split; congruence.
    + exists []. auto.
Qed.

Lemma drop_while_all p before s :
  forallb p before = true -> drop_while p (before ++ s) = drop_while p s.
Proof.
  induction before as [|c before IH]; simpl; [reflexivity|].
  intro H. apply andb_prop in H as [-> H]. auto.
Qed.

Lemma forallb_rev {A} (p : A -> bool) l :
  forallb p (rev l) = forallb p l.
Proof.
  induction l as [|a l IH]; simpl; [reflexivity|].
  rewrite forallb_app, IH. simpl. rewrite andb_true_r. apply andb_comm.
Qed.

Lemma trim_spec s : trimmed_of s (trim s).
Proof.
  unfold trim.
  destruct (drop_while_spec is_space s) as (before & E1 & F1 & H1).
  destruct (drop_while_spec is_space (rev (drop_while is_space s)))
    as (behind & E2 & F2 & H2).
  set (s1 := drop_while is_space s) in *.
  set (s2 := drop_while is_space (rev s1)) in *.
  assert (E : s1 = rev s2 ++ rev behind).
  { rewrite <- rev_app_distr, <- E2. symmetry. apply rev_involutive. }
  exists before, (rev behind). split; [|split; [|split; [|split]]].
  - now rewrite <- E.
  - exact F1.
  - now rewrite forallb_rev.
  - rewrite E in H1. destruct (rev s2); [exact I | exact H1].
  - now rewrite rev_involutive.
Qed.

Lemma trimmed_of_unique s t : trimmed_of s t -> t = trim s.
Proof.
  intros (before & behind & -> & F1 & F2 & H1 & H2). unfold trim.
  rewrite (drop_while_all _ _ _ F1).
  destruct t as [|c t].
  - simpl. rewrite <- (app_nil_r behind), (drop_while_all _ _ _ F2).
    reflexivity.
  - cbn [app drop_while]. rewrite H1.
    change (c :: t ++ behind) with ((c :: t) ++ behind).
    rewrite rev_app_distr, drop_while_all by now rewrite forallb_rev.
    destruct (rev (c :: t)) as [|d r] eqn:Er.
    + apply (f_equal (@length _)) in Er. rewrite length_rev in Er.
      discriminate.
    + cbn [drop_while]. rewrite H2, <- Er. symmetry. apply rev_involutive.
Qed.

(** C6.  After [git stash -- <outputPath>], [commitFile] tests whether
    the file exists.  When the later commands succeed it sends one
    create-or-update request for the path whose content is the stdout of
    [base64 -i <outputPath>] without the white space at its two ends; the
    request carries as [sha] the (first) line printed by
    [git hash-object <outputPath>] on the stashed tree when the test
    exits with 0, and no [sha] ([undefined]) when the test exits with
    another code, in which case [git hash-object] is not run. *)
Theorem commitFile_request W h p branch out1 ls1 n out2 ls2 :
  process W h (stash p) = Exited 0 out1 ls1 ->
  let h1 := after h (stash p) (Exited 0 out1 ls1) in
  process W h1 (test_f p) = Exited n out2 ls2 ->
  let h2 := after h1 (test_f p) (Exited n out2 ls2) in
  (n <> 0%Z ->
   forall out4 ls4 out5 ls5,
     process W h2 stash_pop = Exited 0 out4 ls4 ->
     let h4 := after h2 stash_pop (Exited 0 out4 ls4) in
     process W h4 (base64 p) = Exited 0 out5 ls5 ->
     let h5 := after h4 (base64 p) (Exited 0 out5 ls5) in
     let request := file_request W p (stdout_of out5) None in
     snd (DumpDatabase.commitFile W p branch h) =
       h5 ++ [ECreateOrUpdateFile request (create_or_update_file W h5 request)] /\
     path request = p /\
     trimmed_of (stdout_of out5) (content request) /\
     sha request = None) /\
  (n = 0%Z ->
   forall out3 ls3 out4 ls4 out5 ls5,
     process W h2 (hash_object p) = Exited 0 out3 ls3 ->
     let h3 := after h2 (hash_object p) (Exited 0 out3 ls3) in
     process W h3 stash_pop = Exited 0 out4 ls4 ->
     let h4 := after h3 stash_pop (Exited 0 out4 ls4) in
     process W h4 (base64 p) = Exited 0 out5 ls5 ->
     let h5 := after h4 (base64 p) (Exited 0 out5 ls5) in
     let request := file_request W p (stdout_of out5) (nth_error ls3 0) in
     snd (DumpDatabase.commitFile W p branch h) =
       h5 ++ [ECreateOrUpdateFile request (create_or_update_file W h5 request)] /\
     path request = p /\
     trimmed_of (stdout_of out5) (content request) /\
     sha request = nth_error ls3 0).
Proof.
  intros H1 h1 H2 h2.
  assert (Start : forall k : option jsstring -> M unit,
    DumpDatabase.commitFile W p branch h =
    bind (if (n =? 0)%Z
          then bind (exec W (hash_object p))
                 (fun hashed => ret (nth_error (push_lines [] (stdlines hashed)) 0))
          else ret None)
      (fun blob =>
         bind (exec W stash_pop) (fun _ =>
         bind (exec W (base64 p)) (fun encoded =>
         bind (octokit_repos_createOrUpdateFile W
                 (file_request W p (listen (js "") (chunks encoded)) blob))
           (fun response => bind (await response) (fun _ => ret tt))))) h2).
  { intros _. unfold DumpDatabase.commitFile.
    fold (stash p) (test_f p) (hash_object p) stash_pop (base64 p).
    rewrite (bind_step _ (exec_ok W (stash p) h out1 ls1 H1)). fold h1.
    rewrite (bind_step _ (exec_ignoring W (test_f p) h1 n out2 ls2 eq_refl H2)).
    reflexivity. }
  specialize (Start (fun _ => ret tt)). rewrite Start. clear Start.
  split.
  - intros Hn out4 ls4 out5 ls5 H4 h4 H5 h5 request.
    split; [|split; [reflexivity | split; [apply trim_spec | reflexivity]]].
    apply Z.eqb_neq in Hn. rewrite Hn.
    rewrite (bind_step _ (eq_refl : ret None h2 = (Returned None, h2))).
    rewrite (bind_step _ (exec_ok W stash_pop h2 out4 ls4 H4)). fold h4.
    rewrite (bind_step _ (exec_ok W (base64 p) h4 out5 ls5 H5)). fold h5.
    cbn [chunks]. rewrite listen_concat.
    change (js "" ++ stdout_of out5) with (stdout_of out5).
    fold h5. fold request.
    unfold bind, octokit_repos_createOrUpdateFile. cbv zeta.
    destruct (create_or_update_file W h5 request); reflexivity.
  - intros -> out3 ls3 out4 ls4 out5 ls5 H3 h3 H4 h4 H5 h5 request.
    split; [|split; [reflexivity | split; [apply trim_spec | reflexivity]]].
    rewrite Z.eqb_refl.
    rewrite (bind_step _
               (bind_step _ (exec_ok W (hash_object p) h2 out3 ls3 H3))).
    fold h3. cbn [stdlines ret]. rewrite push_lines_app. cbn [app].
    rewrite (bind_step _ (exec_ok W stash_pop h3 out4 ls4 H4)). fold h4.
    rewrite (bind_step _ (exec_ok W (base64 p) h4 out5 ls5 H5)). fold h5.
    cbn [chunks]. rewrite listen_concat.
    change (js "" ++ stdout_of out5) with (stdout_of out5).
    fold h5. fold request.
    unfold bind, octokit_repos_createOrUpdateFile. cbv zeta.
    destruct (create_or_update_file W h5 request); reflexivity.
Qed.

Lemma commitFile_request_witness :
  (exists h5,
     snd (DumpDatabase.commitFile changed_dump_world (js "db.sql")
            (js "update-db") []) =
     h5 ++ [ECreateOrUpdateFile
              {| f_repo := context_repo changed_dump_world;
                 path := js "db.sql";
                 f_message := js "Update database template";
                 content := js "LS0gZHVtcAo=";
                 sha := Some (js "8b137891791fe96927ad78e64b0aad7bded08bdc") |}
              (inr tt)] /\
     trimmed_of (js ("LS0gZHVtcAo=" ++ nl)) (js "LS0gZHVtcAo=")) /\
  (exists h5,
     snd (DumpDatabase.commitFile new_dump_world (js "db.sql")
            (js "update-db") []) =
     h5 ++ [ECreateOrUpdateFile
              {| f_repo := context_repo new_dump_world;
                 path := js "db.sql";
                 f_message := js "Update database template";
                 content := js "LS0gZHVtcAo=";
                 sha := None |}
              (inr tt)] /\
     trimmed_of (js ("  LS0gZHVtcAo=" ++ nl)) (js "LS0gZHVtcAo=")).
Proof.
  split.
  - eexists.
    pose proof
      (proj2 (commitFile_request changed_dump_world [] (js "db.sql")
                (js "update-db") _ _ 0%Z _ _ eq_refl eq_refl)
         eq_refl _ _ _ _ _ _ eq_refl eq_refl eq_refl) as (E & _ & T & _).
    split; [exact E | exact T].
  - eexists.
    assert (N : 1%Z <> 0%Z) by discriminate.
    pose proof
      (proj1 (commitFile_request new_dump_world [] (js "db.sql")
                (js "update-db") _ _ 1%Z _ _ eq_refl eq_refl)
         N _ _ _ _ eq_refl eq_refl) as (E & _ & T & _).
    split; [exact E | exact T].
Defined.

(** The request of a first dump carries no [sha]; the white space around
    the base64 text is gone, the text is kept. *)
Example first_dump_is_created :
  files_committed
    (snd (DumpDatabase.commitFile new_dump_world (js "db.sql")
            (js "update-db") []))
  = [{| f_repo := context_repo new_dump_world;
        path := js "db.sql";
        f_message := js "Update database template";
        content := js "LS0gZHVtcAo=";
        sha := None |}] /\
  trim (js ("  LS0gZHVtcAo=" ++ nl)) = js "LS0gZHVtcAo=" /\
  trim (js "LS0g ZHVt") = js "LS0g ZHVt".
Proof. repeat split. Qed.

(** [makePullRequest] reads [data.length] of the promise that
    [octokit.pulls.list] returns, not of its response: it throws a
    [TypeError] once the list request is sent, whatever the answer. *)
Lemma makePullRequest_always_throws W branch h :
  let h1 := h ++ [ELog (js "Creating pull request")] in
  DumpDatabase.makePullRequest W branch h =
  (Thrown undefined_length,
   h1 ++ [EPullsList (list_request W branch)
            (pulls_list W h1 (list_request W branch))]).
Proof. reflexivity. Qed.

(** C7 (the code departs from it).  No pull request of the branch is
    open: [makePullRequest] sends the list request, which answers with
    the empty list, and then throws a [TypeError] without creating a pull
    request. *)
Theorem makePullRequest_creates_nothing_when_none_open :
  let h1 := [ELog (js "Creating pull request")] in
  let request := list_request changed_dump_world (js "update-db") in
  pulls_list changed_dump_world h1 request = inr [] /\
  DumpDatabase.makePullRequest changed_dump_world (js "update-db") [] =
    (Thrown undefined_length, h1 ++ [EPullsList request (inr [])]) /\
  pull_requests_created
    (snd (DumpDatabase.makePullRequest changed_dump_world (js "update-db") []))
  = [].
Proof. repeat split. Qed.

(** The name [run] calls is bound in neither dump script. *)
Lemma createPullRequest_not_declared :
  ~ In "createPullRequest"%string DumpDatabase.declared /\
  ~ In "createPullRequest"%string DumpCheck.declared /\
  ~ In "applyMigrations"%string DumpCheck.declared.
Proof.
  repeat split; intro H; simpl in H;
    repeat (destruct H as [H|H]; [discriminate|]); exact H.
Qed.

(** C1 (the code departs from it).  Every command of the run succeeds and
    [git ls-files] lists the dump: the dump is detected as changed and
    the file is committed, but the call of the unbound name
    [createPullRequest] throws a [ReferenceError]; the run is marked
    failed with its message and no pull request is opened. *)
Theorem changed_dump_opens_no_pull_request :
  let t := snd (DumpDatabase.run changed_dump_world []) in
  fst (DumpDatabase.dumpDatabase changed_dump_world dump_cfg []) = Returned true /\
  files_committed t =
    [file_request changed_dump_world (js "db.sql") (js ("LS0gZHVtcAo=" ++ nl))
       (Some (js "8b137891791fe96927ad78e64b0aad7bded08bdc"))] /\
  pull_requests_created t = [] /\
  failures t = [js "createPullRequest is not defined"].
Proof. cbv zeta. repeat split; vm_compute; reflexivity. Qed.

(** The second dump script fails before anything else: its [run] calls
    [applyMigrations], which the file does not define. *)
Lemma second_script_stops_at_applyMigrations :
  DumpCheck.run changed_dump_world [] =
  (Returned tt,
   [ELog (js "Something went wrong");
    ESetFailed (js "applyMigrations is not defined")]).
Proof. vm_compute. reflexivity. Qed.

End DumpFunctions.

(** ** What the computations add to the history *)

Section Appends.

Context {P : Event -> Prop}.

Lemma appends_ret {A} (a : A) : appends P (ret a).
Proof. intros h o h' [= <- <-]. exists []. now rewrite app_nil_r. Qed.

Lemma appends_throw {A} (e : JsError) : appends P (@throw A e).
Proof. intros h o h' [= <- <-]. exists []. now rewrite app_nil_r. Qed.

Lemma appends_emit (e : Event) : P e -> appends P (emit e).
Proof. intros Pe h o h' [= <- <-]. exists [e]. auto. Qed.

Lemma appends_bind {A B} (m : M A) (k : A -> M B) :
  appends P m -> (forall a, appends P (k a)) -> appends P (bind m k).
Proof.
  intros Hm Hk h o h'. unfold bind.
  destruct (m h) as [[a|e] h1] eqn:Em;
    destruct (Hm _ _ _ Em) as (d1 & -> & F1).
  - intro Ek. destruct (Hk a _ _ _ Ek) as (d2 & -> & F2).
    exists (d1 ++ d2). rewrite app_assoc. split; [reflexivity|].
    apply Forall_app. auto.
  - intros [= <- <-]. eauto.
Qed.

Lemma appends_try_catch {A} (m : M A) (k : JsError -> M A) :
  appends P m -> (forall e, appends P (k e)) -> appends P (try_catch m k).
Proof.
  intros Hm Hk h o h'. unfold try_catch.
  destruct (m h) as [[a|e] h1] eqn:Em;
    destruct (Hm _ _ _ Em) as (d1 & -> & F1).
  - intros [= <- <-]. eauto.
  - intro Ek. destruct (Hk e _ _ _ Ek) as (d2 & -> & F2).
    exists (d1 ++ d2). rewrite app_assoc. split; [reflexivity|].
    apply Forall_app. auto.
Qed.

Lemma appends_mapM {A B} (f : A -> M B) (l : list A) :
  (forall a, appends P (f a)) -> appends P (mapM f l).
Proof.
  intro Hf. induction l as [|a l IH]; simpl.
  - apply appends_ret.
  - apply appends_bind; [apply Hf|]. intro b.
    apply appends_bind; [apply IH|]. intro bs. apply appends_ret.
Qed.

Lemma appends_exec W c :
  (forall o, P (EExec c o)) -> appends P (exec W c).
Proof.
  intros Pc h o h' E. apply exec_inv in E as [-> _].
  exists [EExec c (process W h c)]. auto.
Qed.

Lemma appends_getInput W name required : appends P (getInput W name required).
Proof.
  unfold getInput.
  destruct (required && _); [apply appends_throw | apply appends_ret].
Qed.

Lemma appends_new_GitHub W token : appends P (new_GitHub W token).
Proof.
  unfold new_GitHub.
  destruct (client_error W token); [apply appends_throw | apply appends_ret].
Qed.

Lemma appends_member v name : appends P (member v name).
Proof.
  destruct v; simpl; try apply appends_ret. apply appends_throw.
Qed.

Lemma appends_await v : appends P (await v).
Proof.
  destruct v as [| | | | |[e|x]]; simpl;
    try apply appends_ret. apply appends_throw.
Qed.

Lemma appends_identifier {A} (scope : list (string * A)) name :
  appends P (identifier scope name).
Proof.
  unfold identifier. destruct (find _ scope);
    [apply appends_ret | apply appends_throw].
Qed.

End Appends.

Ltac appends_step :=
  first
    [ apply appends_ret
    | apply appends_throw
    | apply appends_getInput
    | apply appends_new_GitHub
    | apply appends_member
    | apply appends_await
    | apply appends_identifier
    | apply appends_exec; intro; exact I
    | apply appends_emit; exact I
    | apply appends_bind; [|intro]
    | apply appends_try_catch; [|intro]
    | apply appends_mapM; intro ].

Ltac appends_auto :=
  repeat first
    [ appends_step
    | match goal with
      | |- appends _ (if ?b then _ else _) => destruct b
      | |- appends _ (let '(_, _) := ?p in _) => destruct p
      | |- appends _ (match ?p with (_, _) => _ end) => destruct p
      end ].

Lemma checkMissingMigrations_quiet W :
  appends is_exec (CheckMigrations.checkMissingMigrations W).
Proof. unfold CheckMigrations.checkMissingMigrations. appends_auto. Qed.

Lemma classify_quiet line : appends is_exec (CheckMigrations.classify line).
Proof.
  unfold CheckMigrations.classify.
  destruct (Regex.match_migration line); appends_auto.
Qed.

Lemma getUnappliedMigrations_quiet W :
  appends is_exec (CheckMigrations.getUnappliedMigrations W).
Proof.
  unfold CheckMigrations.getUnappliedMigrations. appends_auto.
  apply classify_quiet.
Qed.

Lemma getMigrationOutput_quiet W cmd migration :
  appends is_exec (CheckMigrations.getMigrationOutput W cmd migration).
Proof.
  unfold CheckMigrations.getMigrationOutput. destruct migration.
  appends_auto.
Qed.

(** ** Calls that run side by side *)

Section SideBySide.

Context {A : Type}.
Implicit Types tasks : list (Async A).

Lemma step_appends W tasks h tasks' h' :
  step W tasks h = (tasks', h') ->
  exists d, h' = h ++ d /\ Forall is_exec d.
Proof.
  unfold step. destruct (nth_error _ _) as [c|].
  - intros [= <- <-]. eexists. split; [reflexivity|].
    repeat constructor.
  - intros [= <- <-]. exists []. now rewrite app_nil_r.
Qed.

Lemma Promise_all_appends W n tasks h o h' running :
  Promise_all W n tasks h = ((o, h'), running) ->
  exists d, h' = h ++ d /\ Forall is_exec d.
Proof.
  revert tasks h. induction n as [|n IH]; intros tasks h; simpl.
  - destruct (first_rejected tasks); intros [= <- <- <-];
      exists []; now rewrite app_nil_r.
  - destruct (first_rejected tasks);
      [intros [= <- <- <-]; exists []; now rewrite app_nil_r|].
    destruct (pending tasks);
      [intros [= <- <- <-]; exists []; now rewrite app_nil_r|].
    destruct (step W tasks h) as [tasks' h1] eqn:Es. intro H.
    destruct (step_appends W _ _ _ _ Es) as (d1 & -> & F1).
    destruct (IH _ _ H) as (d2 & -> & F2).
    exists (d1 ++ d2). rewrite app_assoc. split; [reflexivity|].
    apply Forall_app. auto.
Qed.

Lemma drain_appends W n tasks h :
  exists d, drain W n tasks h = h ++ d /\ Forall is_exec d.
Proof.
  revert tasks h. induction n as [|n IH]; intros tasks h; simpl.
  - exists []. now rewrite app_nil_r.
  - destruct (pending tasks); [exists []; now rewrite app_nil_r|].
    destruct (step W tasks h) as [tasks' h1] eqn:Es.
    destruct (step_appends W _ _ _ _ Es) as (d1 & -> & F1).
    destruct (IH tasks' (h ++ d1)) as (d2 & -> & F2).
    exists (d1 ++ d2). rewrite app_assoc. split; [reflexivity|].
    apply Forall_app. auto.
Qed.

(** What [Promise.all] resolves with: it resolves only when no call
    waits any more and none has thrown. *)
Lemma Promise_all_returned W n tasks h results h' running :
  Promise_all W n tasks h = ((Returned results, h'), running) ->
  running = [].
Proof.
  revert tasks h. induction n as [|n IH]; intros tasks h; simpl.
  - destruct (first_rejected tasks); [discriminate|]. now intros [= _ _ <-].
  - destruct (first_rejected tasks); [discriminate|].
    destruct (pending tasks); [now intros [= _ _ <-]|].
    destruct (step W tasks h) as [tasks' h1]. apply IH.
Qed.

(** The awaits the calls have left bound the steps of [Promise.all]. *)
Context {B : Type} (P : B -> A -> Prop).

Lemma within_more Q n m (t : Async A) :
  within Q n t -> (n <= m)%nat -> within Q m t.
Proof.
  intro H. revert m. induction H as [n a Ha|n e|n c k _ IH]; intros m Hm.
  - now constructor.
  - constructor.
  - destruct m as [|m]; [lia|]. constructor. intro r. apply IH. lia.
Qed.

Lemma budget_more n m (xs : list B) tasks :
  budget P n xs tasks -> (n <= m)%nat -> budget P m xs tasks.
Proof.
  intro H. revert m. induction H as [n|a n x xs t ts Ht _ IH]; intros m Hm.
  - constructor.
  - replace m with (a + (m - a))%nat by lia.
    constructor; [exact Ht | apply IH; lia].
Qed.

Lemma budget_length n (xs : list B) tasks :
  budget P n xs tasks -> length tasks = length xs.
Proof. induction 1; simpl; congruence. Qed.

Lemma resume_within W Q n c k o :
  (forall result, within Q n (k result)) -> within Q n (@resume W A c k o).
Proof.
  intro H. unfold resume. destruct o as [code out ls|e]; [|constructor].
  destruct (_ || _); [apply H | constructor].
Qed.

Lemma resume_nth_budget W n (xs : list B) tasks i o :
  budget P n xs tasks ->
  (i < length (pending tasks))%nat ->
  exists n', n = S n' /\ budget P n' xs (resume_nth W i o tasks).
Proof.
  intro H. revert i. induction H as [n|a n x xs t ts Ht Hts IH]; intros i Hi.
  - simpl in Hi. lia.
  - destruct Ht as [a r Hr|a e|a c k Hk]; cbn [resume_nth].
    + destruct (IH i Hi) as (n' & -> & Hb). exists (a + n')%nat.
      split; [lia|]. constructor; [now constructor | exact Hb].
    + destruct (IH i Hi) as (n' & -> & Hb). exists (a + n')%nat.
      split; [lia|]. constructor; [constructor | exact Hb].
    + destruct i as [|i].
      * exists (a + n)%nat. split; [reflexivity|].
        constructor; [now apply resume_within | assumption].
      * simpl in Hi. apply PeanoNat.lt_S_n in Hi.
        destruct (IH i Hi) as (n' & -> & Hb). exists (S a + n')%nat.
        split; [lia|]. constructor; [now constructor | exact Hb].
Qed.

Lemma step_budget W n (xs : list B) tasks h tasks' h' :
  budget P n xs tasks ->
  pending tasks <> [] ->
  step W tasks h = (tasks', h') ->
  exists n', n = S n' /\ budget P n' xs tasks'.
Proof.
  intros Hb Hp. unfold step.
  set (calls := pending tasks) in *.
  set (i := if (schedule W h calls <? length calls)%nat
            then schedule W h calls else O).
  assert (Hi : (i < length calls)%nat).
  { subst i. destruct (Nat.ltb_spec (schedule W h calls) (length calls));
      [assumption|]. destruct calls; [congruence | simpl; lia]. }
  destruct (nth_error calls i) as [c|] eqn:En.
  - intros [= <- <-]. now apply resume_nth_budget.
  - apply nth_error_None in En. lia.
Qed.

Lemma budget_settled n (xs : list B) tasks :
  budget P n xs tasks ->
  first_rejected tasks = None -> pending tasks = [] ->
  Forall2 P xs (resolved tasks).
Proof.
  induction 1 as [n|a n x xs t ts Ht _ IH]; [constructor|].
  destruct Ht as [a r Hr|a e|a c k Hk]; simpl; intros Hf Hp.
  - constructor; auto.
  - discriminate.
  - discriminate.
Qed.

(** [Promise.all] resolves with one result for each call, in the order
    of the calls. *)
Lemma Promise_all_in_order W n (xs : list B) tasks h results h' running :
  budget P n xs tasks ->
  Promise_all W n tasks h = ((Returned results, h'), running) ->
  Forall2 P xs results.
Proof.
  revert tasks h. induction n as [|n IH]; intros tasks h Hb; simpl.
  - destruct (first_rejected tasks) eqn:Ef; [discriminate|].
    destruct (pending tasks) eqn:Ep.
    + intros [= <- _ _]. exact (budget_settled _ _ _ Hb Ef Ep).
    + destruct (step W tasks h) as [tasks' h1] eqn:Es.
      destruct (step_budget W _ _ _ _ _ _ Hb ltac:(congruence) Es)
        as (n' & K & _).
      discriminate K.
  - destruct (first_rejected tasks) eqn:Ef; [discriminate|].
    destruct (pending tasks) eqn:Ep.
    + intros [= <- _ _]. exact (budget_settled _ _ _ Hb Ef Ep).
    + destruct (step W tasks h) as [tasks' h1] eqn:Es.
      destruct (step_budget W _ _ _ _ _ _ Hb ltac:(congruence) Es)
        as (n' & [= <-] & Hb').
      now apply IH.
Qed.

(** The awaits left are fuel enough: more changes nothing. *)
Lemma Promise_all_fuel W n m (xs : list B) tasks h :
  budget P n xs tasks -> (n <= m)%nat ->
  Promise_all W m tasks h = Promise_all W n tasks h.
Proof.
  revert m tasks h.
  induction n as [|n IH]; intros m tasks h Hb Hm.
  - destruct m as [|m]; [reflexivity|]. simpl.
    destruct (first_rejected tasks); [reflexivity|].
    destruct (pending tasks) eqn:Ep; [reflexivity|].
    destruct (step W tasks h) as [tasks' h1] eqn:Es.
    destruct (step_budget W _ _ _ _ _ _ Hb ltac:(congruence) Es)
      as (n' & K & _).
    discriminate K.
  - destruct m as [|m]; [lia|]. simpl.
    destruct (first_rejected tasks); [reflexivity|].
    destruct (pending tasks) eqn:Ep; [reflexivity|].
    destruct (step W tasks h) as [tasks' h1] eqn:Es.
    destruct (step_budget W _ _ _ _ _ _ Hb ltac:(congruence) Es)
      as (n' & [= <-] & Hb').
    apply IH; [assumption | lia].
Qed.

Lemma drain_fuel W n m (xs : list B) tasks h :
  budget P n xs tasks -> (n <= m)%nat ->
  drain W m tasks h = drain W n tasks h.
Proof.
  revert m tasks h.
  induction n as [|n IH]; intros m tasks h Hb Hm.
  - destruct m as [|m]; [reflexivity|]. simpl.
    destruct (pending tasks) eqn:Ep; [reflexivity|].
    destruct (step W tasks h) as [tasks' h1] eqn:Es.
    destruct (step_budget W _ _ _ _ _ _ Hb ltac:(congruence) Es)
      as (n' & K & _).
    discriminate K.
  - destruct m as [|m]; [lia|]. simpl.
    destruct (pending tasks) eqn:Ep; [reflexivity|].
    destruct (step W tasks h) as [tasks' h1] eqn:Es.
    destruct (step_budget W _ _ _ _ _ _ Hb ltac:(congruence) Es)
      as (n' & [= <-] & Hb').
    apply IH; [assumption | lia].
Qed.

(** The calls a rejected [Promise.all] leaves are the calls it was
    given, some further on. *)
Lemma Promise_all_leaves W n (xs : list B) tasks h e h' running :
  budget P n xs tasks ->
  Promise_all W n tasks h = ((Thrown e, h'), running) ->
  budget P n xs running.
Proof.
  revert tasks h. induction n as [|n IH]; intros tasks h Hb; simpl.
  - destruct (first_rejected tasks); [now intros [= _ _ <-]|].
    destruct (pending tasks); discriminate.
  - destruct (first_rejected tasks); [now intros [= _ _ <-]|].
    destruct (pending tasks) eqn:Ep; [discriminate|].
    destruct (step W tasks h) as [tasks' h1] eqn:Es.
    destruct (step_budget W _ _ _ _ _ _ Hb ltac:(congruence) Es)
      as (n' & [= <-] & Hb').
    intro H. apply (budget_more n); [|lia]. exact (IH _ _ Hb' H).
Qed.

End SideBySide.

(** The calls of [getMigrationOutput] that [run] starts: two awaits
    each, and each resolves with the details of its own migration. *)
Lemma getMigrationOutputCall_within cmd migration :
  within (details_of migration) 2
    (CheckMigrations.getMigrationOutputCall cmd migration).
Proof.
  destruct migration as [label name]. unfold CheckMigrations.getMigrationOutputCall.
  constructor. intro r. destruct (negb _); constructor.
  intro r'. constructor. reflexivity.
Qed.

Lemma calls_budget cmd migrations :
  budget details_of (2 * length migrations) migrations
    (map (CheckMigrations.getMigrationOutputCall cmd) migrations).
Proof.
  induction migrations as [|m ms IH]; [constructor|].
  replace (2 * length (m :: ms))%nat with (2 + 2 * length ms)%nat
    by (simpl; lia).
  cbn [map]. constructor; [apply getMigrationOutputCall_within | exact IH].
Qed.

Lemma Forall2_details_of migrations details :
  Forall2 details_of migrations details ->
  map (fun d => (CheckMigrations.appLabel d, CheckMigrations.migrationName d))
    details = migrations.
Proof. induction 1 as [|m d ms ds H _ IH]; simpl; congruence. Qed.

(** [Promise.all] over the calls of [getMigrationOutput]: it resolves
    with the details of every unapplied migration, in their order; the
    fuel [run] gives it, and the fuel it gives the calls left by a
    rejection, are enough. *)
Lemma details_follow_the_migrations W cmd migrations h :
  let tasks := map (CheckMigrations.getMigrationOutputCall cmd) migrations in
  let n := (2 * length migrations)%nat in
  (forall details h' running,
     Promise_all W n tasks h = ((Returned details, h'), running) ->
     map (fun d => (CheckMigrations.appLabel d, CheckMigrations.migrationName d))
       details = migrations) /\
  (forall m, (n <= m)%nat -> Promise_all W m tasks h = Promise_all W n tasks h) /\
  (forall e h' running t m,
     Promise_all W n tasks h = ((Thrown e, h'), running) ->
     (2 * length running <= m)%nat ->
     drain W m running t = drain W (2 * length running) running t).
Proof.
  cbv zeta. pose proof (calls_budget cmd migrations) as Hb.
  split; [|split].
  - intros details h' running H. apply Forall2_details_of.
    exact (Promise_all_in_order details_of W _ _ _ _ _ _ _ Hb H).
  - intros m Hm. exact (Promise_all_fuel details_of W _ _ _ _ _ Hb Hm).
  - intros e h' running t m H Hm.
    pose proof (Promise_all_leaves details_of W _ _ _ _ _ _ _ Hb H) as Hr.
    rewrite (budget_length details_of _ _ _ Hr).
    rewrite (budget_length details_of _ _ _ Hr) in Hm.
    exact (drain_fuel details_of W _ _ _ _ _ Hr Hm).
Qed.

(** A call of [getMigrationOutput] on its own is the function of the
    source, whatever the world schedules. *)
Lemma resume_manage {A} W arguments (k : Finished -> Async A) n out ls :
  resume W (CheckMigrations.manage arguments) k (Exited n out ls) =
  k {| code := n; chunks := out; stdlines := ls |}.
Proof.
  unfold resume.
  change (ignoreReturnCode (CheckMigrations.manage arguments)) with true.
  now rewrite orb_true_r.
Qed.

Lemma exec_manage W arguments h n out ls :
  process W h (CheckMigrations.manage arguments) = Exited n out ls ->
  exec W (CheckMigrations.manage arguments) h =
  (Returned {| code := n; chunks := out; stdlines := ls |},
   h ++ [EExec (CheckMigrations.manage arguments) (Exited n out ls)]).
Proof.
  intro H. unfold exec. rewrite H.
  change (ignoreReturnCode (CheckMigrations.manage arguments)) with true.
  now rewrite orb_true_r.
Qed.

Lemma getMigrationOutput_alone W cmd migration h :
  fst (Promise_all W 2 [CheckMigrations.getMigrationOutputCall cmd migration] h) =
  match CheckMigrations.getMigrationOutput W cmd migration h with
  | (Returned details, h') => (Returned [details], h')
  | (Thrown e, h') => (Thrown e, h')
  end.
Proof.
  destruct migration as [label name].
  unfold CheckMigrations.getMigrationOutput, CheckMigrations.getMigrationOutputCall.
  assert (Pick : forall t c,
            (if (schedule W t [c] <? 1)%nat then schedule W t [c] else O) = O).
  { intros t c. destruct (Nat.ltb_spec (schedule W t [c]) 1); lia. }
  cbn [Promise_all first_rejected pending flat_map app].
  unfold step at 1. cbn [pending flat_map app length]. rewrite Pick.
  cbn [nth_error resume_nth].
  destruct (process W h _) as [n out ls|e] eqn:E1.
  - rewrite resume_manage, (bind_step _ (exec_manage W _ h n out ls E1)).
    cbn [code chunks].
    destruct (n =? 0)%Z; cbn [negb]; [|reflexivity].
    cbn [first_rejected pending flat_map app].
    unfold step. cbn [pending flat_map app length]. rewrite Pick.
    cbn [nth_error resume_nth].
    match goal with
    | |- context [process W ?t (CheckMigrations.manage [cmd; label; name])] =>
        destruct (process W t (CheckMigrations.manage [cmd; label; name]))
          as [n' out' ls'|e'] eqn:E2
    end.
    + rewrite resume_manage, (bind_step _ (exec_manage W _ _ n' out' ls' E2)).
      reflexivity.
    + unfold bind, exec. rewrite E2. reflexivity.
  - unfold bind, exec. rewrite E1. reflexivity.
Qed.

Lemma gather_quiet W cmd h o h' running :
  gather W cmd h = ((o, h'), running) ->
  exists d, h' = h ++ d /\ Forall is_exec d.
Proof.
  unfold gather.
  destruct (CheckMigrations.checkMissingMigrations W h) as [[missing|e] h1] eqn:E1;
    destruct (checkMissingMigrations_quiet W _ _ _ E1) as (d1 & -> & F1);
    [|intros [= <- <- <-]; eauto].
  destruct (CheckMigrations.getUnappliedMigrations W (h ++ d1))
    as [[unapplied|e] h2] eqn:E2;
    destruct (getUnappliedMigrations_quiet W _ _ _ E2) as (d2 & -> & F2);
    [|intros [= <- <- <-]; exists (d1 ++ d2); rewrite app_assoc;
      split; [reflexivity | apply Forall_app; auto]].
  destruct (Promise_all W _ _ _) as [[r h3] running'] eqn:E3.
  destruct (Promise_all_appends W _ _ _ _ _ _ E3) as (d3 & -> & F3).
  assert (F : Forall is_exec (d1 ++ d2 ++ d3))
    by (repeat (apply Forall_app; split); assumption).
  destruct r; intros [= <- <- <-]; exists (d1 ++ d2 ++ d3);
    (split; [now rewrite !app_assoc | exact F]).
Qed.

(** ** The run of check-migrations *)

Section CheckRun.

Import CheckMigrations.

Lemma check_split W cmd checkRun h :
  check W cmd checkRun h =
  match gather W cmd h with
  | ((Returned f, h1), _) =>
      (report W checkRun (isMissingMigrations f) (makeMigrationsOutput f)
         (hasUnappliedMigrations f) (unappliedMigrations f)
         (unappliedMigrationDetails f) h1, [])
  | ((Thrown e, h1), running) => ((Thrown e, h1), running)
  end.
Proof.
  unfold check, gather.
  destruct (checkMissingMigrations W h) as [[[missing text]|e] h1]; [|reflexivity].
  destruct (getUnappliedMigrations W h1) as [[[flag pairs]|e] h2]; [|reflexivity].
  cbn [fst snd].
  destruct (Promise_all W _ _ h2) as [[[details|e] h3] running]; reflexivity.
Qed.

Lemma report_run W id f h1 :
  report W (check_run id) (isMissingMigrations f) (makeMigrationsOutput f)
    (hasUnappliedMigrations f) (unappliedMigrations f)
    (unappliedMigrationDetails f) h1 =
  let u := result_update W h1 id f in
  match checks_update W h1 u with
  | inl e => (Thrown e, h1 ++ [EChecksUpdate u (inl e)])
  | inr r =>
      (Returned tt,
       h1 ++ [EChecksUpdate u (inr r); ELog (js "Update result")])
  end.
Proof.
  cbv zeta.
  assert (E : report W (check_run id) (isMissingMigrations f)
                (makeMigrationsOutput f) (hasUnappliedMigrations f)
                (unappliedMigrations f) (unappliedMigrationDetails f) h1 =
              bind (bind (octokit_checks_update W (result_update W h1 id f))
                      await)
                (fun _ => console_log (js "Update result")) h1)
    by reflexivity.
  rewrite E. unfold bind, octokit_checks_update, promise_of.
  destruct (checks_update W h1 (result_update W h1 id f)) as [e|r];
    cbn [await throw ret console_log emit].
  - reflexivity.
  - unfold console_log, emit. now rewrite <- app_assoc.
Qed.

Lemma check_reports W cmd id h f h1 running :
  gather W cmd h = ((Returned f, h1), running) ->
  check W cmd (check_run id) h =
  (let u := result_update W h1 id f in
   match checks_update W h1 u with
   | inl e => (Thrown e, h1 ++ [EChecksUpdate u (inl e)])
   | inr r =>
       (Returned tt,
        h1 ++ [EChecksUpdate u (inr r); ELog (js "Update result")])
   end, []).
Proof. intro G. now rewrite check_split, G, report_run. Qed.

Lemma check_throws W cmd checkRun h e h1 running :
  gather W cmd h = ((Thrown e, h1), running) ->
  check W cmd checkRun h = ((Thrown e, h1), running).
Proof. intro G. now rewrite check_split, G. Qed.

Lemma check_failed_run W id e h :
  check_failed W (check_run id) e h =
  let u := failure_update W (caught h e) id in
  let a := checks_update W (caught h e) u in
  (settle a, caught h e ++ [EChecksUpdate u a]).
Proof.
  cbv zeta.
  destruct (checks_update W (caught h e) (failure_update W (caught h e) id))
    as [e'|r] eqn:Eu;
    unfold failure_update, caught in Eu |- *;
    unfold check_failed;
    cbv beta iota zeta delta
      [bind member check_run find fst snd ret toISOString setFailed
       octokit_checks_update promise_of await console_log emit
       String.eqb Ascii.eqb Bool.eqb];
    rewrite <- !app_assoc in *; cbn [app] in *; rewrite Eu; reflexivity.
Qed.

Lemma getInput_supplied W name required :
  input W name <> [] -> getInput W name required = ret (trim (input W name)).
Proof.
  intro H. unfold getInput. destruct (input W name); [congruence|].
  now rewrite andb_false_r.
Qed.

Lemma getInput_optional W name :
  getInput W name false = ret (trim (input W name)).
Proof. reflexivity. Qed.

Lemma new_GitHub_accepted W :
  token_accepted W ->
  new_GitHub W (trim (input W (js "github-token"))) = ret tt.
Proof. unfold token_accepted, new_GitHub. now intros ->. Qed.

Lemma bind_ret {A B} (a : A) (k : A -> M B) : bind (ret a) k = k a.
Proof. reflexivity. Qed.

Lemma run_without_token W :
  input W (js "github-token") = [] ->
  run W [] =
  (Thrown (Error (js "Input required and not supplied: " ++ js "github-token")),
   []).
Proof. intro H. unfold run, bind, getInput. now rewrite H. Qed.

Lemma run_without_client W e :
  input W (js "github-token") <> [] ->
  client_error W (trim (input W (js "github-token"))) = Some e ->
  run W [] = (Thrown e, []).
Proof.
  intros H C. unfold run. rewrite (getInput_supplied W _ true H), bind_ret.
  unfold bind at 1, new_GitHub. now rewrite C.
Qed.

Lemma run_with_token W :
  input W (js "github-token") <> [] ->
  token_accepted W ->
  run W [] =
  match checks_create W [] (create_request W) with
  | inl e =>
      (Returned tt,
       [EChecksCreate (create_request W) (inl e); ESetFailed (message e)])
  | inr id =>
      match check W (locks_command W) (check_run id) (created W id) with
      | ((Returned done, h1), _) => (Returned done, h1)
      | ((Thrown error, h1), running) =>
          let '(outcome, h2) := check_failed W (check_run id) error h1 in
          (outcome, drain W (2 * length running) running h2)
      end
  end.
Proof.
  intros H T. unfold run. rewrite (getInput_supplied W _ true H), bind_ret.
  rewrite (new_GitHub_accepted W T), bind_ret.
  rewrite getInput_optional, bind_ret.
  unfold bind at 1, try_catch at 1, bind at 1, bind at 1,
    octokit_checks_create. fold (create_request W).
  unfold locks_command.
  destruct (checks_create W [] (create_request W)) as [e|id];
    destruct (trim (input W (js "migrations-lock-command"))); reflexivity.
Qed.

(** Every run of check-migrations has one of the six shapes. *)
Theorem run_has_shape W :
  run_shape W (fst (run W [])) (snd (run W [])).
Proof.
  destruct (input W (js "github-token")) as [|c cs] eqn:Et.
  - rewrite (run_without_token W Et). now constructor.
  - assert (Ht : input W (js "github-token") <> []) by (rewrite Et; congruence).
    destruct (client_error W (trim (input W (js "github-token"))))
      as [e|] eqn:Ec.
    { rewrite (run_without_client W e Ht Ec). now constructor. }
    assert (Ta : token_accepted W) by exact Ec.
    rewrite (run_with_token W Ht Ta).
    destruct (checks_create W [] (create_request W)) as [e|id].
    + now constructor.
    + destruct (gather W (locks_command W) (created W id))
        as [[[f|e] h] running] eqn:G.
      * rewrite (check_reports W _ id _ f h running G). cbv zeta.
        destruct (checks_update W h (result_update W h id f)) as [e|[]] eqn:Eu.
        -- rewrite check_failed_run. cbv beta iota zeta.
           cbn [fst snd length Nat.mul drain].
           now apply (@shape_update_failed W id f h running e).
        -- cbn [fst snd]. now apply (@shape_reported W id f h running).
      * rewrite (check_throws W _ _ _ e h running G), check_failed_run.
        cbv beta iota zeta. cbn [fst snd].
        now apply (@shape_failed W id e h running).
Qed.

End CheckRun.

(** ** Reading the traces *)

Lemma creations_app a b : creations (a ++ b) = creations a ++ creations b.
Proof. apply flat_map_app. Qed.

Lemma updates_app a b : updates (a ++ b) = updates a ++ updates b.
Proof. apply flat_map_app. Qed.

Lemma failures_app a b : failures (a ++ b) = failures a ++ failures b.
Proof. apply flat_map_app. Qed.

Lemma replay_app s a b :
  replay s (a ++ b) =
  match replay s a with
  | Some s' => replay s' b
  | None => None
  end.
Proof.
  revert s. induction a as [|e a IH]; intro s; simpl; [reflexivity|].
  destruct (check_step s e); [apply IH | reflexivity].
Qed.

Lemma execs_are_silent d :
  Forall is_exec d ->
  creations d = [] /\ updates d = [] /\ failures d = [] /\
  forall s, replay s d = Some s.
Proof.
  induction 1 as [|e d He _ (Hc & Hu & Hf & Hr)].
  - repeat split.
  - destruct e; try contradiction. repeat split; simpl; auto.
Qed.

Lemma gather_from_created W cmd id o h running :
  gather W cmd (created W id) = ((o, h), running) ->
  creations h = [create_request W] /\ updates h = [] /\ failures h = [] /\
  replay Absent h = Some InProgress.
Proof.
  intro G. destruct (gather_quiet W cmd _ _ _ _ G) as (d & -> & Hd).
  destruct (execs_are_silent d Hd) as (Hc & Hu & Hf & Hr).
  rewrite creations_app, updates_app, failures_app, replay_app, Hc, Hu, Hf.
  repeat split. simpl. apply Hr.
Qed.

Lemma gather_inv W cmd h f h' running :
  gather W cmd h = ((Returned f, h'), running) ->
  exists h1 h2,
    CheckMigrations.checkMissingMigrations W h =
      (Returned (isMissingMigrations f, makeMigrationsOutput f), h1) /\
    CheckMigrations.getUnappliedMigrations W h1 =
      (Returned (hasUnappliedMigrations f, unappliedMigrations f), h2) /\
    fst (Promise_all W (2 * length (unappliedMigrations f))
           (map (CheckMigrations.getMigrationOutputCall cmd)
              (unappliedMigrations f)) h2) =
      (Returned (unappliedMigrationDetails f), h').
Proof.
  unfold gather. intro G.
  destruct (CheckMigrations.checkMissingMigrations W h)
    as [[[missing text]|e] h1] eqn:E1; [|discriminate].
  destruct (CheckMigrations.getUnappliedMigrations W h1)
    as [[[flag pairs]|e] h2] eqn:E2; [|discriminate].
  cbn [fst snd] in G.
  destruct (Promise_all W _ _ h2) as [[[details|e] h3] running'] eqn:E3;
    [|discriminate].
  injection G as <- <- <-. exists h1, h2. cbn [isMissingMigrations
    makeMigrationsOutput hasUnappliedMigrations unappliedMigrations
    unappliedMigrationDetails]. now rewrite E3.
Qed.

Lemma success_is_not_failure : js "success" <> js "failure".
Proof. discriminate. Qed.

(** ** The claims about the run of check-migrations *)

Lemma drain_nothing {A} W n h : drain W n (@nil (Async A)) h = h.
Proof. destruct n; reflexivity. Qed.

Lemma drained_is_silent {A} W n (tasks : list (Async A)) h :
  exists d,
    drain W n tasks h = h ++ d /\ Forall is_exec d /\
    creations d = [] /\ updates d = [] /\ failures d = [] /\
    forall s, replay s d = Some s.
Proof.
  destruct (drain_appends W n tasks h) as (d & E & F).
  exists d. split; [exact E|]. split; [exact F|].
  exact (execs_are_silent d F).
Qed.

(** The summary writes its number in decimal. *)
Lemma js_cons c s : js (String c s) = N_of_ascii c :: js s.
Proof. reflexivity. Qed.

Lemma decimal_from_uint d acc :
  decimal_from acc (js (NilEmpty.string_of_uint d)) =
  Some (Nat.of_uint_acc d acc).
Proof.
  revert acc. induction d; intro acc; cbn [NilEmpty.string_of_uint];
    [reflexivity|..];
    rewrite js_cons; cbn [decimal_from];
    match goal with
    | |- context [digit_value ?c] =>
        let v := eval vm_compute in (digit_value c) in
        change (digit_value c) with v
    end;
    cbv beta iota; rewrite IHd; cbn [Nat.of_uint_acc];
    rewrite Nat.tail_mul_spec; f_equal; f_equal; lia.
Qed.

Lemma of_nat_value n : decimal_value (of_nat n) = Some n.
Proof.
  unfold of_nat, NilZero.string_of_uint.
  pose proof (Unsigned.of_to n) as E. unfold Nat.of_uint in E.
  destruct (Nat.to_uint n) as [|d|d|d|d|d|d|d|d|d|d] eqn:Ed;
    [simpl in E; subst n; reflexivity|..];
    cbv beta iota;
    match goal with
    | |- decimal_value (js (NilEmpty.string_of_uint ?u)) = _ =>
        specialize (decimal_from_uint u 0) as V';
        rewrite E in V';
        cbn [NilEmpty.string_of_uint] in V' |- *;
        rewrite js_cons in V' |- *;
        exact V'
    end.
Qed.

Section CheckRunClaims.

Import CheckMigrations.

Lemma check_from_created W cmd id o h running :
  check W cmd (check_run id) (created W id) = ((o, h), running) ->
  failures h = [] /\ creations h = [create_request W] /\
  exists d, h = created W id ++ d.
Proof.
  rewrite check_split.
  destruct (gather W cmd (created W id)) as [[[f|e] h1] r] eqn:G;
    destruct (gather_from_created W _ _ _ _ _ G) as (Hc & _ & Hf & _);
    destruct (gather_quiet W _ _ _ _ _ G) as (d & E & _).
  - rewrite report_run. cbv zeta.
    destruct (checks_update W h1 _); intros [= <- <- <-];
      rewrite failures_app, creations_app, Hf, Hc; repeat split;
      eexists; rewrite E, <- app_assoc; reflexivity.
  - intros [= <- <- <-]. repeat split; try assumption. eauto.
Qed.

(** C8 (amended).  In every run of the check-migrations script the
    creation of a check run is requested at most once, and exactly once
    when the required input [github-token] is supplied and the GitHub
    client can be constructed with it (otherwise the run throws before
    any request); the request has status ["in_progress"]; every update
    of the check run sets its conclusion to ["success"] or ["failure"];
    and, a request that GitHub rejects leaving the check run as it is,
    the check run only moves from absent to in progress and from in
    progress to completed: no other status or conclusion is written and
    nothing leaves a completed state. *)
Theorem check_run_lifecycle W :
  let t := snd (run W []) in
  (length (creations t) <= 1)%nat /\
  (input W (js "github-token") <> [] -> token_accepted W ->
   length (creations t) = 1%nat) /\
  (forall r, In r (creations t) -> cc_status r = js "in_progress") /\
  (forall u, In u (updates t) ->
     conclusion u = js "success" \/ conclusion u = js "failure") /\
  (exists s, replay Absent t = Some s).
Proof.
  cbv zeta. pose proof (run_has_shape W) as S.
  destruct S as [Ht|e Ht Hc|e Ht Ta|id f h running Ht Ta G
                |id e h running Ht Ta G u a|id f h running e Ht Ta G h1 u a].
  - split; [|split; [|split; [|split]]]; simpl.
    + lia.
    + congruence.
    + now intros ? [].
    + now intros ? [].
    + eauto.
  - split; [|split; [|split; [|split]]]; simpl.
    + lia.
    + unfold token_accepted. congruence.
    + now intros ? [].
    + now intros ? [].
    + eauto.
  - split; [|split; [|split; [|split]]]; simpl.
    + lia.
    + reflexivity.
    + intros r [<-|[]]. reflexivity.
    + now intros ? [].
    + eauto.
  - destruct (gather_from_created W _ id _ h _ G) as (Hc & Hu & Hf & Hr).
    rewrite creations_app, updates_app, replay_app, Hc, Hu, Hr.
    split; [|split; [|split; [|split]]]; simpl.
    + lia.
    + reflexivity.
    + intros r [<-|[]]. reflexivity.
    + intros x [<-|[]]. simpl. destruct (isMissingMigrations f); auto.
    + destruct (isMissingMigrations f); simpl; eauto.
  - destruct (gather_from_created W _ id _ h _ G) as (Hc & Hu & Hf & Hr).
    destruct (drained_is_silent W (2 * length running) running
                (caught h e ++ [EChecksUpdate u a]))
      as (d & -> & _ & Dc & Du & _ & Dr).
    unfold caught.
    rewrite !creations_app, !updates_app, !replay_app, Hc, Hu, Hr, Dc, Du.
    split; [|split; [|split; [|split]]]; simpl.
    + lia.
    + reflexivity.
    + intros r [<-|[]]. reflexivity.
    + intros x [<-|[]]. subst u. simpl. auto.
    + destruct a; subst u; simpl; rewrite Dr; eauto.
  - destruct (gather_from_created W _ id _ h _ G) as (Hc & Hu & Hf & Hr).
    unfold caught. subst h1.
    rewrite !creations_app, !updates_app, !replay_app, Hc, Hu, Hr.
    split; [|split; [|split; [|split]]]; simpl.
    + lia.
    + reflexivity.
    + intros r [<-|[]]. reflexivity.
    + intros x [<-|[<-|[]]]; [|subst u; simpl; auto].
      simpl. destruct (isMissingMigrations f); auto.
    + destruct a; subst u; simpl; eauto.
Qed.

Lemma check_run_lifecycle_witness :
  length (creations (snd (run project_world []))) = 1%nat.
Proof.
  refine (proj1 (proj2 (check_run_lifecycle project_world)) _ _).
  - discriminate.
  - reflexivity.
Defined.

(** C8 as stated fails: in a run without the [github-token] input [run]
    throws at [core.getInput] and no check run is created at all. *)
Lemma no_check_run_without_token :
  input tokenless_world (js "github-token") = [] /\
  run tokenless_world [] =
    (Thrown (Error (js "Input required and not supplied: github-token")), []) /\
  length (creations (snd (run tokenless_world []))) <> 1%nat.
Proof. repeat split. discriminate. Qed.

(** C10.  In a run of check-migrations that ends without an error (it
    returns and the action is not marked failed), the last request is the
    update of the check run, its conclusion is ["failure"] if and only if
    [checkMissingMigrations] found missing migrations and ["success"]
    otherwise, whether or not there are unapplied migrations; without
    missing migrations the summary reads ["N new migrations"], N being
    the number of unapplied migrations written in decimal, and so
    ["0 new migrations"] when there are none. *)
Theorem conclusion_follows_missing_migrations W t :
  run W [] = (Returned tt, t) ->
  failures t = [] ->
  exists id isMissing text hasUnapplied unapplied h1 h2 h u,
    checkMissingMigrations W (created W id) = (Returned (isMissing, text), h1) /\
    getUnappliedMigrations W h1 = (Returned (hasUnapplied, unapplied), h2) /\
    t = h ++ [EChecksUpdate u (inr tt); ELog (js "Update result")] /\
    updates h = [] /\
    (conclusion u = js "failure" <-> isMissing = true) /\
    (conclusion u = js "success" <-> isMissing = false) /\
    (isMissing = false ->
     summary (output u) = of_nat (length unapplied) ++ js " new migrations") /\
    (isMissing = false -> unapplied = [] ->
     summary (output u) = js "0 new migrations") /\
    (isMissing = false ->
     exists number,
       summary (output u) = number ++ js " new migrations" /\
       decimal_value number = Some (length unapplied)).
Proof.
  intros R F. pose proof (run_has_shape W) as S. rewrite R in S.
  cbn [fst snd] in S. remember (Returned tt) as o eqn:Eo.
  destruct S as [Ht|e Ht Hc|e Ht Ta|id f h running Ht Ta G
                |id e h running Ht Ta G u a|id f h running e Ht Ta G h1 u a].
  - discriminate.
  - discriminate.
  - discriminate.
  - destruct (gather_from_created W _ id _ h _ G) as (_ & Hu & _).
    destruct (gather_inv W _ _ f h _ G) as (h1 & h2 & E1 & E2 & _).
    exists id, (isMissingMigrations f), (makeMigrationsOutput f),
      (hasUnappliedMigrations f), (unappliedMigrations f), h1, h2, h,
      (result_update W h id f).
    repeat split; try assumption; simpl.
    + destruct (isMissingMigrations f); [reflexivity|].
      intro E. now apply success_is_not_failure in E.
    + now intros ->.
    + destruct (isMissingMigrations f); [|reflexivity].
      intro E. symmetry in E. now apply success_is_not_failure in E.
    + now intros ->.
    + intro E. unfold summary_of. now rewrite E.
    + intros E1' E2'. unfold summary_of. now rewrite E1', E2'.
    + intro E. exists (of_nat (length (unappliedMigrations f))).
      split; [unfold summary_of; now rewrite E | apply of_nat_value].
  - exfalso.
    destruct (drained_is_silent W (2 * length running) running
                (caught h e ++ [EChecksUpdate u a]))
      as (d & Ed & _). rewrite Ed in F.
    unfold caught in F. rewrite !failures_app in F. simpl in F.
    now destruct (failures h).
  - exfalso. unfold caught in F. rewrite !failures_app in F. simpl in F.
    now destruct (failures h1).
Qed.

End CheckRunClaims.

Lemma conclusion_follows_missing_migrations_witness :
  map (fun u => (conclusion u, summary (output u)))
    (updates (snd (CheckMigrations.run two_new_world [])))
    = [(js "success", js "2 new migrations")] /\
  exists id isMissing text hasUnapplied unapplied h1 h2 h u,
    CheckMigrations.checkMissingMigrations two_new_world
      (created two_new_world id) = (Returned (isMissing, text), h1) /\
    CheckMigrations.getUnappliedMigrations two_new_world h1
      = (Returned (hasUnapplied, unapplied), h2) /\
    snd (CheckMigrations.run two_new_world []) =
      h ++ [EChecksUpdate u (inr tt); ELog (js "Update result")] /\
    updates h = [] /\
    (conclusion u = js "failure" <-> isMissing = true) /\
    (conclusion u = js "success" <-> isMissing = false) /\
    (isMissing = false ->
     summary (output u) = of_nat (length unapplied) ++ js " new migrations") /\
    (isMissing = false -> unapplied = [] ->
     summary (output u) = js "0 new migrations") /\
    (isMissing = false ->
     exists number,
       summary (output u) = number ++ js " new migrations" /\
       decimal_value number = Some (length unapplied)).
Proof.
  split; [reflexivity|].
  exact (conclusion_follows_missing_migrations two_new_world
           (snd (CheckMigrations.run two_new_world [])) eq_refl eq_refl).
Defined.

(** The edge of C10 on a run: nothing missing, nothing unapplied. *)
Example settled_project_reports_0_new_migrations :
  map (fun u => (conclusion u, summary (output u)))
    (updates (snd (CheckMigrations.run settled_world [])))
  = [(js "success", js "0 new migrations")].
Proof. vm_compute. reflexivity. Qed.

(** Unapplied migrations alone do not fail the check. *)
Example new_migrations_alone_succeed :
  let W :=
    scripted [("github-token", "secret")]%string
      [("python -W ignore manage.py makemigrations --dry-run --check",
        exits 0 ("No changes detected" ++ nl) ["No changes detected"]);
       ("python -W ignore manage.py showmigrations --plan",
        exits 0 ("[ ]  shop.0002_price" ++ nl) ["[ ]  shop.0002_price"]);
       ("python -W ignore manage.py sqlmigrate shop 0002_price",
        exits 0 ("BEGIN;" ++ nl) ["BEGIN;"]);
       ("python -W ignore manage.py migrationlocks shop 0002_price",
        exits 0 ("ACCESS EXCLUSIVE shop_item" ++ nl)
          ["ACCESS EXCLUSIVE shop_item"])]%string [] in
  map (fun u => (conclusion u, summary (output u)))
    (updates (snd (CheckMigrations.run W [])))
  = [(js "success", js "1 new migrations")].
Proof. vm_compute. reflexivity. Qed.

(** The numbers of a summary with more than one digit. *)
Example summary_numbers :
  of_nat 12 ++ js " new migrations" = js "12 new migrations" /\
  decimal_value (js "12") = Some 12%nat /\
  decimal_value (js "") = None /\ decimal_value (js "1x") = None.
Proof. repeat split. Qed.

(** ** The runs of the dump scripts *)

Lemma supplied_cons W name names :
  supplied W (name :: names) ->
  input W (js name) <> [] /\ supplied W names.
Proof. intro H. now apply Forall_cons_iff in H. Qed.

Lemma dump_run_supplied W :
  supplied W dump_input_names ->
  token_accepted W ->
  DumpDatabase.run W [] =
  try_catch (DumpDatabase.attempt W (dump_config W) (read W "branch"))
    DumpDatabase.failed [].
Proof.
  unfold dump_input_names. intros H T.
  repeat (apply supplied_cons in H as [? H]).
  unfold DumpDatabase.run.
  rewrite getInput_supplied, bind_ret by assumption.
  rewrite (new_GitHub_accepted W T), bind_ret.
  repeat (rewrite getInput_supplied, bind_ret by assumption).
  reflexivity.
Qed.

Lemma second_run_supplied W :
  supplied W ["github-token"; "output-path"; "branch"]%string ->
  token_accepted W ->
  DumpCheck.run W [] =
  try_catch (DumpCheck.attempt W (read W "output-path") (read W "branch"))
    DumpCheck.failed [].
Proof.
  intros H T. repeat (apply supplied_cons in H as [? H]).
  unfold DumpCheck.run.
  rewrite getInput_supplied, bind_ret by assumption.
  rewrite (new_GitHub_accepted W T), bind_ret.
  repeat (rewrite getInput_supplied, bind_ret by assumption).
  reflexivity.
Qed.

Lemma exit_status_caught h e : exit_status (caught h e) = 1%Z.
Proof.
  unfold exit_status, caught. rewrite failures_app. simpl.
  now destruct (failures h).
Qed.

Lemma exit_status_app_caught h e d :
  exit_status (caught h e ++ d) = 1%Z.
Proof.
  unfold exit_status, caught. rewrite !failures_app. simpl.
  now destruct (failures h).
Qed.

(** What the [catch] block of check-migrations leaves behind, the
    started commands of [Promise.all] included. *)
Lemma run_caught W id e h running :
  input W (js "github-token") <> [] ->
  token_accepted W ->
  checks_create W [] (create_request W) = inr id ->
  CheckMigrations.check W (locks_command W) (check_run id) (created W id)
    = ((Thrown e, h), running) ->
  let request := failure_update W (caught h e) id in
  exists rest,
    snd (CheckMigrations.run W []) =
      h ++ [ELog (js "Something went wrong"); ESetFailed (message e);
            EChecksUpdate request (checks_update W (caught h e) request)]
        ++ rest /\
    Forall is_exec rest /\
    (running = [] -> rest = []) /\
    failures (snd (CheckMigrations.run W [])) = [message e].
Proof.
  intros Ht Ta Hc Hb request.
  rewrite (run_with_token W Ht Ta), Hc, Hb, check_failed_run.
  cbv zeta. cbn [snd]. fold request.
  destruct (drained_is_silent W (2 * length running) running
              (caught h e ++
               [EChecksUpdate request (checks_update W (caught h e) request)]))
    as (rest & E & F & _ & _ & Ff & _).
  destruct (check_from_created W _ _ _ _ _ Hb) as (Fh & _).
  exists rest. split; [|split; [|split]].
  - rewrite E. unfold caught. now rewrite <- !app_assoc.
  - exact F.
  - intros ->. rewrite drain_nothing in E.
    apply (app_inv_head (caught h e ++
             [EChecksUpdate request (checks_update W (caught h e) request)])).
    now rewrite app_nil_r.
  - rewrite E. unfold caught. rewrite !failures_app, Fh, Ff. reflexivity.
Qed.

(** C3.  In check-migrations, with the [github-token] input supplied and
    accepted by the GitHub client, when the check run [id] is created and
    the [try] block that follows throws an error, the [catch] block logs,
    marks the action failed with the message of that error, and that
    message only, and then sends an update of the check run [id] with
    conclusion ["failure"]; whatever follows in the run is the work of
    the commands that [Promise.all] had started and that were still
    running when the error was thrown, and nothing follows when there
    were none.  In both dump scripts, the inputs supplied and the token
    accepted, an error thrown in the [try] block is caught: the run
    returns after marking the action failed with the message of the
    error.  In all three the exit status is then 1. *)
Theorem errors_are_caught W :
  (forall id e h running,
     input W (js "github-token") <> [] ->
     token_accepted W ->
     checks_create W [] (create_request W) = inr id ->
     CheckMigrations.check W (locks_command W) (check_run id) (created W id)
       = ((Thrown e, h), running) ->
     let request := failure_update W (caught h e) id in
     (exists rest,
        snd (CheckMigrations.run W []) =
          h ++ [ELog (js "Something went wrong"); ESetFailed (message e);
                EChecksUpdate request (checks_update W (caught h e) request)]
            ++ rest /\
        Forall is_exec rest /\
        (running = [] -> rest = [])) /\
     failures (snd (CheckMigrations.run W [])) = [message e] /\
     check_run_id request = VNumber id /\
     conclusion request = js "failure" /\
     exit_status (snd (CheckMigrations.run W [])) = 1%Z) /\
  (forall e h,
     supplied W dump_input_names ->
     token_accepted W ->
     DumpDatabase.attempt W (dump_config W) (read W "branch") [] = (Thrown e, h) ->
     DumpDatabase.run W [] =
       (Returned tt,
        h ++ [ELog (js "Something went wrong"); ESetFailed (message e)]) /\
     exit_status (snd (DumpDatabase.run W [])) = 1%Z) /\
  (forall e h,
     supplied W ["github-token"; "output-path"; "branch"]%string ->
     token_accepted W ->
     DumpCheck.attempt W (read W "output-path") (read W "branch") [] = (Thrown e, h) ->
     DumpCheck.run W [] =
       (Returned tt,
        h ++ [ELog (js "Something went wrong"); ESetFailed (message e)]) /\
     exit_status (snd (DumpCheck.run W [])) = 1%Z).
Proof.
  split; [|split].
  - intros id e h running Ht Ta Hc Hb request.
    destruct (run_caught W id e h running Ht Ta Hc Hb)
      as (rest & E & F & N & Fl).
    fold request in E.
    split; [|split; [|split; [|split]]].
    + exists rest. auto.
    + exact Fl.
    + reflexivity.
    + reflexivity.
    + unfold exit_status. now rewrite Fl.
  - intros e h Hs Ta Hb. rewrite (dump_run_supplied W Hs Ta).
    unfold try_catch. rewrite Hb.
    assert (E : DumpDatabase.failed e h = (Returned tt, caught h e)).
    { unfold DumpDatabase.failed, bind, console_log, setFailed, emit, caught.
      now rewrite <- app_assoc. }
    rewrite E. split; [reflexivity | apply exit_status_caught].
  - intros e h Hs Ta Hb. rewrite (second_run_supplied W Hs Ta).
    unfold try_catch. rewrite Hb.
    assert (E : DumpCheck.failed e h = (Returned tt, caught h e)).
    { unfold DumpCheck.failed, bind, console_log, setFailed, emit, caught.
      now rewrite <- app_assoc. }
    rewrite E. split; [reflexivity | apply exit_status_caught].
Qed.

Lemma dump_inputs_supplied : supplied changed_dump_world dump_input_names.
Proof. repeat constructor; discriminate. Defined.

Lemma second_inputs_supplied :
  supplied changed_dump_world ["github-token"; "output-path"; "branch"]%string.
Proof. repeat constructor; discriminate. Defined.

Lemma errors_are_caught_witness :
  (exists e h request answer rest,
     snd (CheckMigrations.run racing_world []) =
       h ++ [ELog (js "Something went wrong"); ESetFailed (message e);
             EChecksUpdate request answer] ++ rest /\
     map command_line (commands h) =
       map js ["python -W ignore manage.py makemigrations --dry-run --check";
               "python -W ignore manage.py showmigrations --plan";
               "python -W ignore manage.py sqlmigrate shop 0003_stock"]%string /\
     map command_line (commands rest) =
       map js ["python -W ignore manage.py sqlmigrate shop 0002_price";
               "python -W ignore manage.py migrationlocks shop 0002_price"]%string /\
     Forall is_exec rest /\
     failures (snd (CheckMigrations.run racing_world [])) = [message e] /\
     check_run_id request = VNumber 7 /\
     conclusion request = js "failure" /\
     exit_status (snd (CheckMigrations.run racing_world [])) = 1%Z) /\
  (exists request answer,
     snd (CheckMigrations.run failing_plan_world []) =
       after (after (created failing_plan_world 7) makemigrations
                (exits 0 ("No changes detected" ++ nl)
                   ["No changes detected"%string]))
         showmigrations
         (exits 1 ("[ ]  shop.0002_price" ++ nl)
            ["[ ]  shop.0002_price"%string])
       ++ [ELog (js "Something went wrong"); ESetFailed (message plan_failed);
           EChecksUpdate request answer] /\
     check_run_id request = VNumber 7 /\
     conclusion request = js "failure" /\
     exit_status (snd (CheckMigrations.run failing_plan_world [])) = 1%Z) /\
  (exists h,
     DumpDatabase.run changed_dump_world [] =
       (Returned tt,
        h ++ [ELog (js "Something went wrong");
              ESetFailed (js "createPullRequest is not defined")]) /\
     exit_status (snd (DumpDatabase.run changed_dump_world [])) = 1%Z) /\
  (DumpCheck.run changed_dump_world [] =
     (Returned tt,
      [] ++ [ELog (js "Something went wrong");
             ESetFailed (js "applyMigrations is not defined")]) /\
   exit_status (snd (DumpCheck.run changed_dump_world [])) = 1%Z).
Proof.
  assert (T : js "secret" <> []) by discriminate.
  split; [|split; [|split]].
  - pose proof (proj1 (errors_are_caught racing_world) 7%Z _ _ _
                  T eq_refl eq_refl eq_refl) as H.
    cbv zeta in H. destruct H as ((rest & E & F & _) & Fl & I & C & X).
    do 5 eexists. split; [exact E|].
    split; [reflexivity|]. split.
    + apply (f_equal (skipn 8)) in E. vm_compute in E. now rewrite <- E.
    + auto.
  - pose proof (proj1 (errors_are_caught failing_plan_world) 7%Z plan_failed
                  _ _ T eq_refl eq_refl eq_refl) as H.
    cbv zeta in H. destruct H as ((rest & E & _ & N) & _ & I & C & X).
    rewrite (N eq_refl), app_nil_r in E.
    do 2 eexists. split; [exact E | auto].
  - eexists.
    exact (proj1 (proj2 (errors_are_caught changed_dump_world))
             (ReferenceError (js "createPullRequest is not defined")) _
             dump_inputs_supplied eq_refl eq_refl).
  - exact (proj2 (proj2 (errors_are_caught changed_dump_world))
             (ReferenceError (js "applyMigrations is not defined")) []
             second_inputs_supplied eq_refl eq_refl).
Defined.

(** The commands [Promise.all] has started go on after the error is
    handled: [sqlmigrate] fails for [0003_stock] before the process for
    [0002_price], started first, has ended. *)
Example started_commands_run_on :
  map (fun e =>
         match e with
         | EExec c _ => command_line c
         | ELog m => m
         | ESetFailed _ => js "setFailed"
         | EChecksCreate _ _ => js "checks.create"
         | EChecksUpdate u _ => js "checks.update " ++ conclusion u
         | _ => []
         end)
    (snd (CheckMigrations.run racing_world []))
  = map js
      ["checks.create";
       "Check run";
       "python -W ignore manage.py makemigrations --dry-run --check";
       "python -W ignore manage.py showmigrations --plan";
       "python -W ignore manage.py sqlmigrate shop 0003_stock";
       "Something went wrong";
       "setFailed";
       "checks.update failure";
       "python -W ignore manage.py sqlmigrate shop 0002_price";
       "python -W ignore manage.py migrationlocks shop 0002_price"]%string.
Proof. vm_compute. reflexivity. Qed.

(** A token of white space only is supplied, and refused by the client:
    the run throws before any request. *)
Example blank_token_is_refused :
  CheckMigrations.run blank_token_world [] =
    (Thrown (Error (js "Parameter token or opts.auth is required")), []) /\
  DumpDatabase.run blank_token_world [] =
    (Thrown (Error (js "Parameter token or opts.auth is required")), []) /\
  DumpCheck.run blank_token_world [] =
    (Thrown (Error (js "Parameter token or opts.auth is required")), []).
Proof. repeat split. Qed.

(** No run of [dump-database/index.js] creates a pull request, whether
    the dump changed or not. *)
Lemma bind_throw_appends {P : Event -> Prop} {A B} e (k : A -> M B) :
  appends P (bind (throw e) k).
Proof. intros h o h' [= <- <-]. exists []. now rewrite app_nil_r. Qed.

Lemma createOrUpdateFile_appends {P : Event -> Prop} W r :
  (forall a, P (ECreateOrUpdateFile r a)) ->
  appends P (octokit_repos_createOrUpdateFile W r).
Proof.
  intros Pr h o h' [= <- <-].
  exists [ECreateOrUpdateFile r (create_or_update_file W h r)]. auto.
Qed.

Lemma commitFile_opens_nothing W p branch :
  appends no_pull_request (DumpDatabase.commitFile W p branch).
Proof.
  unfold DumpDatabase.commitFile. appends_auto.
  apply createOrUpdateFile_appends. intro. exact I.
Qed.

Lemma attempt_opens_nothing W cfg branch :
  appends no_pull_request (DumpDatabase.attempt W cfg branch).
Proof.
  unfold DumpDatabase.attempt.
  apply appends_bind;
    [unfold DumpDatabase.applyMigrations; appends_auto | intro].
  apply appends_bind;
    [unfold DumpDatabase.dumpDatabase; appends_auto | intros [|]].
  - apply appends_bind; [apply commitFile_opens_nothing | intro].
    change (identifier (DumpDatabase.branch_functions W) "createPullRequest")
      with (@throw (jsstring -> M unit)
              (ReferenceError (js "createPullRequest" ++ js " is not defined"))).
    apply bind_throw_appends.
  - apply appends_bind; [apply commitFile_opens_nothing | intro].
    apply appends_ret.
Qed.

Lemma no_pull_request_created d :
  Forall no_pull_request d -> pull_requests_created d = [].
Proof.
  induction 1 as [|e d He _ IH]; [reflexivity|].
  destruct e; try contradiction; exact IH.
Qed.

(** The half of C1 that holds: no run of [dump-database/index.js] creates
    a pull request, so none with an unchanged dump does. *)
Lemma dump_run_opens_no_pull_request W :
  pull_requests_created (snd (DumpDatabase.run W [])) = [].
Proof.
  assert (H : appends no_pull_request (DumpDatabase.run W)).
  { unfold DumpDatabase.run. do 10 (apply appends_bind; [appends_auto | intro]).
    apply appends_try_catch; [apply attempt_opens_nothing | intro].
    unfold DumpDatabase.failed, console_log, setFailed. appends_auto. }
  destruct (DumpDatabase.run W []) as [o t] eqn:E.
  destruct (H _ _ _ E) as (d & -> & Hd).
  now apply no_pull_request_created.
Qed.

(** * Further properties of the scripts *)

(** ** The line regex and the parser *)

Section ParserExtras.

Import CheckMigrations.

(** X1.  [line.match(regex)] as the script runs it implements the regex
    of the source: it returns groups exactly when the whole line matches
    the regex with these groups, and [null] exactly when the line does
    not match in any way; a line matches exactly when it is a bracketed
    [X] or space, white space, an app label, a dot and a migration name,
    label and name being non-empty runs of [A-Za-z0-9_]. *)
Theorem line_match_implements_regex line :
  (forall g,
     Regex.match_migration line = Some g <->
     Regex.matches Regex.migration_regex line (Regex.captures_of g)) /\
  (Regex.match_migration line = None <-> no_match line) /\
  ((exists caps, Regex.matches Regex.migration_regex line caps) <->
   exists c ws app name,
     line = migration_line c ws app name /\
     (c = 88%N \/ c = 32%N) /\
     ws <> [] /\ forallb is_space ws = true /\ word app /\ word name).
Proof.
  split; [|split].
  - intro g. apply RegexFacts.match_migration_correct.
  - apply RegexFacts.match_migration_none.
  - split.
    + intros [caps H]. apply RegexFacts.migration_regex_inv in H
        as (c & ws & app & name & -> & _ & Hc & Hws & Fws & Happ & Fapp & Hn & Fn).
      exists c, ws, app, name. unfold word. repeat split; try assumption.
      unfold Regex.one_of in Hc. simpl in Hc.
      repeat rewrite ?orb_true_iff, ?N.eqb_eq in Hc.
      destruct Hc as [->|[->|F]]; auto; discriminate.
    + intros (c & ws & app & name & -> & Hc & Hws & Fws & [Happ Fapp] & [Hn Fn]).
      eexists. apply RegexFacts.migration_regex_intro; try assumption.
      destruct Hc as [->| ->]; reflexivity.
Qed.

Lemma mapM_classify_returned lines classified h h' :
  mapM classify lines h = (Returned classified, h') ->
  Forall (fun p : jsstring * jsstring => word (fst p) /\ word (snd p))
    (non_null classified).
Proof.
  revert classified h h'. induction lines as [|l lines IH]; intros cl h h'; simpl.
  - intros [= <- <-]. constructor.
  - intro H. apply bind_returned in H as (c & h1 & Ec & H).
    apply bind_returned in H as (cs & h2 & Ecs & H).
    injection H as <- <-. specialize (IH _ _ _ Ecs).
    unfold classify in Ec.
    destruct (Regex.match_migration l) as [g|] eqn:Em; [|discriminate].
    injection Ec as <- <-.
    apply RegexFacts.match_migration_shape in Em
      as (c0 & ws & _ & _ & _ & _ & _ & Ha & Fa & Hn & Fn).
    destruct (js_eqb (Regex.applied g) (js " ")); simpl; [|exact IH].
    constructor; [|exact IH]. unfold word. auto.
Qed.

(** X2.  Whenever [getUnappliedMigrations] returns, every (app label,
    migration name) pair it returns consists of two non-empty strings of
    characters [A-Za-z0-9_] only. *)
Theorem unapplied_pairs_are_words W h flag pairs h' :
  getUnappliedMigrations W h = (Returned (flag, pairs), h') ->
  Forall (fun p => word (fst p) /\ word (snd p)) pairs.
Proof.
  unfold getUnappliedMigrations. intro H.
  apply bind_returned in H as (r & h1 & _ & H).
  destruct (negb (code r =? 0)%Z); [discriminate|].
  apply bind_returned in H as (cl & h2 & Ecl & H).
  injection H as _ <- _. eapply mapM_classify_returned. exact Ecl.
Qed.

Lemma unapplied_pairs_are_words_witness :
  Forall (fun p : jsstring * jsstring => word (fst p) /\ word (snd p))
    [(js "shop", js "0002_price")].
Proof.
  exact (unapplied_pairs_are_words project_world [] true _ _ eq_refl).
Defined.

Lemma drop_while_blank s :
  forallb is_space s = true -> drop_while is_space s = [].
Proof.
  induction s as [|c s IH]; simpl; [reflexivity|].
  intro H. apply andb_true_iff in H as [Hc Hs]. rewrite Hc. auto.
Qed.

Lemma trim_blank s : forallb is_space s = true -> trim s = [].
Proof. intro H. unfold trim. now rewrite (drop_while_blank s H). Qed.

(** X3.  When [showmigrations --plan] exits with code 0 and prints
    nothing, or white space only, [getUnappliedMigrations] does not
    return an empty list: the trimmed output splits into one empty line,
    which does not match, and the function throws. *)
Theorem blank_plan_is_an_error W h out ls :
  process W h showmigrations = Exited 0 out ls ->
  forallb is_space (stdout_of out) = true ->
  fst (getUnappliedMigrations W h) =
  Thrown (Error (js "Line " ++ js "" ++ js " did not match regex")).
Proof.
  intros Hp Hb. rewrite (getUnappliedMigrations_exited W h 0 out ls Hp).
  cbv zeta. rewrite Z.eqb_refl, (trim_blank _ Hb). reflexivity.
Qed.

Lemma blank_plan_is_an_error_witness :
  fst (getUnappliedMigrations blank_plan_world []) =
  Thrown (Error (js "Line " ++ js "" ++ js " did not match regex")).
Proof.
  exact (blank_plan_is_an_error blank_plan_world [] _ _ eq_refl eq_refl).
Defined.

Lemma drop_while_app_keep (p : N -> bool) a b :
  existsb (fun c => negb (p c)) a = true ->
  drop_while p (a ++ b) = drop_while p a ++ b.
Proof.
  induction a as [|c a IH]; simpl; [discriminate|].
  destruct (p c); simpl; [exact IH | reflexivity].
Qed.

Lemma existsb_rev {A} (f : A -> bool) l : existsb f (rev l) = existsb f l.
Proof.
  induction l as [|a l IH]; simpl; [reflexivity|].
  rewrite existsb_app, IH. simpl. rewrite orb_false_r. apply orb_comm.
Qed.

Lemma split_first_line a b :
  ~ In newline a -> split newline (a ++ newline :: b) = a :: split newline b.
Proof.
  induction a as [|c a IH]; simpl; intro H.
  - reflexivity.
  - destruct (c =? newline)%N eqn:E.
    + apply N.eqb_eq in E. exfalso. apply H. now left.
    + rewrite IH; [reflexivity|]. intro K. apply H. now right.
Qed.

Lemma matched_line_ends_in_word line c g :
  Regex.match_migration (line ++ [c]) = Some g -> is_word c = true.
Proof.
  intro H. apply RegexFacts.match_migration_shape in H
    as (c0 & ws & E & _ & _ & _ & _ & _ & _ & Hn & Fn).
  destruct (exists_last Hn) as (name' & x & En). rewrite En in E, Fn.
  unfold migration_line in E.
  change (91%N :: c0 :: 93%N :: ws ++ Regex.appLabel g ++ 46%N :: name' ++ [x])
    with ([91%N; c0; 93%N] ++ ws ++ Regex.appLabel g ++ [46%N] ++ name' ++ [x])
    in E.
  rewrite !app_assoc in E. apply app_inj_tail in E as [_ ->].
  rewrite forallb_app in Fn. apply andb_true_iff in Fn as [_ Fx].
  simpl in Fx. now rewrite andb_true_r in Fx.
Qed.

Lemma trim_keeps_inner_return first rest c0 first' :
  first = c0 :: first' -> is_space c0 = false ->
  existsb (fun c => negb (is_space c)) rest = true ->
  trim (first ++ 13%N :: 10%N :: rest) =
  (first ++ [13%N]) ++ newline :: rev (drop_while is_space (rev rest)).
Proof.
  intros -> Hc Hr. unfold trim.
  assert (E : drop_while is_space ((c0 :: first') ++ 13%N :: 10%N :: rest)
              = (c0 :: first') ++ 13%N :: 10%N :: rest).
  { simpl. now rewrite Hc. }
  rewrite E. rewrite rev_app_distr.
  change (rev (13%N :: 10%N :: rest)) with ((rev rest ++ [10%N]) ++ [13%N]).
  rewrite <- !app_assoc.
  rewrite drop_while_app_keep by now rewrite existsb_rev.
  rewrite !rev_app_distr, rev_involutive. simpl.
  now rewrite <- !app_assoc.
Qed.

(** X4.  Carriage returns are not stripped from the lines: when the
    output has a line that matches the regex, followed by a carriage
    return, a newline and more text that is not blank, the line handed to
    the regex ends in the carriage return, and [getUnappliedMigrations]
    throws on it although the command exited with code 0. *)
Theorem carriage_returns_are_not_stripped W h out ls first rest g :
  process W h showmigrations = Exited 0 out ls ->
  stdout_of out = first ++ 13%N :: 10%N :: rest ->
  Regex.match_migration first = Some g ->
  ~ In newline first ->
  existsb (fun c => negb (is_space c)) rest = true ->
  fst (getUnappliedMigrations W h) =
  Thrown (Error (js "Line " ++ (first ++ [13%N]) ++ js " did not match regex")).
Proof.
  intros Hp Eo Hm Hnl Hr.
  rewrite (getUnappliedMigrations_exited W h 0 out ls Hp). cbv zeta.
  rewrite Z.eqb_refl, Eo.
  pose proof Hm as Hs. apply RegexFacts.match_migration_shape in Hs
    as (c0 & ws & E & _).
  rewrite (trim_keeps_inner_return first rest 91%N _ E eq_refl Hr).
  rewrite split_first_line.
  2:{ intro K. apply in_app_or in K as [K|[K|[]]]; [now apply Hnl | discriminate]. }
  simpl mapM.
  assert (Hnone : Regex.match_migration (first ++ [13%N]) = None).
  { destruct (Regex.match_migration (first ++ [13%N])) as [g'|] eqn:Em;
      [|reflexivity].
    apply matched_line_ends_in_word in Em. discriminate. }
  now rewrite (bind_fail _ (classify_unmatched _ _ Hnone)).
Qed.

Lemma carriage_returns_are_not_stripped_witness :
  fst (getUnappliedMigrations windows_world []) =
  Thrown (Error (js "Line " ++ (js "[X]  shop.0001_initial" ++ [13%N])
                   ++ js " did not match regex")).
Proof.
  refine (carriage_returns_are_not_stripped windows_world [] _ _
            (js "[X]  shop.0001_initial")
            (js ("[ ]  shop.0002_price" ++ cr ++ nl))
            {| Regex.applied := js "X"; Regex.appLabel := js "shop";
               Regex.migrationName := js "0001_initial" |}
            eq_refl eq_refl eq_refl _ eq_refl).
  intro K. vm_compute in K. intuition discriminate.
Defined.

End ParserExtras.

(** ** The run of check-migrations *)

Section CheckRunExtras.

Import CheckMigrations.

(** X5.  When the token is supplied and accepted by the GitHub client
    and the check run cannot be created, [run] marks the action failed
    with the message of that error and returns: no Django command is run
    and no update is sent. *)
Theorem rejected_creation_ends_the_run W e :
  input W (js "github-token") <> [] ->
  token_accepted W ->
  checks_create W [] (create_request W) = inl e ->
  run W [] =
    (Returned tt,
     [EChecksCreate (create_request W) (inl e); ESetFailed (message e)]) /\
  commands (snd (run W [])) = [] /\
  updates (snd (run W [])) = [].
Proof.
  intros Ht Ta Hc. rewrite (run_with_token W Ht Ta), Hc. repeat split.
Qed.

Lemma rejected_creation_ends_the_run_witness :
  run unauthorized_world [] =
    (Returned tt,
     [EChecksCreate (create_request unauthorized_world)
        (inl (Error (js "Bad credentials")));
      ESetFailed (js "Bad credentials")]) /\
  commands (snd (run unauthorized_world [])) = [] /\
  updates (snd (run unauthorized_world [])) = [].
Proof.
  refine (rejected_creation_ends_the_run unauthorized_world
            (Error (js "Bad credentials")) _ eq_refl eq_refl).
  discriminate.
Defined.

Lemma commands_app a b : commands (a ++ b) = commands a ++ commands b.
Proof. apply flat_map_app. Qed.

Lemma gather_extends_created W cmd id o h running :
  gather W cmd (created W id) = ((o, h), running) ->
  exists d, h = created W id ++ d /\ Forall is_exec d.
Proof. intro G. exact (gather_quiet W cmd _ _ _ _ G). Qed.

(** X6.  In every run of check-migrations at most two updates of the
    check run are sent and the action is marked failed at most once;
    every update carries the id GitHub answered the creation with; and a
    Django command is only run once the check run is created. *)
Theorem updates_follow_the_creation W :
  let t := snd (run W []) in
  (length (updates t) <= 2)%nat /\
  (length (failures t) <= 1)%nat /\
  (forall u, In u (updates t) ->
     exists id,
       In (EChecksCreate (create_request W) (inr id)) t /\
       check_run_id u = VNumber id) /\
  (commands t <> [] -> exists id rest, t = created W id ++ rest).
Proof.
  cbv zeta. pose proof (run_has_shape W) as S.
  destruct S as [Ht|e Ht Hc|e Ht Ta|id f h running Ht Ta G
                |id e h running Ht Ta G u a|id f h running e Ht Ta G h1 u a].
  - split; [|split; [|split]]; simpl.
    + lia.
    + lia.
    + now intros ? [].
    + congruence.
  - split; [|split; [|split]]; simpl.
    + lia.
    + lia.
    + now intros ? [].
    + congruence.
  - split; [|split; [|split]]; simpl.
    + lia.
    + lia.
    + now intros ? [].
    + congruence.
  - destruct (gather_from_created W _ id _ h _ G) as (Hc & Hu & Hf & Hr).
    destruct (gather_extends_created W _ id _ h _ G) as (d & Eh & Hd).
    rewrite updates_app, failures_app, Hu, Hf.
    split; [|split; [|split]]; simpl.
    + lia.
    + lia.
    + intros x [<-|[]]. exists id. split; [|reflexivity].
      apply in_or_app. left. rewrite Eh. now left.
    + intros _. exists id. eexists. rewrite Eh, <- app_assoc. reflexivity.
  - destruct (gather_from_created W _ id _ h _ G) as (Hc & Hu & Hf & Hr).
    destruct (gather_extends_created W _ id _ h _ G) as (d & Eh & Hd).
    destruct (drained_is_silent W (2 * length running) running
                (caught h e ++ [EChecksUpdate u a]))
      as (rest & -> & _ & _ & Du & Df & _).
    unfold caught. rewrite !updates_app, !failures_app, Hu, Hf, Du, Df.
    split; [|split; [|split]]; simpl.
    + lia.
    + lia.
    + intros x [<-|[]]. exists id. split; [|reflexivity].
      do 3 (apply in_or_app; left). rewrite Eh. now left.
    + intros _. exists id. eexists. rewrite Eh, <- !app_assoc. reflexivity.
  - destruct (gather_from_created W _ id _ h _ G) as (Hc & Hu & Hf & Hr).
    destruct (gather_extends_created W _ id _ h _ G) as (d & Eh & Hd).
    unfold caught. subst h1. rewrite !updates_app, !failures_app, Hu, Hf.
    split; [|split; [|split]]; simpl.
    + lia.
    + lia.
    + intros x [<-|[<-|[]]]; exists id; (split; [|reflexivity]);
        do 3 (apply in_or_app; left); rewrite Eh; now left.
    + intros _. exists id. eexists. rewrite Eh, <- !app_assoc. reflexivity.
Qed.

(** X7.  An error leaves [run] in three cases only: the required
    [github-token] input is missing, and the error says so; or the token
    is supplied and the GitHub client cannot be constructed with it, and
    the error is that of the constructor; in both nothing was done.  Or
    the [catch] block has marked the action failed and its own update of
    the check run is refused: the error is that of this update, after
    which only commands that were still running show. *)
Theorem errors_leave_run_from_three_places W e :
  fst (run W []) = Thrown e ->
  (input W (js "github-token") = [] /\
   e = Error (js "Input required and not supplied: github-token") /\
   snd (run W []) = []) \/
  (input W (js "github-token") <> [] /\
   client_error W (trim (input W (js "github-token"))) = Some e /\
   snd (run W []) = []) \/
  (exists h u rest,
     snd (run W []) = h ++ [EChecksUpdate u (inl e)] ++ rest /\
     Forall is_exec rest /\
     conclusion u = js "failure" /\
     text (output u) = None /\
     length (failures h) = 1%nat).
Proof.
  intro H. pose proof (run_has_shape W) as S. rewrite H in S.
  remember (Thrown e) as o eqn:Eo.
  destruct S as [Ht|e' Ht Hc|e' Ht Ta|id f h running Ht Ta G
                |id e' h running Ht Ta G u a|id f h running e' Ht Ta G h1 u a].
  - left. injection Eo as <-. auto.
  - right. left. injection Eo as <-. auto.
  - discriminate.
  - discriminate.
  - right. right.
    destruct (gather_from_created W _ id _ h _ G) as (_ & _ & Hf & _).
    destruct a as [e0|[]]; [|discriminate]. injection Eo as ->.
    destruct (drained_is_silent W (2 * length running) running
                (caught h e' ++ [EChecksUpdate u (inl e)]))
      as (rest & -> & Fr & _).
    exists (caught h e'), u, rest. subst u.
    rewrite <- app_assoc. repeat split; [exact Fr|].
    unfold caught. rewrite failures_app, Hf. reflexivity.
  - right. right.
    destruct (gather_from_created W _ id _ h _ G) as (_ & _ & Hf & _).
    destruct a as [e0|[]]; [|discriminate]. injection Eo as ->.
    exists (caught h1 e'), u, []. subst u h1. repeat split; [constructor|].
    unfold caught. rewrite !failures_app, Hf. reflexivity.
Qed.

Lemma errors_leave_run_from_three_places_witness :
  (exists h u rest,
     snd (run flaky_world []) =
       h ++ [EChecksUpdate u (inl (Error (js "Server Error")))] ++ rest /\
     Forall is_exec rest /\
     conclusion u = js "failure" /\
     text (output u) = None /\
     length (failures h) = 1%nat) /\
  client_error blank_token_world (trim (input blank_token_world (js "github-token")))
    = Some (Error (js "Parameter token or opts.auth is required")) /\
  snd (run blank_token_world []) = [].
Proof.
  split.
  - destruct (errors_leave_run_from_three_places flaky_world
                (Error (js "Server Error")) eq_refl)
      as [(K & _)|[(_ & K & _)|K]]; [discriminate K | discriminate K | exact K].
  - destruct (errors_leave_run_from_three_places blank_token_world
                (Error (js "Parameter token or opts.auth is required")) eq_refl)
      as [(K & _)|[(_ & K & T)|(h & u & rest & K & _)]].
    + discriminate K.
    + split; [exact K | exact T].
    + apply (f_equal (@length _)) in K. rewrite !length_app in K.
      simpl in K. lia.
Defined.

(** X8.  When GitHub accepts the update that reports the findings (the
    one that carries the details text), the action is not marked failed:
    [run] returns and the exit status stays 0 whatever conclusion the
    update writes, also when it is ["failure"] because migrations are
    missing. *)
Theorem reported_findings_leave_exit_status_0 W u :
  In (EChecksUpdate u (inr tt)) (snd (run W [])) ->
  text (output u) <> None ->
  fst (run W []) = Returned tt /\
  failures (snd (run W [])) = [] /\
  exit_status (snd (run W [])) = 0%Z.
Proof.
  intros Hin Ht. pose proof (run_has_shape W) as S.
  assert (Quiet : forall id o h running,
            gather W (locks_command W) (created W id) = ((o, h), running) ->
            ~ In (EChecksUpdate u (inr tt)) h).
  { intros id o h running G K.
    destruct (gather_extends_created W _ id _ h _ G) as (d & -> & Hd).
    apply in_app_or in K as [[K|[K|[]]]|K]; try discriminate.
    rewrite Forall_forall in Hd. exact (Hd _ K). }
  destruct S as [Hk|e Hk Hc|e Hk Ta|id f h running Hk Ta G
                |id e h running Hk Ta G u' a|id f h running e Hk Ta G h1 u' a].
  - destruct Hin.
  - destruct Hin.
  - destruct Hin as [K|[K|[]]]; discriminate.
  - destruct (gather_from_created W _ id _ h _ G) as (_ & _ & Hf & _).
    unfold exit_status. rewrite failures_app, Hf. repeat split.
  - exfalso.
    destruct (drained_is_silent W (2 * length running) running
                (caught h e ++ [EChecksUpdate u' a]))
      as (rest & Er & Fr & _).
    rewrite Er in Hin. unfold caught in Hin.
    apply in_app_or in Hin as [Hin|Hin].
    + apply in_app_or in Hin as [Hin|[Hin|[]]].
      * apply in_app_or in Hin as [Hin|[Hin|[Hin|[]]]]; try discriminate.
        exact (Quiet _ _ _ _ G Hin).
      * injection Hin as <- _. now apply Ht.
    + rewrite Forall_forall in Fr. exact (Fr _ Hin).
  - exfalso. unfold caught in Hin. subst h1.
    apply in_app_or in Hin as [Hin|[Hin|[]]].
    + apply in_app_or in Hin as [Hin|[Hin|[Hin|[]]]]; try discriminate.
      apply in_app_or in Hin as [Hin|[Hin|[]]]; try discriminate.
      exact (Quiet _ _ _ _ G Hin).
    + injection Hin as <- _. now apply Ht.
Qed.

Lemma reported_findings_leave_exit_status_0_witness :
  map conclusion (updates (snd (run project_world []))) = [js "failure"] /\
  fst (run project_world []) = Returned tt /\
  failures (snd (run project_world [])) = [] /\
  exit_status (snd (run project_world [])) = 0%Z.
Proof.
  split; [reflexivity|].
  refine (reported_findings_leave_exit_status_0 project_world
            (hd (failure_update project_world [] 0)
               (updates (snd (run project_world [])))) _ _).
  - vm_compute. do 6 right. left. reflexivity.
  - discriminate.
Defined.

Lemma getUnappliedMigrations_flag W h flag pairs h' :
  getUnappliedMigrations W h = (Returned (flag, pairs), h') ->
  flag = (0 <? length pairs)%nat.
Proof.
  unfold getUnappliedMigrations. intro H.
  apply bind_returned in H as (r & h1 & _ & H).
  destruct (negb (code r =? 0)%Z); [discriminate|].
  apply bind_returned in H as (cl & h2 & _ & H).
  now injection H as <- <- _.
Qed.

Lemma summary_of_findings W cmd h f h' running :
  gather W cmd h = ((Returned f, h'), running) ->
  summary_of f =
  if isMissingMigrations f
  then match unappliedMigrations f with
       | [] => js "Missing migrations"
       | _ :: _ =>
           js "Missing migrations and "
             ++ of_nat (length (unappliedMigrations f))
             ++ js " new migrations"
       end
  else of_nat (length (unappliedMigrations f)) ++ js " new migrations".
Proof.
  intro G. apply gather_inv in G as (h1 & h2 & _ & E2 & _).
  apply getUnappliedMigrations_flag in E2. unfold summary_of. rewrite E2.
  destruct (isMissingMigrations f), (unappliedMigrations f); reflexivity.
Qed.

(** X9.  Every update of the check run that a run of check-migrations
    sends is either the one of the [catch] block (conclusion
    ["failure"], summary ["Failed to check migrations."], no details
    text), or reports what [checkMissingMigrations] and
    [getUnappliedMigrations] returned: with missing migrations the
    conclusion is ["failure"] and the summary ["Missing migrations"]
    when nothing is unapplied and ["Missing migrations and N new
    migrations"] for N > 0 unapplied migrations (never with N = 0);
    without, ["success"] and ["N new migrations"]. *)
Theorem summaries_written W u :
  In u (updates (snd (run W []))) ->
  (conclusion u = js "failure" /\
   summary (output u) = js "Failed to check migrations." /\
   text (output u) = None) \/
  (exists id isMissing text flag unapplied h1 h2,
     checkMissingMigrations W (created W id) = (Returned (isMissing, text), h1) /\
     getUnappliedMigrations W h1 = (Returned (flag, unapplied), h2) /\
     conclusion u = (if isMissing then js "failure" else js "success") /\
     summary (output u) =
       (if isMissing
        then match unapplied with
             | [] => js "Missing migrations"
             | _ :: _ =>
                 js "Missing migrations and " ++ of_nat (length unapplied)
                   ++ js " new migrations"
             end
        else of_nat (length unapplied) ++ js " new migrations")).
Proof.
  intro Hin. pose proof (run_has_shape W) as S.
  assert (Reported : forall id f h running,
            gather W (locks_command W) (created W id)
              = ((Returned f, h), running) ->
            exists id isMissing text flag unapplied h1 h2,
              checkMissingMigrations W (created W id)
                = (Returned (isMissing, text), h1) /\
              getUnappliedMigrations W h1 = (Returned (flag, unapplied), h2) /\
              conclusion (result_update W h id f)
                = (if isMissing then js "failure" else js "success") /\
              summary (output (result_update W h id f)) =
                (if isMissing
                 then match unapplied with
                      | [] => js "Missing migrations"
                      | _ :: _ =>
                          js "Missing migrations and "
                            ++ of_nat (length unapplied) ++ js " new migrations"
                      end
                 else of_nat (length unapplied) ++ js " new migrations")).
  { intros id f h running G.
    pose proof (summary_of_findings W _ _ f h _ G) as Es.
    destruct (gather_inv W _ _ f h _ G) as (h1 & h2 & E1 & E2 & _).
    exists id, (isMissingMigrations f), (makeMigrationsOutput f),
      (hasUnappliedMigrations f), (unappliedMigrations f), h1, h2.
    repeat split; assumption. }
  destruct S as [Hk|e Hk Hc|e Hk Ta|id f h running Hk Ta G
                |id e h running Hk Ta G u' a|id f h running e Hk Ta G h1 u' a].
  - destruct Hin.
  - destruct Hin.
  - destruct Hin.
  - destruct (gather_from_created W _ id _ h _ G) as (_ & Hu & _).
    rewrite updates_app, Hu in Hin. destruct Hin as [<-|[]].
    right. exact (Reported id f h _ G).
  - destruct (gather_from_created W _ id _ h _ G) as (_ & Hu & _).
    destruct (drained_is_silent W (2 * length running) running
                (caught h e ++ [EChecksUpdate u' a]))
      as (rest & Er & _ & _ & Du & _).
    rewrite Er in Hin.
    unfold caught in Hin. rewrite !updates_app, Hu, Du in Hin.
    destruct Hin as [<-|[]]. left. subst u'. repeat split.
  - destruct (gather_from_created W _ id _ h _ G) as (_ & Hu & _).
    unfold caught in Hin. subst h1. rewrite !updates_app, Hu in Hin.
    destruct Hin as [<-|[<-|[]]].
    + right. exact (Reported id f h _ G).
    + left. subst u'. repeat split.
Qed.

Lemma summaries_written_witness :
  exists u,
    updates (snd (run project_world [])) = [u] /\
    conclusion u = js "failure" /\
    summary (output u) = js "Missing migrations and 1 new migrations".
Proof.
  exists (hd (failure_update project_world [] 0)
            (updates (snd (run project_world [])))).
  split; [reflexivity|].
  destruct (summaries_written project_world
              (hd (failure_update project_world [] 0)
                 (updates (snd (run project_world [])))))
    as [(Hc & Hs & Ht)|(id & m & t & fl & un & h1 & h2 & E1 & E2 & Hc & Hs)].
  - left. reflexivity.
  - split; reflexivity.
  - split; reflexivity.
Defined.

(** X10.  The details text of the check run is empty exactly when there
    is nothing to report: no missing and no unapplied migrations. *)
Theorem details_are_empty_iff_nothing_found missing out unapplied details :
  renderDetailsMarkdown missing out unapplied details = js "" <->
  missing = false /\ unapplied = false.
Proof.
  destruct missing, unapplied; unfold renderDetailsMarkdown, non_null;
    cbn [flat_map app join]; unfold js at 1; cbn [list_ascii_of_string map];
    split; try discriminate; try (intros [? ?]; discriminate); auto.
Qed.

End CheckRunExtras.

(** ** The dump scripts *)

Section DumpExtras.

Ltac read_input E :=
  match goal with
  | |- bind (getInput ?W (js ?name) true) _ _ = _ =>
      destruct (input W (js name)) as [|? ?] eqn:E
  end.

Lemma getInput_missing W name h :
  input W name = [] ->
  getInput W name true h =
  (Thrown (Error (js "Input required and not supplied: " ++ name)), h).
Proof. intro E. unfold getInput. now rewrite E. Qed.

Lemma getInput_present W name h c cs :
  input W name = c :: cs ->
  getInput W name true h = (Returned (trim (input W name)), h).
Proof. intro E. unfold getInput. now rewrite E. Qed.

(** X11.  The nine inputs of dump-database are read in a fixed order
    before the [try] block, the GitHub client being constructed between
    the first, [github-token], and the second: when one is not supplied,
    and it is the token or the client accepts the token, [run] throws
    ["Input required and not supplied: <name>"] for the first missing
    one, uncaught, and nothing has been run or sent. *)
Theorem missing_input_stops_the_dump W name :
  first_missing W dump_input_names = Some name ->
  name = "github-token"%string \/ token_accepted W ->
  DumpDatabase.run W [] =
  (Thrown (Error (js "Input required and not supplied: " ++ js name)), []).
Proof.
  unfold first_missing, dump_input_names. cbn [find]. intros H Hn.
  unfold DumpDatabase.run.
  destruct (input W (js "github-token")) as [|c cs] eqn:Et.
  { injection H as <-.
    now rewrite (bind_fail _ (getInput_missing W _ [] Et)). }
  rewrite (bind_step _ (getInput_present W _ [] _ _ Et)).
  assert (Ta : token_accepted W).
  { destruct Hn as [->|Ta]; [exfalso | exact Ta].
    repeat match type of H with
           | (if match ?i with _ => _ end then _ else _) = _ =>
               destruct i; [discriminate H|]
           end.
    discriminate H. }
  assert (Ec : new_GitHub W (trim (input W (js "github-token"))) []
               = (Returned tt, []))
    by now rewrite (new_GitHub_accepted W Ta).
  rewrite (bind_step _ Ec).
  repeat
    (let E := fresh "E" in
     read_input E; try rewrite E in H; cbv beta iota in H;
     [ injection H as <-;
       now rewrite (bind_fail _ (getInput_missing W _ [] E))
     | rewrite (bind_step _ (getInput_present W _ [] _ _ E)) ]).
  discriminate.
Qed.

Lemma missing_input_stops_the_dump_witness :
  DumpDatabase.run portless_world [] =
  (Thrown (Error (js "Input required and not supplied: " ++ js "db-port")), []).
Proof.
  refine (missing_input_stops_the_dump portless_world "db-port" eq_refl _).
  right. reflexivity.
Defined.

(** A token the client refuses stops each of the three scripts at the
    constructor, whatever else is supplied or missing. *)
Lemma refused_token_stops_the_run W e :
  input W (js "github-token") <> [] ->
  client_error W (trim (input W (js "github-token"))) = Some e ->
  CheckMigrations.run W [] = (Thrown e, []) /\
  DumpDatabase.run W [] = (Thrown e, []) /\
  DumpCheck.run W [] = (Thrown e, []).
Proof.
  intros Ht Hc.
  split; [exact (run_without_client W e Ht Hc) | split].
  - unfold DumpDatabase.run. rewrite getInput_supplied, bind_ret by assumption.
    unfold bind at 1, new_GitHub. now rewrite Hc.
  - unfold DumpCheck.run. rewrite getInput_supplied, bind_ret by assumption.
    unfold bind at 1, new_GitHub. now rewrite Hc.
Qed.

Lemma exec_failing W c h n out ls :
  ignoreReturnCode c = false ->
  process W h c = Exited n out ls ->
  n <> 0%Z ->
  exec W c h = (Thrown (exit_code_error W c n), after h c (Exited n out ls)).
Proof.
  intros Hi Hp Hn. rewrite (exec_exited _ _ _ _ _ _ Hp), Hi.
  apply Z.eqb_neq in Hn. now rewrite Hn.
Qed.

(** X12.  With the inputs supplied and the token accepted by the GitHub
    client, when [manage.py migrate] exits with a non-zero code,
    dump-database stops there: nothing is dumped or committed, and the
    run returns after marking the action failed with the message of the
    error [exec] rejects with. *)
Theorem failed_migrate_stops_the_dump W n out ls :
  supplied W dump_input_names ->
  token_accepted W ->
  process W [] migrate = Exited n out ls ->
  n <> 0%Z ->
  DumpDatabase.run W [] =
  (Returned tt,
   [EExec migrate (Exited n out ls);
    ELog (js "Something went wrong");
    ESetFailed (message (exit_code_error W migrate n))]).
Proof.
  intros Hs Ta Hp Hn. rewrite (dump_run_supplied W Hs Ta).
  unfold try_catch, DumpDatabase.attempt, DumpDatabase.applyMigrations.
  fold migrate.
  rewrite (bind_fail _
             (bind_fail _ (exec_failing W migrate [] n out ls eq_refl Hp Hn))).
  reflexivity.
Qed.

Lemma failed_migrate_stops_the_dump_witness :
  commands (snd (DumpDatabase.run broken_migrate_world [])) = [migrate] /\
  files_committed (snd (DumpDatabase.run broken_migrate_world [])) = [] /\
  failures (snd (DumpDatabase.run broken_migrate_world [])) =
    [js "The process 'python' failed with exit code 1"].
Proof.
  assert (Hs : supplied broken_migrate_world dump_input_names)
    by (repeat constructor; discriminate).
  rewrite (failed_migrate_stops_the_dump broken_migrate_world 1%Z _ _ Hs
             eq_refl eq_refl).
  - repeat split.
  - discriminate.
Defined.

(** X13.  When [pg_dump] exits with a non-zero code, [dumpDatabase]
    throws the error of [exec] without asking [git ls-files] whether the
    dump changed. *)
Theorem failed_pg_dump_is_not_compared W h cfg n out ls :
  process W h (pg_dump cfg) = Exited n out ls ->
  n <> 0%Z ->
  DumpDatabase.dumpDatabase W cfg h =
  (Thrown (exit_code_error W (pg_dump cfg) n),
   h ++ [EExec (pg_dump cfg) (Exited n out ls)]).
Proof.
  intros Hp Hn. unfold DumpDatabase.dumpDatabase.
  change (command "docker" _) with (pg_dump cfg).
  now rewrite (bind_fail _ (exec_failing W (pg_dump cfg) h n out ls eq_refl Hp Hn)).
Qed.

Lemma failed_pg_dump_is_not_compared_witness :
  DumpDatabase.dumpDatabase broken_dump_world dump_cfg [] =
  (Thrown (Error (js "The process 'docker' failed with exit code 1")),
   [] ++ [EExec (pg_dump dump_cfg) (Exited 1 [js ""] [])]).
Proof.
  refine (failed_pg_dump_is_not_compared broken_dump_world [] dump_cfg 1%Z
            _ _ eq_refl _).
  discriminate.
Defined.

(** X14.  How a dump run ends, the inputs supplied and the token
    accepted by the GitHub client, once migrations, dump and commit have
    succeeded: with an unchanged dump [run] returns without an error;
    with a changed dump the call of [createPullRequest] throws, and [run]
    returns after marking the action failed with ["createPullRequest is
    not defined"].  In neither case is a pull request created. *)
Theorem dump_run_after_commit W text h1 changed h2 h3 :
  supplied W dump_input_names ->
  token_accepted W ->
  DumpDatabase.applyMigrations W [] = (Returned text, h1) ->
  DumpDatabase.dumpDatabase W (dump_config W) h1 = (Returned changed, h2) ->
  DumpDatabase.commitFile W (read W "output-path") (read W "branch") h2
    = (Returned tt, h3) ->
  DumpDatabase.run W [] =
    (Returned tt,
     if changed then caught h3 createPullRequest_undefined else h3) /\
  (changed = false -> failures (snd (DumpDatabase.run W [])) = failures h3) /\
  (changed = true ->
   failures (snd (DumpDatabase.run W [])) =
   failures h3 ++ [js "createPullRequest is not defined"]).
Proof.
  intros Hs Ta Ha Hd Hc.
  assert (E : DumpDatabase.run W [] =
    (Returned tt,
     if changed then caught h3 createPullRequest_undefined else h3)).
  { rewrite (dump_run_supplied W Hs Ta).
    unfold try_catch, DumpDatabase.attempt.
    rewrite (bind_step _ Ha), (bind_step _ Hd).
    change (DumpDatabase.outputPath (dump_config W)) with (read W "output-path").
    rewrite (bind_step _ Hc). destruct changed; [|reflexivity].
    assert (T : bind (identifier (DumpDatabase.branch_functions W)
                        "createPullRequest")
                  (fun createPullRequest => createPullRequest (read W "branch"))
                  h3 = (Thrown createPullRequest_undefined, h3))
      by reflexivity.
    rewrite T. unfold DumpDatabase.failed, bind, console_log, setFailed, emit,
      caught. now rewrite <- app_assoc. }
  rewrite E. cbn [snd]. split; [reflexivity|]. split; intros ->.
  - reflexivity.
  - unfold caught. now rewrite failures_app.
Qed.

Lemma dump_run_after_commit_witness :
  fst (DumpDatabase.run changed_dump_world []) = Returned tt /\
  failures (snd (DumpDatabase.run changed_dump_world [])) =
    [] ++ [js "createPullRequest is not defined"].
Proof.
  destruct (dump_run_after_commit changed_dump_world
              (js "Operations to perform:")
              (snd (DumpDatabase.applyMigrations changed_dump_world []))
              true
              (snd (DumpDatabase.dumpDatabase changed_dump_world dump_cfg
                      (snd (DumpDatabase.applyMigrations changed_dump_world []))))
              (snd (DumpDatabase.commitFile changed_dump_world (js "db.sql")
                      (js "update-db")
                      (snd (DumpDatabase.dumpDatabase changed_dump_world dump_cfg
                              (snd (DumpDatabase.applyMigrations
                                      changed_dump_world []))))))
              dump_inputs_supplied eq_refl eq_refl eq_refl eq_refl)
    as (E & _ & F).
  split; [now rewrite E | exact (F eq_refl)].
Defined.

Lemma commitFile_calls_no_pulls W p branch :
  appends no_pulls_call (DumpDatabase.commitFile W p branch).
Proof.
  unfold DumpDatabase.commitFile. appends_auto.
  apply createOrUpdateFile_appends. intro. exact I.
Qed.

Lemma dump_attempt_calls_no_pulls W cfg branch :
  appends no_pulls_call (DumpDatabase.attempt W cfg branch).
Proof.
  unfold DumpDatabase.attempt.
  apply appends_bind;
    [unfold DumpDatabase.applyMigrations; appends_auto | intro].
  apply appends_bind;
    [unfold DumpDatabase.dumpDatabase; appends_auto | intros [|]].
  - apply appends_bind; [apply commitFile_calls_no_pulls | intro].
    change (identifier (DumpDatabase.branch_functions W) "createPullRequest")
      with (@throw (jsstring -> M unit) createPullRequest_undefined).
    apply bind_throw_appends.
  - apply appends_bind; [apply commitFile_calls_no_pulls | intro].
    apply appends_ret.
Qed.

Lemma second_attempt_calls_no_pulls W p branch :
  appends no_pulls_call (DumpCheck.attempt W p branch).
Proof.
  unfold DumpCheck.attempt.
  change (identifier DumpCheck.string_functions "applyMigrations")
    with (@throw (M jsstring) applyMigrations_undefined).
  apply bind_throw_appends.
Qed.

Lemma no_pulls_in d :
  Forall no_pulls_call d ->
  pull_requests_listed d = [] /\ pull_requests_created d = [].
Proof.
  induction 1 as [|e d He _ [IH1 IH2]]; [split; reflexivity|].
  destruct e; try contradiction; split; assumption.
Qed.

(** X15.  No run of either dump script reaches the pull requests of the
    repository: whatever the inputs, the commands and GitHub answer, the
    run neither lists nor creates a pull request. *)
Theorem dump_scripts_never_reach_pull_requests W :
  pull_requests_listed (snd (DumpDatabase.run W [])) = [] /\
  pull_requests_created (snd (DumpDatabase.run W [])) = [] /\
  pull_requests_listed (snd (DumpCheck.run W [])) = [] /\
  pull_requests_created (snd (DumpCheck.run W [])) = [].
Proof.
  assert (H1 : appends no_pulls_call (DumpDatabase.run W)).
  { unfold DumpDatabase.run. do 10 (apply appends_bind; [appends_auto | intro]).
    apply appends_try_catch; [apply dump_attempt_calls_no_pulls | intro].
    unfold DumpDatabase.failed, console_log, setFailed. appends_auto. }
  assert (H2 : appends no_pulls_call (DumpCheck.run W)).
  { unfold DumpCheck.run. do 4 (apply appends_bind; [appends_auto | intro]).
    apply appends_try_catch; [apply second_attempt_calls_no_pulls | intro].
    unfold DumpCheck.failed, console_log, setFailed. appends_auto. }
  destruct (DumpDatabase.run W []) as [o1 t1] eqn:E1.
  destruct (DumpCheck.run W []) as [o2 t2] eqn:E2.
  destruct (H1 _ _ _ E1) as (d1 & -> & Hd1).
  destruct (H2 _ _ _ E2) as (d2 & -> & Hd2).
  cbn [snd app].
  destruct (no_pulls_in d1 Hd1), (no_pulls_in d2 Hd2). auto.
Qed.

(** X16.  The second dump script never gets to work: with its three
    inputs supplied and the token accepted by the GitHub client, [run]
    throws at the call of [applyMigrations], which
    the file does not define, before any command is run; it marks the
    action failed with ["applyMigrations is not defined"] and returns. *)
Theorem second_script_never_runs_a_command W :
  supplied W ["github-token"; "output-path"; "branch"]%string ->
  token_accepted W ->
  DumpCheck.run W [] =
    (Returned tt,
     [ELog (js "Something went wrong");
      ESetFailed (js "applyMigrations is not defined")]) /\
  commands (snd (DumpCheck.run W [])) = [] /\
  files_committed (snd (DumpCheck.run W [])) = [].
Proof.
  intros Hs Ta. rewrite (second_run_supplied W Hs Ta). repeat split.
Qed.

Lemma second_script_never_runs_a_command_witness :
  DumpCheck.run changed_dump_world [] =
    (Returned tt,
     [ELog (js "Something went wrong");
      ESetFailed (js "applyMigrations is not defined")]) /\
  commands (snd (DumpCheck.run changed_dump_world [])) = [] /\
  files_committed (snd (DumpCheck.run changed_dump_world [])) = [].
Proof.
  exact (second_script_never_runs_a_command changed_dump_world
           second_inputs_supplied eq_refl).
Defined.

(** X17.  [makePullRequest] never returns: in every world and for every
    answer of the list request (no open pull request, some, or an error)
    it sends that one request and then throws the [TypeError] of reading
    [length] of [undefined]; it creates no pull request, and an error of
    the list request is not what it throws. *)
Theorem makePullRequest_fails_whatever_the_answer W branch h :
  let request := list_request W branch in
  let answer := pulls_list W (h ++ [ELog (js "Creating pull request")]) request in
  DumpDatabase.makePullRequest W branch h =
    (Thrown undefined_length,
     h ++ [ELog (js "Creating pull request"); EPullsList request answer]) /\
  DumpCheck.makePullRequest W branch h = DumpDatabase.makePullRequest W branch h /\
  pull_requests_created (snd (DumpDatabase.makePullRequest W branch h))
    = pull_requests_created h.
Proof.
  cbv zeta. rewrite (makePullRequest_always_throws W branch h). cbv zeta.
  rewrite <- app_assoc. cbn [app snd]. split; [reflexivity|]. split.
  - unfold DumpCheck.makePullRequest.
    rewrite (makePullRequest_always_throws W branch h). cbv zeta.
    now rewrite <- app_assoc.
  - unfold pull_requests_created. rewrite flat_map_app. cbn.
    now rewrite app_nil_r.
Qed.

(** X18.  [commitFile] has no clean-up: when [git hash-object] fails
    after the dump was stashed and found to exist, the function throws
    the error of [exec] at once; [git stash pop] is not run, so the dump
    stays stashed, and no request is sent. *)
Theorem failed_hash_leaves_the_stash W h p branch out1 ls1 out2 ls2 n out3 ls3 :
  process W h (stash p) = Exited 0 out1 ls1 ->
  let h1 := after h (stash p) (Exited 0 out1 ls1) in
  process W h1 (test_f p) = Exited 0 out2 ls2 ->
  let h2 := after h1 (test_f p) (Exited 0 out2 ls2) in
  process W h2 (hash_object p) = Exited n out3 ls3 ->
  n <> 0%Z ->
  DumpDatabase.commitFile W p branch h =
  (Thrown (exit_code_error W (hash_object p) n),
   after h2 (hash_object p) (Exited n out3 ls3)).
Proof.
  intros H1 h1 H2 h2 H3 Hn. unfold DumpDatabase.commitFile.
  fold (stash p) (test_f p) (hash_object p).
  rewrite (bind_step _ (exec_ok W (stash p) h out1 ls1 H1)). fold h1.
  rewrite (bind_step _ (exec_ignoring W (test_f p) h1 0 out2 ls2 eq_refl H2)).
  fold h2. cbn [code]. rewrite Z.eqb_refl.
  now rewrite (bind_fail _
                 (bind_fail _
                    (exec_failing W (hash_object p) h2 n out3 ls3 eq_refl H3 Hn))).
Qed.

Lemma failed_hash_leaves_the_stash_witness :
  commands (snd (DumpDatabase.commitFile unhashable_world (js "db.sql")
                   (js "update-db") [])) =
    [stash (js "db.sql"); test_f (js "db.sql"); hash_object (js "db.sql")] /\
  files_committed (snd (DumpDatabase.commitFile unhashable_world (js "db.sql")
                          (js "update-db") [])) = [].
Proof.
  rewrite (failed_hash_leaves_the_stash unhashable_world [] (js "db.sql")
             (js "update-db") _ _ _ _ 128%Z _ _ eq_refl eq_refl eq_refl).
  - split; reflexivity.
  - discriminate.
Defined.

End DumpExtras.
